(** * Register monitor: a shallow embedding of the reference implementation

    The development embeds the solution files of the register monitoring
    exercise:
    - [monitor.h]          constants, enums and the two structs;
    - [register_monitor.c] validators, status aggregator, scan/update loops,
                           error classification and one-shot recovery;
    - [test_functions.c]   [validate_register] and the modular tests;
    - [monitor_utils.c]    initialisation, the simulated register access,
                           failure simulation and emergency shutdown;
    - [error_recovery.c]   the recovery log, the retry mechanism and the
                           graceful degradation level;
    - [multi_chip_monitor.c] initialisation, scan and priority monitoring
                           of the chip array.

    Modelling conventions.
    - [float] is IEEE-754 binary32, taken from the standard library's
      [SpecFloat] at precision 24 and maximal exponent 128.  A decimal
      literal [x.yf] denotes the correctly rounded binary32 value, and
      float expressions are evaluated in binary32 (no excess precision).
    - [int] is a 32-bit signed integer held in [Z].  Signed overflow and an
      array access outside its bounds are undefined behaviour in C: the
      model stops with [Undefined] there instead of inventing a value.
    - [uint32_t] is held in [Z] with its wrap-around modulo 2^32 written out.
    - A [monitor_system_t *] argument is an [option]: [None] is [NULL].  A
      function that writes through the pointer returns the new pointee next
      to its C result.
    - File-scope and function-scope statics ([counter] in [read_register],
      [recovery_state] in error_recovery.c) and the readings of [time(NULL)]
      live in an explicit [world] threaded by a small state-and-error monad;
      the chip array of multi_chip_monitor.c and its counter are passed and
      returned as a [multi_chip_t].
    - Console output is not part of the model: every [printf] is dropped,
      the branch that contained it is kept, and so is an [int] expression
      among its arguments that can overflow (the sums [attempt + 1] and
      [max_retries + 1] that [implement_retry_mechanism] prints). *)

From Stdlib Require Import ZArith Lia Bool.
From Stdlib Require Import Floats.SpecFloat.
From stdpp Require Import base tactics option list strings pretty.

Local Open Scope Z_scope.

(** ** binary32 arithmetic *)

Module F32.

Definition prec : Z := 24.
Definition emax : Z := 128.

Definition float : Type := spec_float.

(** An integer that fits the mantissa, as a float. *)
Definition of_int (n : Z) : float := binary_normalize prec emax n 0 false.

(** The decimal literal [n/d] with suffix [f]: both operands are exact and
    IEEE division rounds correctly, so the quotient is the binary32 value
    nearest to the decimal. *)
Definition literal (n d : Z) : float := SFdiv prec emax (of_int n) (of_int d).

Definition add : float -> float -> float := SFadd prec emax.
Definition sub : float -> float -> float := SFsub prec emax.
Definition mul : float -> float -> float := SFmul prec emax.

(** The four C relational operators; each is false on an unordered pair. *)
Definition lt (a b : float) : bool :=
  match SFcompare a b with Some Lt => true | _ => false end.
Definition gt (a b : float) : bool :=
  match SFcompare a b with Some Gt => true | _ => false end.
Definition le (a b : float) : bool :=
  match SFcompare a b with Some (Lt | Eq) => true | _ => false end.
Definition ge (a b : float) : bool :=
  match SFcompare a b with Some (Gt | Eq) => true | _ => false end.

Definition is_nan (a : float) : bool :=
  match a with S754_nan => true | _ => false end.

Definition zero : float := S754_zero false.
Definition neg_infinity : float := S754_infinity true.

End F32.

Abbreviation float := F32.float.

Declare Scope f32_scope.
Delimit Scope f32_scope with f32.
Infix "<" := F32.lt : f32_scope.
Infix ">" := F32.gt : f32_scope.
Infix "<=" := F32.le : f32_scope.
Infix ">=" := F32.ge : f32_scope.
Infix "+" := F32.add : f32_scope.
Infix "-" := F32.sub : f32_scope.
Infix "*" := F32.mul : f32_scope.

(** ** Machine integers *)

Definition INT_MIN : Z := -2147483648.
Definition INT_MAX : Z := 2147483647.
Definition UINT32_MODULUS : Z := 4294967296.

Definition in_int_range (z : Z) : bool := (INT_MIN <=? z) && (z <=? INT_MAX).
Definition wrap32 (z : Z) : Z := z mod UINT32_MODULUS.

(** ** monitor.h *)

Definition MAX_REGISTERS : Z := 16.
Definition MAX_ERRORS : Z := 10.
Definition MONITOR_INTERVAL : Z := 1000.

Definition MIN_VOLTAGE : float := Eval vm_compute in F32.literal 30 10.
Definition MAX_VOLTAGE : float := Eval vm_compute in F32.literal 36 10.
Definition NOMINAL_VOLTAGE : float := Eval vm_compute in F32.literal 33 10.

Definition TEMP_WARNING : float := Eval vm_compute in F32.literal 750 10.
Definition TEMP_CRITICAL : float := Eval vm_compute in F32.literal 850 10.
Definition TEMP_NORMAL : float := Eval vm_compute in F32.literal 250 10.

Definition MIN_CURRENT : float := Eval vm_compute in F32.literal 5 100.
Definition MAX_CURRENT : float := Eval vm_compute in F32.literal 20 10.
Definition NOMINAL_CURRENT : float := Eval vm_compute in F32.literal 5 10.

Inductive system_status_t : Type :=
  | STATUS_NORMAL
  | STATUS_WARNING
  | STATUS_CRITICAL
  | STATUS_VOLTAGE_ERROR
  | STATUS_TEMPERATURE_ERROR
  | STATUS_CURRENT_ERROR
  | STATUS_COMMUNICATION_ERROR.

Definition system_status_eqb (a b : system_status_t) : bool :=
  match a, b with
  | STATUS_NORMAL, STATUS_NORMAL
  | STATUS_WARNING, STATUS_WARNING
  | STATUS_CRITICAL, STATUS_CRITICAL
  | STATUS_VOLTAGE_ERROR, STATUS_VOLTAGE_ERROR
  | STATUS_TEMPERATURE_ERROR, STATUS_TEMPERATURE_ERROR
  | STATUS_CURRENT_ERROR, STATUS_CURRENT_ERROR
  | STATUS_COMMUNICATION_ERROR, STATUS_COMMUNICATION_ERROR => true
  | _, _ => false
  end.

(** [error_code_t] is a C enum: callers can and do pass integers that are
    not one of the nine enumerators (the test-suite passes
    [(error_code_t)999]), so the type is the underlying integer. *)
Definition error_code_t : Type := Z.
Abbreviation ERROR_NONE := 0 (only parsing).
Abbreviation ERROR_VOLTAGE_LOW := 1 (only parsing).
Abbreviation ERROR_VOLTAGE_HIGH := 2 (only parsing).
Abbreviation ERROR_TEMPERATURE_HIGH := 3 (only parsing).
Abbreviation ERROR_CURRENT_LOW := 4 (only parsing).
Abbreviation ERROR_CURRENT_HIGH := 5 (only parsing).
Abbreviation ERROR_COMMUNICATION := 6 (only parsing).
Abbreviation ERROR_TIMEOUT := 7 (only parsing).
Abbreviation ERROR_INVALID_DATA := 8 (only parsing).

(** The nine enumerators. *)
Definition named_error_code (code : error_code_t) : bool :=
  (ERROR_NONE <=? code) && (code <=? ERROR_INVALID_DATA).

Record register_info_t : Type := mk_register_info {
  address : Z;
  value : Z;
  expected_min : Z;
  expected_max : Z;
  is_valid : bool;
  name : string
}.

Record monitor_system_t : Type := mk_monitor_system {
  voltage : float;
  temperature : float;
  current : float;
  status : system_status_t;
  error_count : Z;
  system_active : bool;
  registers : list register_info_t;
  num_registers : Z
}.

(** Field assignments. *)
Definition set_value (v : Z) (r : register_info_t) : register_info_t :=
  mk_register_info (address r) v (expected_min r) (expected_max r)
                   (is_valid r) (name r).
Definition set_is_valid (b : bool) (r : register_info_t) : register_info_t :=
  mk_register_info (address r) (value r) (expected_min r) (expected_max r)
                   b (name r).

Definition set_voltage (x : float) (s : monitor_system_t) : monitor_system_t :=
  mk_monitor_system x (temperature s) (current s) (status s) (error_count s)
                    (system_active s) (registers s) (num_registers s).
Definition set_temperature (x : float) (s : monitor_system_t) : monitor_system_t :=
  mk_monitor_system (voltage s) x (current s) (status s) (error_count s)
                    (system_active s) (registers s) (num_registers s).
Definition set_current (x : float) (s : monitor_system_t) : monitor_system_t :=
  mk_monitor_system (voltage s) (temperature s) x (status s) (error_count s)
                    (system_active s) (registers s) (num_registers s).
Definition set_status (x : system_status_t) (s : monitor_system_t) : monitor_system_t :=
  mk_monitor_system (voltage s) (temperature s) (current s) x (error_count s)
                    (system_active s) (registers s) (num_registers s).
Definition set_error_count (x : Z) (s : monitor_system_t) : monitor_system_t :=
  mk_monitor_system (voltage s) (temperature s) (current s) (status s) x
                    (system_active s) (registers s) (num_registers s).
Definition set_system_active (x : bool) (s : monitor_system_t) : monitor_system_t :=
  mk_monitor_system (voltage s) (temperature s) (current s) (status s)
                    (error_count s) x (registers s) (num_registers s).
Definition set_registers (x : list register_info_t) (s : monitor_system_t)
  : monitor_system_t :=
  mk_monitor_system (voltage s) (temperature s) (current s) (status s)
                    (error_count s) (system_active s) x (num_registers s).
Definition set_num_registers (x : Z) (s : monitor_system_t) : monitor_system_t :=
  mk_monitor_system (voltage s) (temperature s) (current s) (status s)
                    (error_count s) (system_active s) (registers s) x.

(** ** register_monitor.c, Task 1: conditional validation *)

Definition validate_voltage_range (voltage : float) : bool :=
  if (voltage < MIN_VOLTAGE)%f32 then false
  else if (voltage > MAX_VOLTAGE)%f32 then false
  else true.

Definition validate_temperature_range (temperature : float) : bool :=
  if (temperature > TEMP_CRITICAL)%f32 then false
  else if (temperature > TEMP_WARNING)%f32 then true
  else true.

Definition validate_current_range (current : float) : bool :=
  if (current < F32.zero)%f32 then false
  else if (current < MIN_CURRENT)%f32 then false
  else if (current > MAX_CURRENT)%f32 then false
  else true.

Definition determine_system_status (voltage temperature current : float)
  : system_status_t :=
  let voltage_ok := (voltage >= MIN_VOLTAGE)%f32 && (voltage <= MAX_VOLTAGE)%f32 in
  let current_ok := (current >= MIN_CURRENT)%f32 && (current <= MAX_CURRENT)%f32
                    && (current >= F32.zero)%f32 in
  if (temperature > TEMP_CRITICAL)%f32 then STATUS_CRITICAL
  else if negb voltage_ok then
    (if (voltage < MIN_VOLTAGE)%f32 then STATUS_VOLTAGE_ERROR
     else STATUS_VOLTAGE_ERROR)
  else if negb current_ok then
    (if (current < F32.zero)%f32 then STATUS_CRITICAL
     else if (current < MIN_CURRENT)%f32 then STATUS_WARNING
     else STATUS_WARNING)
  else if (temperature > TEMP_WARNING)%f32 then STATUS_WARNING
  else if voltage_ok && current_ok && (temperature <= TEMP_WARNING)%f32
       then STATUS_NORMAL
  else STATUS_CRITICAL.

Definition check_critical_conditions (system : option monitor_system_t) : bool :=
  match system with
  | None => true
  | Some system =>
      let critical_status := system_status_eqb (status system) STATUS_CRITICAL in
      let high_error_count := error_count system >=? MAX_ERRORS in
      let system_inactive := negb (system_active system) in
      let critical_temperature := (temperature system > TEMP_CRITICAL)%f32 in
      let voltage_out_of_range :=
        (voltage system < MIN_VOLTAGE)%f32 || (voltage system > MAX_VOLTAGE)%f32 in
      let current_negative := (current system < F32.zero)%f32 in
      if critical_status || high_error_count || system_inactive ||
         critical_temperature || voltage_out_of_range || current_negative
      then true
      else false
  end.

(** ** error_recovery.c: the process-wide recovery state *)

Definition MAX_RETRY_ATTEMPTS : Z := 3.
Definition RETRY_DELAY_MS : Z := 500.
Definition ERROR_LOG_SIZE : Z := 100.

Record error_log_entry_t : Type := mk_error_log_entry {
  timestamp : Z;
  error_code : error_code_t;
  retry_count : Z;
  recovery_successful : bool;
  description : string
}.

(** The [system] back-pointer of the C struct is written once by
    [init_recovery_system] and never read; it is left out. *)
Record recovery_system_t : Type := mk_recovery_system {
  error_log : list error_log_entry_t;
  log_count : Z;
  total_errors : Z;
  successful_recoveries : Z;
  degraded_mode : bool;
  degradation_level : Z
}.

(** ** The world outside the monitored struct *)

Record world : Type := mk_world {
  counter : Z;                        (* static in read_register *)
  recovery_state : recovery_system_t; (* static in error_recovery.c *)
  time_source : nat -> Z;             (* successive results of time(NULL) *)
  time_calls : nat                    (* how many have been consumed *)
}.

Definition set_counter (c : Z) (w : world) : world :=
  mk_world c (recovery_state w) (time_source w) (time_calls w).
Definition set_recovery_state (r : recovery_system_t) (w : world) : world :=
  mk_world (counter w) r (time_source w) (time_calls w).
Definition set_time_calls (n : nat) (w : world) : world :=
  mk_world (counter w) (recovery_state w) (time_source w) n.

(** What a call can do: finish with a value in a new world, run into
    undefined behaviour, or (for the one loop bounded by wall-clock time
    only) exhaust the iterations the model grants it. *)
Inductive outcome (A : Type) : Type :=
  | Ok (a : A) (w : world)
  | Undefined
  | OutOfFuel.
Arguments Ok {A} a w.
Arguments Undefined {A}.
Arguments OutOfFuel {A}.

Definition M (A : Type) : Type := world -> outcome A.

#[global] Instance M_ret : MRet M := fun A a w => Ok a w.
#[global] Instance M_bind : MBind M := fun A B f m w =>
  match m w with
  | Ok a w' => f a w'
  | Undefined => Undefined
  | OutOfFuel => OutOfFuel
  end.

Definition undefined_behaviour {A} : M A := fun _ => Undefined.
Definition out_of_fuel {A} : M A := fun _ => OutOfFuel.
Definition get_world : M world := fun w => Ok w w.
Definition put_world (w : world) : M unit := fun _ => Ok tt w.

(** An [int] result: defined only when it is representable. *)
Definition int_result (z : Z) : M Z :=
  if in_int_range z then mret z else undefined_behaviour.

(** [a[i]] on an array held as a list. *)
Definition array_get {A} (a : list A) (i : Z) : M A :=
  if i <? 0 then undefined_behaviour
  else match a !! Z.to_nat i with
       | Some x => mret x
       | None => undefined_behaviour
       end.

(** [a[i] = x]. *)
Definition array_set {A} (a : list A) (i : Z) (x : A) : M (list A) :=
  if (0 <=? i) && (i <? Z.of_nat (length a))
  then mret (<[Z.to_nat i := x]> a)
  else undefined_behaviour.

(** How one pass through a loop body ends. *)
Inductive control (R : Type) : Type :=
  | Next                 (* fell off the end of the body, or [continue] *)
  | Break                (* [break] *)
  | Return (r : R).      (* [return r] from inside the loop *)
Arguments Next {R}.
Arguments Break {R}.
Arguments Return {R} r.

(** [for (int i = start; <n more iterations>; i++) body]: the result is the
    final state, with [Some r] when the body left the function by
    [return r]. *)
Fixpoint for_loop {St R} (n : nat) (i : Z)
    (body : Z -> St -> M (control R * St)) (s : St) : M (St * option R) :=
  match n with
  | O => mret (s, None)
  | S n' =>
      '(c, s') ← body i s;
      match c with
      | Next => for_loop n' (i + 1) body s'
      | Break => mret (s', None)
      | Return r => mret (s', Some r)
      end
  end.

(** The final state of a loop whose body has no [return]. *)
Definition loop_state {St} (res : St * option Empty_set) : St := fst res.

(** [while (cond) body], granted [fuel] iterations. *)
Fixpoint while_loop {St} (fuel : nat) (cond : St -> bool)
    (body : St -> M (control Empty_set * St)) (s : St) : M St :=
  if cond s then
    match fuel with
    | O => out_of_fuel
    | S fuel' =>
        '(c, s') ← body s;
        match c with
        | Next => while_loop fuel' cond body s'
        | Break => mret s'
        | Return r => match (r : Empty_set) with end
        end
    end
  else mret s.

(** ** monitor_utils.c *)

Definition time_now : M Z := fun w =>
  Ok (time_source w (time_calls w)) (set_time_calls (S (time_calls w)) w).

Definition read_register (address : Z) : M Z :=
  w ← get_world;
  let counter' := wrap32 (counter w + 1) in
  put_world (set_counter counter' w);;
  let base_value := 305419896 (* 0x12345678 *) in
  let variation := wrap32 (Z.shiftl (counter' mod 16) 4) in
  mret (wrap32 (base_value + variation)).

Definition write_register (address value : Z) : bool := true.

Definition delay_ms (milliseconds : Z) : M unit :=
  _ ← int_result (milliseconds * 1000);
  mret tt.

Definition log_error (error : error_code_t) (message : string) : M unit :=
  _ ← time_now;
  mret tt.

Definition reg_names : list string :=
  ["CTRL_REG"; "STATUS_REG"; "DATA_REG"; "CONFIG_REG"].

Definition init_register (base_addr : Z) (i : Z) (system : monitor_system_t)
  : M (control Empty_set * monitor_system_t) :=
  reg_name ← array_get reg_names i;
  let r' := mk_register_info (wrap32 (base_addr + i * 4))
                             (wrap32 (305419896 + i))
                             268435456 (* 0x10000000 *)
                             536870912 (* 0x20000000 *)
                             true
                             (String.substring 0 31 reg_name) in
  regs ← array_set (registers system) i r';
  mret (Next, set_registers regs system).

Definition init_monitor_system (system : option monitor_system_t)
  : M (option monitor_system_t) :=
  match system with
  | None => mret None
  | Some system =>
      let system := set_voltage NOMINAL_VOLTAGE system in
      let system := set_temperature TEMP_NORMAL system in
      let system := set_current NOMINAL_CURRENT system in
      let system := set_status STATUS_NORMAL system in
      let system := set_error_count 0 system in
      let system := set_system_active true system in
      let system := set_num_registers 4 system in
      let base_addr := 1073741824 (* 0x40000000 *) in
      res ← for_loop (Z.to_nat (num_registers system)) 0
                     (init_register base_addr) system;
      mret (Some (loop_state res))
  end.

Definition cleanup_monitor_system (system : option monitor_system_t)
  : option monitor_system_t :=
  match system with
  | None => None
  | Some system => Some (set_system_active false system)
  end.

(** [print_system_state] and [debug_register_dump] only print, but they read
    [registers[i]] for every [i < num_registers]. *)
Definition read_each_register (system : monitor_system_t) : M unit :=
  _ ← for_loop (R := Empty_set) (Z.to_nat (num_registers system)) 0
               (fun i (u : unit) =>
                  _ ← array_get (registers system) i; mret (Next, u)) tt;
  mret tt.

Definition print_system_state (system : option monitor_system_t) : M unit :=
  match system with
  | None => mret tt
  | Some system => read_each_register system
  end.

Definition debug_register_dump (system : option monitor_system_t) : M unit :=
  match system with
  | None => mret tt
  | Some system => read_each_register system
  end.

Definition simulate_hardware_failure (system : option monitor_system_t)
    (error_type : error_code_t) : M (bool * option monitor_system_t) :=
  match system with
  | None => mret (false, None)
  | Some system =>
      let changed :=
        match error_type with
        | ERROR_VOLTAGE_LOW =>
            Some (set_voltage (MIN_VOLTAGE - F32.literal 1 10)%f32 system)
        | ERROR_VOLTAGE_HIGH =>
            Some (set_voltage (MAX_VOLTAGE + F32.literal 1 10)%f32 system)
        | ERROR_TEMPERATURE_HIGH =>
            Some (set_temperature (TEMP_CRITICAL + F32.literal 50 10)%f32 system)
        | ERROR_CURRENT_LOW =>
            Some (set_current (MIN_CURRENT - F32.literal 1 100)%f32 system)
        | ERROR_CURRENT_HIGH =>
            Some (set_current (MAX_CURRENT + F32.literal 1 10)%f32 system)
        | _ => None
        end in
      match changed with
      | None => mret (false, Some system)
      | Some system =>
          n ← int_result (error_count system + 1);
          mret (true, Some (set_error_count n system))
      end
  end.

Definition emergency_shutdown (system : option monitor_system_t)
  : M (option monitor_system_t) :=
  match system with
  | None => mret None
  | Some system =>
      let system := set_system_active false system in
      let system := set_status STATUS_CRITICAL system in
      _ ← for_loop (R := Empty_set) (Z.to_nat (num_registers system)) 0
                   (fun i (u : unit) =>
                      r ← array_get (registers system) i;
                      let _ := write_register (address r) 0 in
                      mret (Next, u)) tt;
      mret (Some system)
  end.

(** ** test_functions.c

    After their range checks [test_voltage_levels] and
    [test_current_consumption] compare the reading with a tolerance band
    around the nominal value; the comparison only selects the line that is
    printed and both functions return true on either side of it. *)

Definition test_voltage_levels (voltage : float) : bool :=
  if (voltage < F32.zero)%f32 || (voltage > F32.literal 100 10)%f32 then false
  else if (voltage < MIN_VOLTAGE)%f32 then false
  else if (voltage > MAX_VOLTAGE)%f32 then false
  else true.

Definition test_current_consumption (current : float) : bool :=
  if (current < F32.zero)%f32 then false
  else if (current < MIN_CURRENT)%f32 then false
  else if (current > MAX_CURRENT)%f32 then false
  else true.

Definition test_temperature_range (temperature : float) : bool :=
  if (temperature < F32.literal (-400) 10)%f32
     || (temperature > F32.literal 1500 10)%f32 then false
  else if (temperature > TEMP_CRITICAL)%f32 then false
  else if (temperature > TEMP_WARNING)%f32 then true
  else true.

Definition validate_register (address value min max : Z) : bool :=
  if value <? min then false
  else if value >? max then false
  else true.

Definition run_comprehensive_test (system : option monitor_system_t) : M Z :=
  match system with
  | None => mret 0
  | Some system =>
      let tests_passed := 0 in
      let total_tests := 0 in
      total_tests ← int_result (total_tests + 1);
      tests_passed ← (if test_voltage_levels (voltage system)
                      then int_result (tests_passed + 1) else mret tests_passed);
      total_tests ← int_result (total_tests + 1);
      tests_passed ← (if test_current_consumption (current system)
                      then int_result (tests_passed + 1) else mret tests_passed);
      total_tests ← int_result (total_tests + 1);
      tests_passed ← (if test_temperature_range (temperature system)
                      then int_result (tests_passed + 1) else mret tests_passed);
      res ← for_loop (R := Empty_set) (Z.to_nat (num_registers system)) 0
              (fun i '(tests_passed, total_tests) =>
                 total_tests ← int_result (total_tests + 1);
                 r ← array_get (registers system) i;
                 if validate_register (address r) (value r)
                                      (expected_min r) (expected_max r)
                 then tests_passed ← int_result (tests_passed + 1);
                      mret (Next, (tests_passed, total_tests))
                 else mret (Next, (tests_passed, total_tests)))
              (tests_passed, total_tests);
      let '(tests_passed, total_tests) := loop_state res in
      mret tests_passed
  end.

(** ** register_monitor.c, Task 2: loops *)

Definition scan_register (i : Z) (st : monitor_system_t * Z)
  : M (control Empty_set * (monitor_system_t * Z)) :=
  let '(system, valid_count) := st in
  r ← array_get (registers system) i;
  value ← read_register (address r);
  regs ← array_set (registers system) i (set_value value r);
  let system := set_registers regs system in
  r ← array_get (registers system) i;
  '(skip, system, valid_count) ←
    (if validate_register (address r) value (expected_min r) (expected_max r)
     then
       regs ← array_set (registers system) i (set_is_valid true r);
       valid_count ← int_result (valid_count + 1);
       mret (false, set_registers regs system, valid_count)
     else
       regs ← array_set (registers system) i (set_is_valid false r);
       let system := set_registers regs system in
       n ← int_result (error_count system + 1);
       (* continue *)
       mret (true, set_error_count n system, valid_count));
  if skip : bool then mret (Next, (system, valid_count))
  else
    r ← array_get (registers system) i;
    if (i =? 0) && negb (is_valid r)
    then mret (Break, (system, valid_count))
    else mret (Next, (system, valid_count)).

Definition scan_all_registers (system : option monitor_system_t)
  : M (Z * option monitor_system_t) :=
  match system with
  | None => mret (-1, None)
  | Some system =>
      let valid_count := 0 in
      res ← for_loop (Z.to_nat (num_registers system)) 0
                     scan_register (system, valid_count);
      let '(system, valid_count) := loop_state res in
      mret (valid_count, Some system)
  end.

Definition count_valid_registers (system : option monitor_system_t) : M Z :=
  match system with
  | None => mret 0
  | Some system =>
      let count := 0 in
      res ← for_loop (R := Empty_set) (Z.to_nat (num_registers system)) 0
              (fun i count =>
                 r ← array_get (registers system) i;
                 if is_valid r
                 then count ← int_result (count + 1); mret (Next, count)
                 else mret (Next, count))
              count;
      mret (loop_state res)
  end.

Definition update_register (i : Z) (system : monitor_system_t)
  : M (control Empty_set * monitor_system_t) :=
  r ← array_get (registers system) i;
  new_value ← read_register (address r);
  regs ← array_set (registers system) i (set_value new_value r);
  let system := set_registers regs system in
  r ← array_get (registers system) i;
  let valid := validate_register (address r) new_value
                                 (expected_min r) (expected_max r) in
  regs ← array_set (registers system) i (set_is_valid valid r);
  mret (Next, set_registers regs system).

Definition update_all_registers (system : option monitor_system_t)
  : M (option monitor_system_t) :=
  match system with
  | None => mret None
  | Some system =>
      res ← for_loop (Z.to_nat (num_registers system)) 0 update_register system;
      let system := loop_state res in
      let system :=
        set_status (determine_system_status (voltage system)
                                            (temperature system)
                                            (current system)) system in
      mret (Some system)
  end.

(** The loop variables of [continuous_monitoring_loop]. *)
Definition monitoring_step (start_time duration_seconds : Z)
    (st : monitor_system_t * Z) : M (control Empty_set * (monitor_system_t * Z)) :=
  let '(system, iteration) := st in
  current_time ← time_now;
  if current_time - start_time >=? duration_seconds
  then mret (Break, (system, iteration))
  else
    updated ← update_all_registers (Some system);
    match updated with
    | None => undefined_behaviour (* not reached: the pointer is not null *)
    | Some system =>
        if check_critical_conditions (Some system)
        then mret (Break, (system, iteration))
        else if error_count system >=? MAX_ERRORS
        then mret (Break, (system, iteration))
        else
          iteration ← int_result (iteration + 1);
          delay_ms MONITOR_INTERVAL;;
          mret (Next, (system, iteration))
    end.

(** The C loop runs until the clock, a critical condition or the error
    ceiling stops it; [fuel] bounds the iterations the model follows. *)
Definition continuous_monitoring_loop (fuel : nat)
    (system : option monitor_system_t) (duration_seconds : Z)
  : M (option monitor_system_t) :=
  match system with
  | None => mret None
  | Some system =>
      if duration_seconds <=? 0 then mret (Some system)
      else
        start_time ← time_now;
        let iteration := 0 in
        '(system, iteration) ←
          while_loop fuel (fun st => system_active (fst st))
                     (monitoring_step start_time duration_seconds)
                     (system, iteration);
        mret (Some system)
  end.

(** ** register_monitor.c, Task 5: switch-based error handling *)

Definition handle_error (error_code : error_code_t) : M unit :=
  match error_code with
  | ERROR_VOLTAGE_LOW =>
      log_error error_code "Voltage too low - checking power supply"
  | ERROR_VOLTAGE_HIGH =>
      log_error error_code "Voltage too high - reducing supply voltage"
  | ERROR_TEMPERATURE_HIGH =>
      log_error error_code "Critical temperature - activating thermal protection"
  | ERROR_CURRENT_LOW =>
      log_error error_code "Current too low - checking load connections"
  | ERROR_CURRENT_HIGH =>
      log_error error_code "Current too high - checking for short circuits"
  | ERROR_COMMUNICATION =>
      log_error error_code "Communication failure - attempting reconnection"
  | ERROR_TIMEOUT =>
      log_error error_code "Operation timeout - resetting interface"
  | ERROR_INVALID_DATA =>
      log_error error_code "Invalid data - requesting retransmission"
  | ERROR_NONE => mret tt
  | _ => log_error error_code "Unknown error code detected"
  end.

(** A [const char *] result: [None] would be the null pointer. *)
Definition get_error_message (error_code : error_code_t) : option string :=
  match error_code with
  | ERROR_NONE => Some "No error"
  | ERROR_VOLTAGE_LOW => Some "Voltage below minimum threshold"
  | ERROR_VOLTAGE_HIGH => Some "Voltage above maximum threshold"
  | ERROR_TEMPERATURE_HIGH => Some "Temperature exceeds critical threshold"
  | ERROR_CURRENT_LOW => Some "Current consumption too low"
  | ERROR_CURRENT_HIGH => Some "Current consumption too high"
  | ERROR_COMMUNICATION => Some "Communication interface failure"
  | ERROR_TIMEOUT => Some "Operation timeout"
  | ERROR_INVALID_DATA => Some "Invalid or corrupted data"
  | _ => Some "Unknown error"
  end.

Definition attempt_error_recovery (system : option monitor_system_t)
    (error_code : error_code_t) : M (bool * option monitor_system_t) :=
  match system with
  | None => mret (false, None)
  | Some system =>
      match error_code with
      | ERROR_VOLTAGE_LOW =>
          let system := set_voltage (MIN_VOLTAGE + F32.literal 1 10)%f32 system in
          if (voltage system >= MIN_VOLTAGE)%f32 then mret (true, Some system)
          else mret (false, Some system)
      | ERROR_VOLTAGE_HIGH =>
          let system := set_voltage (MAX_VOLTAGE - F32.literal 1 10)%f32 system in
          if (voltage system <= MAX_VOLTAGE)%f32 then mret (true, Some system)
          else mret (false, Some system)
      | ERROR_TEMPERATURE_HIGH =>
          let system :=
            set_temperature (TEMP_CRITICAL - F32.literal 50 10)%f32 system in
          if (temperature system <= TEMP_CRITICAL)%f32 then mret (true, Some system)
          else mret (false, Some system)
      | ERROR_CURRENT_LOW =>
          let system := set_current (MIN_CURRENT + F32.literal 5 100)%f32 system in
          if (current system >= MIN_CURRENT)%f32 then mret (true, Some system)
          else mret (false, Some system)
      | ERROR_CURRENT_HIGH =>
          let system := set_current (MAX_CURRENT - F32.literal 1 10)%f32 system in
          if (current system <= MAX_CURRENT)%f32 then mret (true, Some system)
          else mret (false, Some system)
      | ERROR_COMMUNICATION =>
          delay_ms 100;;
          mret (true, Some system)
      | ERROR_TIMEOUT =>
          delay_ms 50;;
          mret (true, Some system)
      | ERROR_INVALID_DATA =>
          system ← update_all_registers (Some system);
          mret (true, system)
      | ERROR_NONE => mret (true, Some system)
      | _ => mret (false, Some system)
      end
  end.

(** ** error_recovery.c *)

Definition set_error_log (x : list error_log_entry_t) (r : recovery_system_t)
  : recovery_system_t :=
  mk_recovery_system x (log_count r) (total_errors r) (successful_recoveries r)
                     (degraded_mode r) (degradation_level r).
Definition set_log_count (x : Z) (r : recovery_system_t) : recovery_system_t :=
  mk_recovery_system (error_log r) x (total_errors r) (successful_recoveries r)
                     (degraded_mode r) (degradation_level r).
Definition set_total_errors (x : Z) (r : recovery_system_t) : recovery_system_t :=
  mk_recovery_system (error_log r) (log_count r) x (successful_recoveries r)
                     (degraded_mode r) (degradation_level r).
Definition set_successful_recoveries (x : Z) (r : recovery_system_t)
  : recovery_system_t :=
  mk_recovery_system (error_log r) (log_count r) (total_errors r) x
                     (degraded_mode r) (degradation_level r).
Definition set_degraded_mode (x : bool) (r : recovery_system_t) : recovery_system_t :=
  mk_recovery_system (error_log r) (log_count r) (total_errors r)
                     (successful_recoveries r) x (degradation_level r).
Definition set_degradation_level (x : Z) (r : recovery_system_t) : recovery_system_t :=
  mk_recovery_system (error_log r) (log_count r) (total_errors r)
                     (successful_recoveries r) (degraded_mode r) x.

Definition get_recovery_state : M recovery_system_t :=
  fun w => Ok (recovery_state w) w.
Definition put_recovery_state (r : recovery_system_t) : M unit :=
  fun w => Ok tt (set_recovery_state r w).

(** The zero-filled entry left by [memset]. *)
Definition empty_log_entry : error_log_entry_t :=
  mk_error_log_entry 0 ERROR_NONE 0 false EmptyString.

Definition init_recovery_system (system : option monitor_system_t) : M bool :=
  match system with
  | None => mret false
  | Some _ =>
      rs ← get_recovery_state;
      let rs := set_log_count 0 rs in
      let rs := set_total_errors 0 rs in
      let rs := set_successful_recoveries 0 rs in
      let rs := set_degraded_mode false rs in
      let rs := set_degradation_level 0 rs in
      let rs := set_error_log (replicate (Z.to_nat ERROR_LOG_SIZE) empty_log_entry) rs in
      put_recovery_state rs;;
      mret true
  end.

Definition log_recovery_error (error_code : error_code_t) (description : string)
    (retry_count : Z) (recovery_successful : bool) : M unit :=
  rs ← get_recovery_state;
  let rs :=
    if log_count rs >=? ERROR_LOG_SIZE then
      (* memmove(&log[0], &log[1], ERROR_LOG_SIZE - 1 entries) *)
      let shifted := drop 1 (error_log rs)
                     ++ drop (Z.to_nat (ERROR_LOG_SIZE - 1)) (error_log rs) in
      set_log_count (ERROR_LOG_SIZE - 1) (set_error_log shifted rs)
    else rs in
  now ← time_now;
  let entry := mk_error_log_entry now error_code retry_count recovery_successful
                                  (String.substring 0 127 description) in
  log ← array_set (error_log rs) (log_count rs) entry;
  let rs := set_error_log log rs in
  n ← int_result (log_count rs + 1);
  let rs := set_log_count n rs in
  n ← int_result (total_errors rs + 1);
  let rs := set_total_errors n rs in
  rs ← (if recovery_successful
        then n ← int_result (successful_recoveries rs + 1);
             mret (set_successful_recoveries n rs)
        else mret rs);
  put_recovery_state rs.

(** [1 << attempt] on [int]. *)
Definition int_shiftl_1 (attempt : Z) : M Z :=
  if (0 <=? attempt) && (attempt <? 31) then mret (Z.shiftl 1 attempt)
  else undefined_behaviour.

(** [int delay = RETRY_DELAY_MS * (1 << attempt);] *)
Definition retry_delay (attempt : Z) : M Z :=
  shifted ← int_shiftl_1 attempt;
  int_result (RETRY_DELAY_MS * shifted).

(** One pass of the retry loop.  The pass starts by printing [attempt + 1]
    and [max_retries + 1], two [int] sums. *)
Definition retry_attempt (max_retries : Z) (attempt : Z) (system : monitor_system_t)
  : M (control bool * monitor_system_t) :=
  _ ← int_result (attempt + 1);
  _ ← int_result (max_retries + 1);
  let status := determine_system_status (voltage system) (temperature system)
                                        (current system) in
  if system_status_eqb status STATUS_CRITICAL
     || system_status_eqb status STATUS_VOLTAGE_ERROR
  then
    if attempt <? max_retries then
      delay ← retry_delay attempt;
      delay_ms delay;;
      let error := if system_status_eqb status STATUS_CRITICAL
                   then ERROR_TEMPERATURE_HIGH else ERROR_VOLTAGE_LOW in
      '(recovery_success, recovered) ← attempt_error_recovery (Some system) error;
      match recovered with
      | None => undefined_behaviour (* not reached: the pointer is not null *)
      | Some system =>
          retries ← int_result (attempt + 1);
          log_recovery_error error "Retry mechanism recovery attempt"
                             retries recovery_success;;
          mret (Next, system)
      end
    else mret (Next, system)
  else
    (if attempt >? 0
     then log_recovery_error ERROR_NONE "Operation successful after retries"
                             attempt true
     else mret tt);;
    mret (Return true, system).

(** [for (int attempt = 0; attempt <= max_retries; attempt++)] makes
    [max_retries + 1] passes unless a pass returns; where that sum does not
    fit an [int], the first pass is already undefined.  After the loop the
    function prints [max_retries + 1] once more. *)
Definition implement_retry_mechanism (system : option monitor_system_t)
    (max_retries : Z) : M (bool * option monitor_system_t) :=
  match system with
  | None => mret (false, None)
  | Some system =>
      '(system, returned) ← for_loop (Z.to_nat (max_retries + 1)) 0
                                     (retry_attempt max_retries) system;
      match returned with
      | Some r => mret (r, Some system)
      | None =>
          _ ← int_result (max_retries + 1);
          log_recovery_error ERROR_TIMEOUT "Maximum retry attempts exceeded"
                             max_retries false;;
          mret (false, Some system)
      end
  end.

(** The three penalties of the health assessment. *)
Definition voltage_penalty (system : monitor_system_t) : Z :=
  if (voltage system < MIN_VOLTAGE)%f32 || (voltage system > MAX_VOLTAGE)%f32
  then 30
  else if (voltage system < MIN_VOLTAGE * F32.literal 11 10)%f32
          || (voltage system > MAX_VOLTAGE * F32.literal 9 10)%f32
  then 15
  else 0.

Definition temperature_penalty (system : monitor_system_t) : Z :=
  if (temperature system > TEMP_CRITICAL)%f32 then 40
  else if (temperature system > TEMP_WARNING)%f32 then 20
  else 0.

Definition current_penalty (system : monitor_system_t) : Z :=
  if (current system < MIN_CURRENT)%f32 || (current system > MAX_CURRENT)%f32
  then 25 else 0.

(** "Assess system health": the first block of [graceful_degradation]. *)
Definition assess_health (system : monitor_system_t) : M Z :=
  let health_score := 100 in
  error_penalty ← int_result (error_count system * 10);
  let voltage_penalty := voltage_penalty system in
  let temperature_penalty := temperature_penalty system in
  let current_penalty := current_penalty system in
  sum ← int_result (error_penalty + voltage_penalty);
  sum ← int_result (sum + temperature_penalty);
  sum ← int_result (sum + current_penalty);
  health_score ← int_result (health_score - sum);
  let health_score := if health_score <? 0 then 0 else health_score in
  mret health_score.

(** "Determine degradation level": the second block. *)
Definition degradation_level_for (health_score : Z) : Z :=
  if health_score >=? 80 then 0
  else if health_score >=? 60 then 1
  else if health_score >=? 30 then 2
  else 3.

Definition graceful_degradation (system : option monitor_system_t) : M unit :=
  match system with
  | None => mret tt
  | Some system =>
      health_score ← assess_health system;
      let new_degradation_level := degradation_level_for health_score in
      rs ← get_recovery_state;
      if negb (new_degradation_level =? degradation_level rs) then
        let rs := set_degradation_level new_degradation_level rs in
        let rs := set_degraded_mode (new_degradation_level >? 0) rs in
        put_recovery_state rs;;
        match new_degradation_level with
        | 0 => log_recovery_error ERROR_NONE "System returned to normal operation"
                                  0 true
        | 1 => log_recovery_error ERROR_NONE "Minor degradation activated" 0 true
        | 2 => log_recovery_error ERROR_NONE "Major degradation activated" 0 true
        | 3 => log_recovery_error ERROR_NONE "Critical degradation activated" 0 true
        | _ => mret tt
        end
      else mret tt
  end.

(** ** The operations of monitor.h on one monitored system

    [run_operation op system] performs one call on the struct the caller
    owns and gives back the struct as the call leaves it; the C result of
    the call is dropped.  Functions that take no system pointer cannot
    touch the struct. *)

Inductive operation : Type :=
  | Op_validate_voltage_range (voltage : float)
  | Op_validate_temperature_range (temperature : float)
  | Op_validate_current_range (current : float)
  | Op_determine_system_status (voltage temperature current : float)
  | Op_check_critical_conditions
  | Op_scan_all_registers
  | Op_continuous_monitoring_loop (fuel : nat) (duration_seconds : Z)
  | Op_count_valid_registers
  | Op_update_all_registers
  | Op_run_comprehensive_test
  | Op_print_system_state
  | Op_debug_register_dump
  | Op_simulate_hardware_failure (error_type : error_code_t)
  | Op_handle_error (error_code : error_code_t)
  | Op_get_error_message (error_code : error_code_t)
  | Op_attempt_error_recovery (error_code : error_code_t)
  | Op_emergency_shutdown
  | Op_init_monitor_system
  | Op_cleanup_monitor_system
  | Op_implement_retry_mechanism (max_retries : Z)
  | Op_graceful_degradation.

Definition run_operation (op : operation) (system : option monitor_system_t)
  : M (option monitor_system_t) :=
  match op with
  | Op_validate_voltage_range v =>
      let _ := validate_voltage_range v in mret system
  | Op_validate_temperature_range t =>
      let _ := validate_temperature_range t in mret system
  | Op_validate_current_range c =>
      let _ := validate_current_range c in mret system
  | Op_determine_system_status v t c =>
      let _ := determine_system_status v t c in mret system
  | Op_check_critical_conditions =>
      let _ := check_critical_conditions system in mret system
  | Op_scan_all_registers =>
      '(_, system) ← scan_all_registers system; mret system
  | Op_continuous_monitoring_loop fuel duration_seconds =>
      continuous_monitoring_loop fuel system duration_seconds
  | Op_count_valid_registers =>
      _ ← count_valid_registers system; mret system
  | Op_update_all_registers => update_all_registers system
  | Op_run_comprehensive_test =>
      _ ← run_comprehensive_test system; mret system
  | Op_print_system_state => print_system_state system;; mret system
  | Op_debug_register_dump => debug_register_dump system;; mret system
  | Op_simulate_hardware_failure error_type =>
      '(_, system) ← simulate_hardware_failure system error_type; mret system
  | Op_handle_error error_code => handle_error error_code;; mret system
  | Op_get_error_message error_code =>
      let _ := get_error_message error_code in mret system
  | Op_attempt_error_recovery error_code =>
      '(_, system) ← attempt_error_recovery system error_code; mret system
  | Op_emergency_shutdown => emergency_shutdown system
  | Op_init_monitor_system => init_monitor_system system
  | Op_cleanup_monitor_system => mret (cleanup_monitor_system system)
  | Op_implement_retry_mechanism max_retries =>
      '(_, system) ← implement_retry_mechanism system max_retries; mret system
  | Op_graceful_degradation => graceful_degradation system;; mret system
  end.

Definition is_init (op : operation) : bool :=
  match op with Op_init_monitor_system => true | _ => false end.

(** ** Well-formed inputs *)

(** The register table has its [MAX_REGISTERS] slots and [num_registers]
    stays inside it; [error_count] is an [int]. *)
Definition registers_in_bounds (s : monitor_system_t) : bool :=
  (Z.of_nat (length (registers s)) =? MAX_REGISTERS)
  && (num_registers s <=? MAX_REGISTERS).

Definition wf_system (s : monitor_system_t) : bool :=
  registers_in_bounds s && in_int_range (error_count s).

(** [error_count * 10] and the score derived from it stay inside [int]. *)
Definition health_computable (s : monitor_system_t) : bool :=
  (-214748354 <=? error_count s) && (error_count s <=? 214748355).

(** The error log has its [ERROR_LOG_SIZE] slots, [log_count] is a valid
    fill level and the counters have room for one more entry. *)
Definition wf_recovery (r : recovery_system_t) : bool :=
  (Z.of_nat (length (error_log r)) =? ERROR_LOG_SIZE)
  && (0 <=? log_count r) && in_int_range (log_count r)
  && in_int_range (total_errors r) && (total_errors r <? INT_MAX)
  && in_int_range (successful_recoveries r)
  && (successful_recoveries r <? INT_MAX).

(** ** The priority rule of the status aggregator, as specified

    Highest priority first, each check short-circuiting. *)
Definition priority_rule (voltage temperature current : float) : system_status_t :=
  if (temperature > TEMP_CRITICAL)%f32 then STATUS_CRITICAL
  else if (voltage < MIN_VOLTAGE)%f32 || (voltage > MAX_VOLTAGE)%f32
       then STATUS_VOLTAGE_ERROR
  else if (current < F32.zero)%f32 then STATUS_CRITICAL
  else if (current < MIN_CURRENT)%f32 || (current > MAX_CURRENT)%f32
       then STATUS_WARNING
  else if (temperature > TEMP_WARNING)%f32 then STATUS_WARNING
  else STATUS_NORMAL.

(** ** Frame conditions *)

(** [s'] differs from [s] in the contents of the register table at most. *)
Definition registers_only (s s' : monitor_system_t) : Prop :=
  voltage s' = voltage s /\ temperature s' = temperature s /\
  current s' = current s /\ status s' = status s /\
  error_count s' = error_count s /\ system_active s' = system_active s /\
  num_registers s' = num_registers s /\
  length (registers s') = length (registers s).

(** The status the aggregator gives to the readings stored in [s]. *)
Definition derived_status (s : monitor_system_t) : system_status_t :=
  determine_system_status (voltage s) (temperature s) (current s).

(** [s'] differs from [s] in the register table and the error counter at
    most. *)
Definition registers_and_errors_only (s s' : monitor_system_t) : Prop :=
  voltage s' = voltage s /\ temperature s' = temperature s /\
  current s' = current s /\ status s' = status s /\
  system_active s' = system_active s /\
  num_registers s' = num_registers s /\
  length (registers s') = length (registers s).

(** World [w'] is world [w] after [k] calls of [read_register] and nothing
    else. *)
Definition reads (k : Z) (w w' : world) : Prop :=
  recovery_state w' = recovery_state w /\ time_source w' = time_source w /\
  time_calls w' = time_calls w /\
  wrap32 (counter w') = wrap32 (counter w + k).

(** ** Sample inputs *)

(** Zero-filled storage, as statics start out. *)
Definition zeroed_register : register_info_t :=
  mk_register_info 0 0 0 0 false EmptyString.

Definition zeroed_system : monitor_system_t :=
  mk_monitor_system F32.zero F32.zero F32.zero STATUS_NORMAL 0 false
                    (replicate (Z.to_nat MAX_REGISTERS) zeroed_register) 0.

Definition zeroed_recovery_state : recovery_system_t :=
  mk_recovery_system (replicate (Z.to_nat ERROR_LOG_SIZE) empty_log_entry)
                     0 0 0 false 0.

(** The world at program start, with a clock that starts at 0 and gains a
    second per reading. *)
Definition boot_world : world :=
  mk_world 0 zeroed_recovery_state Z.of_nat 0%nat.

(** The system as [init_monitor_system] leaves it. *)
Definition nominal_system : monitor_system_t :=
  Eval vm_compute in
    match init_monitor_system (Some zeroed_system) boot_world with
    | Ok (Some s) _ => s
    | _ => zeroed_system
    end.

(** The nominal system with the expected range of the control register
    (index 0) narrowed to [0, 0], so that every value read for it fails. *)
Definition control_failure_system : monitor_system_t :=
  set_registers
    (<[0%nat := mk_register_info 1073741824 305419896 0 0 true "CTRL_REG"]>
       (registers nominal_system))
    nominal_system.

(** The nominal system after five errors, five degrees above the warning
    threshold (the scenario of the homework's [main]). *)
Definition overheated_system : monitor_system_t :=
  set_temperature (TEMP_WARNING + F32.literal 50 10)%f32
                  (set_error_count 5 nominal_system).

(** The first four registers of a system, as (value, is_valid) pairs. *)
Definition register_snapshot (s : monitor_system_t) : list (Z * bool) :=
  (fun r => (value r, is_valid r)) <$> take 4 (registers s).

(** The operations whose model needs no fuel and no recovery log: all but
    the monitoring loop, the retry mechanism and graceful degradation. *)
Definition straight_line (op : operation) : bool :=
  match op with
  | Op_continuous_monitoring_loop _ _
  | Op_implement_retry_mechanism _
  | Op_graceful_degradation => false
  | _ => true
  end.

(** The nominal system with a stale WARNING left in the status field. *)
Definition stale_warning_system : monitor_system_t :=
  set_status STATUS_WARNING nominal_system.

(** ** error_recovery.c: the comprehensive recovery procedure *)

(** The loop variables of the retry phase: the struct, the success flag
    and the attempt counter as it stands when the loop is left. *)
Definition recovery_attempt (error_code : error_code_t) (recovery_attempts : Z)
    (st : monitor_system_t * bool * Z)
  : M (control Empty_set * (monitor_system_t * bool * Z)) :=
  let '(system, recovery_successful, _) := st in
  '(basic_recovery, recovered) ← attempt_error_recovery (Some system) error_code;
  match recovered with
  | None => undefined_behaviour (* not reached: the pointer is not null *)
  | Some system =>
      let status := determine_system_status (voltage system) (temperature system)
                                            (current system) in
      if basic_recovery
         && (system_status_eqb status STATUS_NORMAL
             || system_status_eqb status STATUS_WARNING)
      then mret (Break, (system, true, recovery_attempts))
      else
        (if recovery_attempts <? MAX_RETRY_ATTEMPTS
         then delay ← int_result (RETRY_DELAY_MS * recovery_attempts);
              delay_ms delay
         else mret tt);;
        next ← int_result (recovery_attempts + 1);
        mret (Next, (system, recovery_successful, next))
  end.

Definition comprehensive_error_recovery (system : option monitor_system_t)
    (error_code : error_code_t) : M (bool * option monitor_system_t) :=
  match system with
  | None => mret (false, None)
  | Some system =>
      let recovery_successful := false in
      (* Phase 1: immediate response *)
      system ←
        match error_code with
        | ERROR_TEMPERATURE_HIGH =>
            mret (set_temperature
                    (temperature system - F32.literal 100 10)%f32 system)
        | ERROR_VOLTAGE_LOW =>
            mret (set_voltage (MIN_VOLTAGE + F32.literal 1 10)%f32 system)
        | ERROR_VOLTAGE_HIGH =>
            mret (set_voltage (MAX_VOLTAGE - F32.literal 1 10)%f32 system)
        | ERROR_CURRENT_HIGH =>
            mret (set_current (MAX_CURRENT - F32.literal 1 10)%f32 system)
        | ERROR_COMMUNICATION => delay_ms 100;; mret system
        | _ => mret system
        end;
      (* Phase 2: retry with backoff, recovery_attempts = 1 .. 3 *)
      res ← for_loop (Z.to_nat MAX_RETRY_ATTEMPTS) 1
                     (recovery_attempt error_code)
                     (system, recovery_successful, 1);
      let '(system, recovery_successful, recovery_attempts) := loop_state res in
      (* Phase 3: graceful degradation if recovery failed *)
      recovery_successful ←
        (if negb recovery_successful
         then graceful_degradation (Some system);;
              rs ← get_recovery_state;
              if degradation_level rs <? 3 then mret true
              else mret recovery_successful
         else mret recovery_successful);
      match get_error_message error_code with
      | None => undefined_behaviour
      | Some msg =>
          let description :=
            String.substring 0 127 ("Comprehensive recovery for " +:+ msg) in
          log_recovery_error error_code description recovery_attempts
                             recovery_successful;;
          mret (recovery_successful, Some system)
      end
  end.

(** [simulate_error_scenarios] writes through its argument without a null
    check. *)
Definition simulate_error_scenarios (system : option monitor_system_t)
  : M (option monitor_system_t) :=
  match system with
  | None => undefined_behaviour
  | Some system =>
      let system :=
        set_temperature (TEMP_CRITICAL + F32.literal 50 10)%f32 system in
      '(_, system) ← comprehensive_error_recovery (Some system)
                                                  ERROR_TEMPERATURE_HIGH;
      match system with
      | None => undefined_behaviour
      | Some system =>
      let system := set_voltage (MIN_VOLTAGE - F32.literal 2 10)%f32 system in
      '(_, system) ← comprehensive_error_recovery (Some system) ERROR_VOLTAGE_LOW;
      '(_, system) ← comprehensive_error_recovery system ERROR_COMMUNICATION;
      match system with
      | None => undefined_behaviour
      | Some system =>
      let system :=
        set_temperature (TEMP_CRITICAL + F32.literal 20 10)%f32 system in
      let system := set_current (MAX_CURRENT + F32.literal 3 10)%f32 system in
      let system := set_error_count 8 system in
      '(_, system) ← comprehensive_error_recovery (Some system)
                                                  ERROR_TEMPERATURE_HIGH;
      '(_, system) ← comprehensive_error_recovery system ERROR_CURRENT_HIGH;
      mret system
      end
      end
  end.

(** ** Every function that takes the monitored struct

    The operations of monitor.h and the three functions of error_recovery.c
    that take a [monitor_system_t] pointer and that monitor.h does not
    declare. *)
Inductive system_operation : Type :=
  | Op_monitor (op : operation)
  | Op_init_recovery_system
  | Op_comprehensive_error_recovery (error_code : error_code_t)
  | Op_simulate_error_scenarios.

Definition run_system_operation (op : system_operation)
    (system : option monitor_system_t) : M (option monitor_system_t) :=
  match op with
  | Op_monitor op => run_operation op system
  | Op_init_recovery_system => _ ← init_recovery_system system; mret system
  | Op_comprehensive_error_recovery error_code =>
      '(_, system) ← comprehensive_error_recovery system error_code; mret system
  | Op_simulate_error_scenarios => simulate_error_scenarios system
  end.

(** The two functions that assign a constant to [error_count]. *)
Definition overwrites_error_count (op : system_operation) : bool :=
  match op with
  | Op_monitor Op_init_monitor_system | Op_simulate_error_scenarios => true
  | _ => false
  end.

Definition straight_line_operation (op : system_operation) : bool :=
  match op with
  | Op_monitor op => straight_line op
  | Op_init_recovery_system => true
  | _ => false
  end.

(** ** Vocabulary for the further properties *)

(** An order-preserving key for the floats other than NaN: sign class
    first, then exponent and mantissa, both negated below zero. *)
Definition float_key (a : float) : Z * Z * Z :=
  match a with
  | S754_zero _ => (0, 0, 0)
  | S754_nan => (0, 0, 0)
  | S754_infinity false => (2, 0, 0)
  | S754_infinity true => (-2, 0, 0)
  | S754_finite false m e => (1, e, Z.pos m)
  | S754_finite true m e => (-1, - e, Z.neg m)
  end.

Definition key_compare (k1 k2 : Z * Z * Z) : comparison :=
  let '(a1, b1, c1) := k1 in
  let '(a2, b2, c2) := k2 in
  match a1 ?= a2 with
  | Lt => Lt
  | Gt => Gt
  | Eq => match b1 ?= b2 with
          | Lt => Lt
          | Gt => Gt
          | Eq => c1 ?= c2
          end
  end.

(** [a < b] as arithmetic on the keys. *)
Definition key_lt (k1 k2 : Z * Z * Z) : Prop :=
  k1.1.1 < k2.1.1 \/
  (k1.1.1 = k2.1.1 /\
   (k1.1.2 < k2.1.2 \/ (k1.1.2 = k2.1.2 /\ k1.2 < k2.2))).

Definition bool_to_Z (b : bool) : Z := if b then 1 else 0.

(** How many registers of a table are flagged valid. *)
Definition count_valid (l : list register_info_t) : Z :=
  foldr (fun r acc => bool_to_Z (is_valid r) + acc) 0 l.

(** [validate_register] on the fields a register stores. *)
Definition in_expected_range (r : register_info_t) : bool :=
  validate_register (address r) (value r) (expected_min r) (expected_max r).

(** How many registers of a table store a value in their expected range. *)
Definition count_in_range (l : list register_info_t) : Z :=
  foldr (fun r acc => bool_to_Z (in_expected_range r) + acc) 0 l.

(** The [num_registers] registers that the loops visit. *)
Definition visited_registers (s : monitor_system_t) : list register_info_t :=
  take (Z.to_nat (num_registers s)) (registers s).

(** Every valid flag agrees with the stored value. *)
Definition flags_consistent (l : list register_info_t) : Prop :=
  Forall (fun r => is_valid r = in_expected_range r) l.

(** The expected range contains every value the simulated read can give:
    0x12345678 up to 0x12345678 + 0xF0. *)
Definition accepts_simulated_reads (r : register_info_t) : Prop :=
  expected_min r <= 305419896 /\ 305420136 <= expected_max r.

(** The value that the next call of [read_register] returns in world [w]. *)
Definition next_read (w : world) : Z :=
  305419896 + 16 * (wrap32 (counter w + 1) mod 16).

(** A register after the value [v] has been read into it and checked
    against its expected range. *)
Definition refreshed (v : Z) (r : register_info_t) : register_info_t :=
  set_is_valid (validate_register (address r) v (expected_min r) (expected_max r))
               (set_value v r).

(** [r'] is [r] refreshed with a value the simulated read can give. *)
Definition refreshes (r r' : register_info_t) : Prop :=
  exists v, 305419896 <= v <= 305420136 /\ r' = refreshed v r.

(** [r'] has the address, the expected range and the name of [r]. *)
Definition same_configuration (r r' : register_info_t) : Prop :=
  address r' = address r /\ expected_min r' = expected_min r /\
  expected_max r' = expected_max r /\ name r' = name r.

(** The three tests that [run_comprehensive_test] makes on the readings. *)
Definition reading_tests_passed (s : monitor_system_t) : Z :=
  bool_to_Z (test_voltage_levels (voltage s))
  + bool_to_Z (test_current_consumption (current s))
  + bool_to_Z (test_temperature_range (temperature s)).

(** The entry that [log_recovery_error] writes in world [w]. *)
Definition new_log_entry (code : error_code_t) (desc : string) (retries : Z)
    (ok : bool) (w : world) : error_log_entry_t :=
  mk_error_log_entry (time_source w (time_calls w)) code retries ok
                     (String.substring 0 127 desc).

(** The degraded flag says whether the degradation level is above 0. *)
Definition degradation_consistent (r : recovery_system_t) : Prop :=
  degraded_mode r = (degradation_level r >? 0).

(** A voltage in range with a negative current: a failure that the
    recoveries of the retry mechanism, which correct the temperature or the
    voltage, do not cure. *)
Definition persistently_critical (s : monitor_system_t) : bool :=
  (voltage s >= MIN_VOLTAGE)%f32 && (voltage s <= MAX_VOLTAGE)%f32
  && (current s < F32.zero)%f32.

(** The validator that watches the reading an error code is about. *)
Definition validator_for (code : error_code_t) (s : monitor_system_t) : bool :=
  match code with
  | ERROR_VOLTAGE_LOW | ERROR_VOLTAGE_HIGH => validate_voltage_range (voltage s)
  | ERROR_TEMPERATURE_HIGH => validate_temperature_range (temperature s)
  | ERROR_CURRENT_LOW | ERROR_CURRENT_HIGH => validate_current_range (current s)
  | _ => true
  end.

(** The five codes [simulate_hardware_failure] knows. *)
Definition simulated_error_code (code : error_code_t) : bool :=
  (ERROR_VOLTAGE_LOW <=? code) && (code <=? ERROR_CURRENT_HIGH).

(** The status check of the retry mechanism: neither CRITICAL nor
    VOLTAGE_ERROR. *)
Definition operational (s : monitor_system_t) : bool :=
  negb (system_status_eqb (derived_status s) STATUS_CRITICAL
        || system_status_eqb (derived_status s) STATUS_VOLTAGE_ERROR).

(** Operations one after the other on the same struct. *)
Fixpoint run_operations (ops : list operation) (system : option monitor_system_t)
  : M (option monitor_system_t) :=
  match ops with
  | [] => mret system
  | op :: ops => system ← run_operation op system; run_operations ops system
  end.

(** ** multi_chip_monitor.c *)

Definition MAX_CHIPS : Z := 8.
Definition CHIP_SCAN_INTERVAL : Z := 100.

Record chip_system_t : Type := mk_chip_system {
  chip_id : Z;
  is_active : bool;
  monitor : monitor_system_t;
  priority_level : Z
}.

Definition set_is_active (b : bool) (c : chip_system_t) : chip_system_t :=
  mk_chip_system (chip_id c) b (monitor c) (priority_level c).
Definition set_monitor (m : monitor_system_t) (c : chip_system_t) : chip_system_t :=
  mk_chip_system (chip_id c) (is_active c) m (priority_level c).

(** The two statics of the file: [chip_systems] and [active_chip_count]. *)
Record multi_chip_t : Type := mk_multi_chip {
  chip_systems : list chip_system_t;
  active_chip_count : Z
}.

(** [snprintf(name, sizeof(name), "CHIP%d_REG%d", chip, reg)]. *)
Definition chip_register_name (chip reg : Z) : string :=
  String.substring 0 31 ("CHIP" +:+ pretty chip +:+ "_REG" +:+ pretty reg).

Definition customise_register (chip : Z) (reg : Z) (m : monitor_system_t)
  : M (control Empty_set * monitor_system_t) :=
  r ← array_get (registers m) reg;
  offset ← int_result (chip * 4096 (* 0x1000 *));
  let r' := mk_register_info (wrap32 (address r + offset)) (value r)
                             (expected_min r) (expected_max r) (is_valid r)
                             (chip_register_name chip reg) in
  regs ← array_set (registers m) reg r';
  mret (Next, set_registers regs m).

Definition init_chip (chip : Z) (chips : list chip_system_t)
  : M (control Empty_set * list chip_system_t) :=
  c ← array_get chips chip;
  priority ← int_result (Z.rem chip 3 + 1);
  m ← init_monitor_system (Some (monitor c));
  match m with
  | None => undefined_behaviour (* not reached: the pointer is not null *)
  | Some m =>
      res ← for_loop (Z.to_nat (num_registers m)) 0 (customise_register chip) m;
      chips ← array_set chips chip
                (mk_chip_system chip true (loop_state res) priority);
      mret (Next, chips)
  end.

Definition init_multi_chip_system (num_chips : Z) (mc : multi_chip_t)
  : M (bool * multi_chip_t) :=
  if (num_chips <=? 0) || (num_chips >? MAX_CHIPS) then mret (false, mc)
  else
    res ← for_loop (Z.to_nat num_chips) 0 init_chip (chip_systems mc);
    mret (true, mk_multi_chip (loop_state res) num_chips).

(** The loop variables of [scan_all_chips_registers]: the chip array,
    [total_valid] and [total_scanned]. *)
Definition scan_chip_register (chip : Z) (reg : Z)
    (st : list chip_system_t * Z * Z)
  : M (control Z * (list chip_system_t * Z * Z)) :=
  let '(chips, total_valid, total_scanned) := st in
  total_scanned ← int_result (total_scanned + 1);
  c ← array_get chips chip;
  r ← array_get (registers (monitor c)) reg;
  value ← read_register (address r);
  let r := set_value value r in
  let valid := validate_register (address r) value
                                 (expected_min r) (expected_max r) in
  regs ← array_set (registers (monitor c)) reg (set_is_valid valid r);
  let c := set_monitor (set_registers regs (monitor c)) c in
  if valid then
    total_valid ← int_result (total_valid + 1);
    chips ← array_set chips chip c;
    mret (Next, (chips, total_valid, total_scanned))
  else
    n ← int_result (error_count (monitor c) + 1);
    let c := set_monitor (set_error_count n (monitor c)) c in
    chips ← array_set chips chip c;
    if (priority_level c =? 1) && (error_count (monitor c) >=? 3)
    then mret (Return total_valid, (chips, total_valid, total_scanned))
    else mret (Next, (chips, total_valid, total_scanned)).

Definition scan_chip (chip : Z) (st : list chip_system_t * Z * Z)
  : M (control Z * (list chip_system_t * Z * Z)) :=
  c ← array_get (fst (fst st)) chip;
  if negb (is_active c) then mret (Next, st) (* continue *)
  else
    '(st, returned) ← for_loop (Z.to_nat (num_registers (monitor c))) 0
                               (scan_chip_register chip) st;
    match returned with
    | Some total_valid => mret (Return total_valid, st)
    | None =>
        (* the summary line prints count_valid_registers of the chip *)
        c ← array_get (fst (fst st)) chip;
        _ ← count_valid_registers (Some (monitor c));
        mret (Next, st)
    end.

Definition scan_all_chips_registers (mc : multi_chip_t) : M (Z * multi_chip_t) :=
  '(st, returned) ← for_loop (Z.to_nat (active_chip_count mc)) 0 scan_chip
                             (chip_systems mc, 0, 0);
  let '(chips, total_valid, _) := st in
  let mc := mk_multi_chip chips (active_chip_count mc) in
  match returned with
  | Some r => mret (r, mc)
  | None => mret (total_valid, mc)
  end.

(** One pass of the high-priority loop of [priority_based_monitoring].  The
    loop condition [chip < active_chip_count] is evaluated before every pass
    and the body changes [active_chip_count], so the condition is part of
    the pass; the counter never grows inside the loop, so that
    [active_chip_count] passes are enough. *)
Definition high_priority_chip (chip : Z) (mc : multi_chip_t)
  : M (control Empty_set * multi_chip_t) :=
  if chip >=? active_chip_count mc then mret (Break, mc)
  else
    c ← array_get (chip_systems mc) chip;
    if negb (is_active c) || negb (priority_level c =? 1)
    then mret (Next, mc) (* continue *)
    else
      m ← update_all_registers (Some (monitor c));
      match m with
      | None => undefined_behaviour (* not reached: the pointer is not null *)
      | Some m =>
          let c := set_monitor m c in
          if check_critical_conditions (Some m) then
            chips ← array_set (chip_systems mc) chip (set_is_active false c);
            n ← int_result (active_chip_count mc - 1);
            mret (Next, mk_multi_chip chips n)
          else
            chips ← array_set (chip_systems mc) chip c;
            mret (Next, mk_multi_chip chips (active_chip_count mc))
      end.

(** One pass of the medium- or low-priority loop. *)
Definition priority_chip (level : Z) (chip : Z) (mc : multi_chip_t)
  : M (control Empty_set * multi_chip_t) :=
  c ← array_get (chip_systems mc) chip;
  if negb (is_active c) || negb (priority_level c =? level)
  then mret (Next, mc) (* continue *)
  else
    m ← update_all_registers (Some (monitor c));
    match m with
    | None => undefined_behaviour (* not reached: the pointer is not null *)
    | Some m =>
        chips ← array_set (chip_systems mc) chip (set_monitor m c);
        mret (Next, mk_multi_chip chips (active_chip_count mc))
    end.

(** The loop variables of [priority_based_monitoring]: the chip array with
    its counter, and [iteration].  The clock is read by the loop condition. *)
Definition priority_iteration (start_time duration_seconds : Z)
    (st : multi_chip_t * Z) : M (control Empty_set * (multi_chip_t * Z)) :=
  let '(mc, iteration) := st in
  now ← time_now;
  if negb (now - start_time <? duration_seconds)
  then mret (Break, (mc, iteration))
  else
    iteration ← int_result (iteration + 1);
    res ← for_loop (Z.to_nat (active_chip_count mc)) 0 high_priority_chip mc;
    let mc := loop_state res in
    mc ← (if Z.rem iteration 2 =? 0
          then res ← for_loop (Z.to_nat (active_chip_count mc)) 0
                              (priority_chip 2) mc;
               mret (loop_state res)
          else mret mc);
    mc ← (if Z.rem iteration 3 =? 0
          then res ← for_loop (Z.to_nat (active_chip_count mc)) 0
                              (priority_chip 3) mc;
               mret (loop_state res)
          else mret mc);
    if active_chip_count mc =? 0 then mret (Break, (mc, iteration))
    else
      delay_ms CHIP_SCAN_INTERVAL;;
      mret (Next, (mc, iteration)).

(** The loop runs until the clock or the last deactivation stops it;
    [fuel] bounds the iterations the model follows. *)
Definition priority_based_monitoring (fuel : nat) (duration_seconds : Z)
    (mc : multi_chip_t) : M multi_chip_t :=
  start_time ← time_now;
  '(mc, _) ← while_loop fuel (fun _ => true)
                        (priority_iteration start_time duration_seconds)
                        (mc, 0);
  mret mc.

(** *** Vocabulary for the chip array *)

(** The registers that [init_multi_chip_system] gives to chip [chip]. *)
Definition chip_register (chip reg : Z) : register_info_t :=
  mk_register_info (1073741824 + 4096 * chip + 4 * reg) (305419896 + reg)
                   268435456 536870912 true (chip_register_name chip reg).

(** Chip [chip] as [init_multi_chip_system] leaves it, when the slot held
    [c] before: only the register slots from index 4 on are kept. *)
Definition initialised_chip (chip : Z) (c : chip_system_t) : chip_system_t :=
  mk_chip_system
    chip true
    (set_registers ([chip_register chip 0; chip_register chip 1;
                     chip_register chip 2; chip_register chip 3]
                    ++ drop 4 (registers (monitor c))) nominal_system)
    (chip mod 3 + 1).

(** Every chip has its sixteen register slots. *)
Definition chips_have_tables (chips : list chip_system_t) : Prop :=
  Forall (fun c => Z.of_nat (length (registers (monitor c))) = MAX_REGISTERS) chips.

(** The chips that the loops over [active_chip_count] visit. *)
Definition visited_chips (mc : multi_chip_t) : list chip_system_t :=
  take (Z.to_nat (active_chip_count mc)) (chip_systems mc).

(** A chip whose scan finds every register valid: the table has its slots,
    the loop stays inside it and every visited register accepts what the
    simulated read gives. *)
Definition scans_clean (c : chip_system_t) : Prop :=
  Z.of_nat (length (registers (monitor c))) = MAX_REGISTERS /\
  num_registers (monitor c) <= MAX_REGISTERS /\
  Forall accepts_simulated_reads (visited_registers (monitor c)).

(** The registers that the scan of a chip visits: none on an inactive chip. *)
Definition scanned_registers (c : chip_system_t) : Z :=
  if is_active c then Z.max 0 (num_registers (monitor c)) else 0.

Definition active_registers (chips : list chip_system_t) : Z :=
  foldr (fun c acc => scanned_registers c + acc) 0 chips.

(** Chip [c'] is chip [c] with its visited registers refreshed and nothing
    else changed. *)
Definition registers_refreshed (c c' : chip_system_t) : Prop :=
  chip_id c' = chip_id c /\ is_active c' = is_active c /\
  priority_level c' = priority_level c /\
  registers_only (monitor c) (monitor c') /\
  Forall2 refreshes (visited_registers (monitor c))
                    (visited_registers (monitor c')) /\
  drop (Z.to_nat (num_registers (monitor c))) (registers (monitor c'))
  = drop (Z.to_nat (num_registers (monitor c))) (registers (monitor c)).

(** What a scan without errors does to a chip: an inactive chip is skipped. *)
Definition chip_scanned (c c' : chip_system_t) : Prop :=
  if is_active c then registers_refreshed c c' else c' = c.

(** How many chips of an array are switched off. *)
Definition inactive_chips (chips : list chip_system_t) : Z :=
  foldr (fun c acc => bool_to_Z (negb (is_active c)) + acc) 0 chips.

(** Chip [c'] is chip [c] after some monitoring: same id and priority, same
    readings, error count and table size; it may have been switched off,
    never on. *)
Definition chip_kept (c c' : chip_system_t) : Prop :=
  chip_id c' = chip_id c /\ priority_level c' = priority_level c /\
  (is_active c' = true -> is_active c = true) /\
  voltage (monitor c') = voltage (monitor c) /\
  temperature (monitor c') = temperature (monitor c) /\
  current (monitor c') = current (monitor c) /\
  error_count (monitor c') = error_count (monitor c) /\
  system_active (monitor c') = system_active (monitor c) /\
  num_registers (monitor c') = num_registers (monitor c) /\
  length (registers (monitor c')) = length (registers (monitor c)).

(** What monitoring does to the two statics: every decrement of the counter
    goes with one chip switched off, the chips keep what [chip_kept] says,
    and the chips from the counter on are not touched. *)
Definition monitored (mc mc' : multi_chip_t) : Prop :=
  active_chip_count mc' + inactive_chips (chip_systems mc')
  = active_chip_count mc + inactive_chips (chip_systems mc) /\
  active_chip_count mc' <= active_chip_count mc /\
  Forall2 chip_kept (chip_systems mc) (chip_systems mc') /\
  (forall j, (Z.to_nat (active_chip_count mc) <= j)%nat ->
             chip_systems mc' !! j = chip_systems mc !! j).

(** The chip array as the program starts: zero-filled statics. *)
Definition zeroed_chip : chip_system_t := mk_chip_system 0 false zeroed_system 0.

Definition zeroed_chips : multi_chip_t :=
  mk_multi_chip (replicate (Z.to_nat MAX_CHIPS) zeroed_chip) 0.

(** Three chips initialised out of the eight. *)
Definition three_chips : multi_chip_t :=
  mk_multi_chip ([initialised_chip 0 zeroed_chip; initialised_chip 1 zeroed_chip;
                  initialised_chip 2 zeroed_chip] ++ replicate 5 zeroed_chip) 3.

(** Two chips of priority 1 in use: the first with a negative current,
    which no update cures, the second healthy. *)
Definition faulty_chip : chip_system_t :=
  mk_chip_system 0 true (set_current (F32.literal (-1) 10) nominal_system) 1.

Definition healthy_chip : chip_system_t :=
  mk_chip_system 1 true nominal_system 1.

Definition two_chips : multi_chip_t :=
  mk_multi_chip ([faulty_chip; healthy_chip] ++ replicate 6 zeroed_chip) 2.

(** * Properties *)

(** ** The assertions of tests/test_validation.c, run on the model *)

Example suite_validate_voltage_range :
  validate_voltage_range (F32.literal 33 10) = true /\
  validate_voltage_range MIN_VOLTAGE = true /\
  validate_voltage_range MAX_VOLTAGE = true /\
  validate_voltage_range (MIN_VOLTAGE - F32.literal 1 10)%f32 = false /\
  validate_voltage_range (MAX_VOLTAGE + F32.literal 1 10)%f32 = false.
Proof. repeat apply conj; reflexivity. Qed.

Example suite_validate_temperature_range :
  validate_temperature_range (F32.literal 250 10) = true /\
  validate_temperature_range TEMP_WARNING = true /\
  validate_temperature_range TEMP_CRITICAL = true /\
  validate_temperature_range (TEMP_CRITICAL + F32.literal 10 10)%f32 = false.
Proof. repeat apply conj; reflexivity. Qed.

Example suite_validate_current_range :
  validate_current_range (F32.literal 5 10) = true /\
  validate_current_range MIN_CURRENT = true /\
  validate_current_range MAX_CURRENT = true /\
  validate_current_range (MIN_CURRENT - F32.literal 1 100)%f32 = false /\
  validate_current_range (MAX_CURRENT + F32.literal 1 10)%f32 = false /\
  validate_current_range (F32.literal (-1) 10) = false.
Proof. repeat apply conj; reflexivity. Qed.

Example suite_check_critical_conditions :
  check_critical_conditions (Some nominal_system) = false /\
  check_critical_conditions None = true /\
  check_critical_conditions (Some (set_error_count MAX_ERRORS nominal_system))
  = true.
Proof. repeat apply conj; reflexivity. Qed.

Example suite_init_monitor_system :
  init_monitor_system (Some zeroed_system) boot_world
  = Ok (Some nominal_system) boot_world /\
  num_registers nominal_system = 4 /\
  (fun r => (address r, is_valid r)) <$> take 4 (registers nominal_system)
  = [(1073741824, true); (1073741828, true); (1073741832, true);
     (1073741836, true)] /\
  system_active nominal_system = true.
Proof. repeat apply conj; reflexivity. Qed.

Example suite_scan_and_count :
  (exists s' w', scan_all_registers (Some nominal_system) boot_world
                 = Ok (4, Some s') w') /\
  count_valid_registers (Some nominal_system) boot_world = Ok 4 boot_world /\
  count_valid_registers
    (Some (set_registers
             (<[0%nat := set_is_valid false
                           (mk_register_info 1073741824 305419896 268435456
                                             536870912 true "CTRL_REG")]>
                (registers nominal_system))
             nominal_system))
    boot_world
  = Ok 3 boot_world.
Proof.
  split; [eexists _, _; vm_compute; reflexivity |]. split; reflexivity.
Qed.

Example suite_validate_register :
  validate_register 1073741824 352321536 268435456 536870912 = true /\
  validate_register 1073741824 83886080 268435456 536870912 = false /\
  validate_register 1073741824 620756992 268435456 536870912 = false /\
  validate_register 1073741824 268435456 268435456 536870912 = true /\
  validate_register 1073741824 536870912 268435456 536870912 = true.
Proof. repeat apply conj; reflexivity. Qed.

Example suite_edge_cases :
  validate_voltage_range F32.zero = false /\
  validate_voltage_range (F32.literal (-10) 10) = false /\
  validate_voltage_range (F32.literal 1000 10) = false /\
  validate_current_range (F32.literal 10000 10) = false /\
  validate_temperature_range (F32.literal (-1000) 10) = true /\
  validate_temperature_range (F32.literal 2000 10) = false /\
  validate_voltage_range (MIN_VOLTAGE + F32.literal 1 1000)%f32 = true /\
  validate_voltage_range (MAX_VOLTAGE - F32.literal 1 1000)%f32 = true.
Proof. repeat apply conj; reflexivity. Qed.

(** ** Comparison on binary32 *)

Section Comparison.

Lemma compare_defined (a b : float) :
  F32.is_nan a = false -> F32.is_nan b = false ->
  exists c, SFcompare a b = Some c.
Proof.
  destruct a as [sa|sa| |sa ma ea], b as [sb|sb| |sb mb eb];
    simpl; intros Ha Hb; try discriminate; eauto.
Qed.

Lemma compare_antisym (a b : float) :
  SFcompare b a = CompOpp <$> SFcompare a b.
Proof.
  destruct a as [sa|sa| |sa ma ea], b as [sb|sb| |sb mb eb]; simpl;
    try reflexivity;
    try (destruct sa; reflexivity); try (destruct sb; reflexivity);
    try (destruct sa, sb; reflexivity).
  destruct sa, sb; simpl; try reflexivity;
    rewrite (Z.compare_antisym ea eb);
    destruct (ea ?= eb); simpl; try reflexivity;
    rewrite (Pos.compare_cont_antisym ma mb Eq); simpl;
    try reflexivity; now rewrite CompOpp_involutive.
Qed.

Lemma gt_lt (a b : float) : F32.gt a b = F32.lt b a.
Proof.
  unfold F32.gt, F32.lt. rewrite (compare_antisym a b).
  destruct (SFcompare a b) as [[]|]; reflexivity.
Qed.

Lemma ge_le (a b : float) : F32.ge a b = F32.le b a.
Proof.
  unfold F32.ge, F32.le. rewrite (compare_antisym a b).
  destruct (SFcompare a b) as [[]|]; reflexivity.
Qed.

(** On an ordered pair [>=] is the negation of [<], and [<=] of [>]. *)
Lemma ge_not_lt (a b : float) :
  F32.is_nan a = false -> F32.is_nan b = false ->
  F32.ge a b = negb (F32.lt a b).
Proof.
  intros Ha Hb. destruct (compare_defined a b Ha Hb) as [c Hc].
  unfold F32.ge, F32.lt. rewrite Hc. now destruct c.
Qed.

Lemma le_not_gt (a b : float) :
  F32.is_nan a = false -> F32.is_nan b = false ->
  F32.le a b = negb (F32.gt a b).
Proof.
  intros Ha Hb. destruct (compare_defined a b Ha Hb) as [c Hc].
  unfold F32.le, F32.gt. rewrite Hc. now destruct c.
Qed.

(** [<=] excludes [>] and [>=] excludes [<], ordered or not. *)
Lemma le_excludes_gt (a b : float) : F32.le a b = true -> F32.gt a b = false.
Proof.
  unfold F32.le, F32.gt. now destruct (SFcompare a b) as [[]|].
Qed.

Lemma ge_excludes_lt (a b : float) : F32.ge a b = true -> F32.lt a b = false.
Proof.
  unfold F32.ge, F32.lt. now destruct (SFcompare a b) as [[]|].
Qed.

(** Every comparison with a NaN operand is false. *)
Lemma nan_unordered (b : float) :
  F32.lt S754_nan b = false /\ F32.gt S754_nan b = false /\
  F32.le S754_nan b = false /\ F32.ge S754_nan b = false.
Proof. repeat split. Qed.

End Comparison.

(** ** Threshold validators *)

(** C3.  [validate_voltage_range v] is true whenever
    [MIN_VOLTAGE <= v <= MAX_VOLTAGE], false whenever [v] is strictly below
    [MIN_VOLTAGE] or strictly above [MAX_VOLTAGE], and both boundary values
    pass. *)
Theorem validate_voltage_range_interval (v : float) :
  ((MIN_VOLTAGE <= v)%f32 = true -> (v <= MAX_VOLTAGE)%f32 = true ->
   validate_voltage_range v = true) /\
  ((v < MIN_VOLTAGE)%f32 = true \/ (v > MAX_VOLTAGE)%f32 = true ->
   validate_voltage_range v = false) /\
  validate_voltage_range MIN_VOLTAGE = true /\
  validate_voltage_range MAX_VOLTAGE = true.
Proof.
  repeat split.
  - intros Hlo Hhi. unfold validate_voltage_range.
    rewrite <- ge_le in Hlo.
    rewrite (ge_excludes_lt _ _ Hlo), (le_excludes_gt _ _ Hhi). reflexivity.
  - intros [Hlo | Hhi]; unfold validate_voltage_range.
    + now rewrite Hlo.
    + rewrite Hhi. now destruct (v < MIN_VOLTAGE)%f32.
Qed.

Lemma validate_voltage_range_interval_witness :
  ((MIN_VOLTAGE <= NOMINAL_VOLTAGE)%f32 = true /\
   (NOMINAL_VOLTAGE <= MAX_VOLTAGE)%f32 = true /\
   validate_voltage_range NOMINAL_VOLTAGE = true) /\
  ((F32.literal 25 10 < MIN_VOLTAGE)%f32 = true /\
   validate_voltage_range (F32.literal 25 10) = false).
Proof.
  split.
  - split; [reflexivity | split; [reflexivity |]].
    apply (proj1 (validate_voltage_range_interval NOMINAL_VOLTAGE)); reflexivity.
  - split; [reflexivity |].
    apply (proj1 (proj2 (validate_voltage_range_interval (F32.literal 25 10)))).
    left; reflexivity.
Defined.

(** C4.  [validate_temperature_range t] is false exactly when
    [t > TEMP_CRITICAL]; it is true for every [t <= TEMP_CRITICAL], at
    [TEMP_CRITICAL] and [TEMP_WARNING] themselves, and for every negative
    [t] down to minus infinity: there is no lower bound. *)
Theorem validate_temperature_range_upper_bound_only (t : float) :
  (validate_temperature_range t = false <-> (t > TEMP_CRITICAL)%f32 = true) /\
  ((t <= TEMP_CRITICAL)%f32 = true -> validate_temperature_range t = true) /\
  validate_temperature_range TEMP_CRITICAL = true /\
  validate_temperature_range TEMP_WARNING = true /\
  ((t < F32.zero)%f32 = true -> validate_temperature_range t = true) /\
  validate_temperature_range F32.neg_infinity = true.
Proof.
  repeat split.
  - unfold validate_temperature_range.
    destruct (t > TEMP_CRITICAL)%f32; [reflexivity |].
    destruct (t > TEMP_WARNING)%f32; discriminate.
  - intros H. unfold validate_temperature_range. now rewrite H.
  - intros H. unfold validate_temperature_range.
    rewrite (le_excludes_gt _ _ H). now destruct (t > TEMP_WARNING)%f32.
  - intros H. unfold validate_temperature_range.
    assert (Hgt : (t > TEMP_CRITICAL)%f32 = false).
    { destruct t as [s|s| |s m e]; try discriminate H;
        destruct s; try discriminate H; reflexivity. }
    rewrite Hgt. now destruct (t > TEMP_WARNING)%f32.
Qed.

Lemma validate_temperature_range_upper_bound_only_witness :
  ((F32.literal (-1000) 10 <= TEMP_CRITICAL)%f32 = true /\
   (F32.literal (-1000) 10 < F32.zero)%f32 = true /\
   validate_temperature_range (F32.literal (-1000) 10) = true) /\
  ((F32.literal 2000 10 > TEMP_CRITICAL)%f32 = true /\
   validate_temperature_range (F32.literal 2000 10) = false).
Proof.
  split.
  - split; [reflexivity | split; [reflexivity |]].
    apply (proj1 (proj2 (validate_temperature_range_upper_bound_only
                           (F32.literal (-1000) 10)))).
    reflexivity.
  - split; [reflexivity |].
    apply (proj1 (validate_temperature_range_upper_bound_only
                    (F32.literal 2000 10))).
    reflexivity.
Defined.

(** ** Status aggregator *)

(** The aggregator agrees with the priority rule on ordered inputs. *)
Lemma determine_system_status_ordered (v t c : float) :
  F32.is_nan v = false -> F32.is_nan t = false -> F32.is_nan c = false ->
  determine_system_status v t c = priority_rule v t c.
Proof.
  intros Hv Ht Hc. unfold determine_system_status, priority_rule.
  rewrite (ge_not_lt v MIN_VOLTAGE Hv eq_refl),
          (le_not_gt v MAX_VOLTAGE Hv eq_refl),
          (ge_not_lt c MIN_CURRENT Hc eq_refl),
          (le_not_gt c MAX_CURRENT Hc eq_refl),
          (ge_not_lt c F32.zero Hc eq_refl),
          (le_not_gt t TEMP_WARNING Ht eq_refl).
  destruct (t > TEMP_CRITICAL)%f32; [reflexivity |].
  destruct (v < MIN_VOLTAGE)%f32; [reflexivity |].
  destruct (v > MAX_VOLTAGE)%f32; [reflexivity |].
  destruct (c < F32.zero)%f32 eqn:Hneg.
  - now destruct (c < MIN_CURRENT)%f32, (c > MAX_CURRENT)%f32.
  - destruct (c < MIN_CURRENT)%f32; [reflexivity |].
    destruct (c > MAX_CURRENT)%f32; [reflexivity |].
    now destruct (t > TEMP_WARNING)%f32.
Qed.

(** C1 as specified fails on a NaN temperature: with voltage 3.3 and
    current 0.5 the rule ends in NORMAL, the code in its CRITICAL
    fallback. *)
Lemma determine_system_status_nan_temperature :
  priority_rule (F32.literal 33 10) S754_nan (F32.literal 5 10) = STATUS_NORMAL /\
  determine_system_status (F32.literal 33 10) S754_nan (F32.literal 5 10)
  = STATUS_CRITICAL.
Proof. split; reflexivity. Qed.

(** C1, amended.  On inputs none of which is NaN, [determine_system_status]
    returns the status of the priority rule: CRITICAL above [TEMP_CRITICAL];
    else VOLTAGE_ERROR outside [MIN_VOLTAGE, MAX_VOLTAGE]; else CRITICAL on a
    negative current and WARNING on a current below [MIN_CURRENT] or above
    [MAX_CURRENT]; else WARNING above [TEMP_WARNING]; else NORMAL.  A NaN
    input fails every comparison: unless the temperature is critical a NaN
    voltage gives VOLTAGE_ERROR, with the voltage in range a NaN current
    gives WARNING, and with voltage and current in range a NaN temperature
    ends in the CRITICAL fallback.  The four sample readings give NORMAL,
    VOLTAGE_ERROR, WARNING and CRITICAL. *)
Theorem determine_system_status_priority (v t c : float) :
  (F32.is_nan v = false -> F32.is_nan t = false -> F32.is_nan c = false ->
   determine_system_status v t c = priority_rule v t c) /\
  ((t > TEMP_CRITICAL)%f32 = false ->
   determine_system_status S754_nan t c = STATUS_VOLTAGE_ERROR) /\
  ((t > TEMP_CRITICAL)%f32 = false ->
   validate_voltage_range v = true -> F32.is_nan v = false ->
   determine_system_status v t S754_nan = STATUS_WARNING) /\
  (validate_voltage_range v = true -> F32.is_nan v = false ->
   validate_current_range c = true -> F32.is_nan c = false ->
   determine_system_status v S754_nan c = STATUS_CRITICAL) /\
  determine_system_status (F32.literal 33 10) (F32.literal 250 10)
                          (F32.literal 5 10) = STATUS_NORMAL /\
  determine_system_status (F32.literal 25 10) (F32.literal 250 10)
                          (F32.literal 5 10) = STATUS_VOLTAGE_ERROR /\
  determine_system_status (F32.literal 33 10) (F32.literal 800 10)
                          (F32.literal 5 10) = STATUS_WARNING /\
  determine_system_status (F32.literal 33 10) (F32.literal 900 10)
                          (F32.literal 5 10) = STATUS_CRITICAL.
Proof.
  split; [apply determine_system_status_ordered |].
  split; [| split; [| split; [| repeat split]]].
  - intros Ht. unfold determine_system_status. now rewrite Ht.
  - intros Ht Hv Hn. unfold determine_system_status. rewrite Ht.
    unfold validate_voltage_range in Hv.
    rewrite (ge_not_lt v MIN_VOLTAGE Hn eq_refl),
            (le_not_gt v MAX_VOLTAGE Hn eq_refl).
    destruct (v < MIN_VOLTAGE)%f32; [discriminate |].
    destruct (v > MAX_VOLTAGE)%f32; [discriminate | reflexivity].
  - intros Hv Hnv Hc Hnc. unfold determine_system_status.
    unfold validate_voltage_range in Hv. unfold validate_current_range in Hc.
    rewrite (ge_not_lt v MIN_VOLTAGE Hnv eq_refl),
            (le_not_gt v MAX_VOLTAGE Hnv eq_refl),
            (ge_not_lt c MIN_CURRENT Hnc eq_refl),
            (le_not_gt c MAX_CURRENT Hnc eq_refl),
            (ge_not_lt c F32.zero Hnc eq_refl).
    destruct (v < MIN_VOLTAGE)%f32; [discriminate |].
    destruct (v > MAX_VOLTAGE)%f32; [discriminate |].
    destruct (c < F32.zero)%f32; [discriminate |].
    destruct (c < MIN_CURRENT)%f32; [discriminate |].
    destruct (c > MAX_CURRENT)%f32; [discriminate | reflexivity].
Qed.

Lemma determine_system_status_priority_witness :
  (F32.is_nan (F32.literal 33 10) = false /\
   F32.is_nan (F32.literal 800 10) = false /\
   F32.is_nan (F32.literal (-1) 10) = false /\
   determine_system_status (F32.literal 33 10) (F32.literal 800 10)
                           (F32.literal (-1) 10)
   = priority_rule (F32.literal 33 10) (F32.literal 800 10)
                   (F32.literal (-1) 10)) /\
  ((F32.literal 800 10 > TEMP_CRITICAL)%f32 = false /\
   validate_voltage_range (F32.literal 33 10) = true /\
   validate_current_range (F32.literal 5 10) = true /\
   determine_system_status S754_nan (F32.literal 800 10) (F32.literal 5 10)
   = STATUS_VOLTAGE_ERROR /\
   determine_system_status (F32.literal 33 10) (F32.literal 800 10) S754_nan
   = STATUS_WARNING /\
   determine_system_status (F32.literal 33 10) S754_nan (F32.literal 5 10)
   = STATUS_CRITICAL).
Proof.
  pose proof (determine_system_status_priority
                (F32.literal 33 10) (F32.literal 800 10) (F32.literal (-1) 10))
    as (Hord & _).
  pose proof (determine_system_status_priority
                (F32.literal 33 10) (F32.literal 800 10) (F32.literal 5 10))
    as (_ & Hv & Hc & Ht & _).
  split.
  - do 3 (split; [reflexivity |]). apply Hord; reflexivity.
  - do 3 (split; [reflexivity |]).
    split; [apply Hv; reflexivity |].
    split; [apply Hc; reflexivity |].
    apply Ht; reflexivity.
Defined.

(** ** Null system and error messages *)

(** C5.  A NULL system is the failure outcome of every entry point that
    checks for it: critical, -1 valid registers scanned, 0 valid registers
    counted, recovery failed whatever the error code. *)
Theorem null_system_is_failure (code : error_code_t) (w : world) :
  check_critical_conditions None = true /\
  scan_all_registers None w = Ok (-1, None) w /\
  count_valid_registers None w = Ok 0 w /\
  attempt_error_recovery None code w = Ok (false, None) w.
Proof. repeat split. Qed.

Lemma named_error_code_cases (code : error_code_t) :
  named_error_code code = true ->
  code = ERROR_NONE \/ code = ERROR_VOLTAGE_LOW \/ code = ERROR_VOLTAGE_HIGH \/
  code = ERROR_TEMPERATURE_HIGH \/ code = ERROR_CURRENT_LOW \/
  code = ERROR_CURRENT_HIGH \/ code = ERROR_COMMUNICATION \/
  code = ERROR_TIMEOUT \/ code = ERROR_INVALID_DATA.
Proof. unfold named_error_code. lia. Qed.

(** Outside the nine enumerators the switch takes its default branch. *)
Lemma unnamed_error_code_cases (code : error_code_t) :
  named_error_code code = false ->
  (exists p, code = Z.neg p) \/ (exists p, code = Z.pos p /\ (8 < p)%positive).
Proof.
  unfold named_error_code. destruct code as [|p|p]; simpl; intros H.
  - discriminate.
  - right. exists p. split; [reflexivity | lia].
  - left. eauto.
Qed.

(** C6.  [get_error_message] returns, for every integer passed as an error
    code, a non-null and non-empty string that depends on the code alone (it
    is a function of the code); outside the nine enumerators the string is
    "Unknown error". *)
Theorem get_error_message_total (code : error_code_t) :
  exists msg : string,
    get_error_message code = Some msg /\
    msg <> EmptyString /\
    (0 < String.length msg)%nat /\
    (named_error_code code = false -> msg = "Unknown error"%string).
Proof.
  destruct (named_error_code code) eqn:Hnamed.
  - destruct (named_error_code_cases code Hnamed)
      as [-> | [-> | [-> | [-> | [-> | [-> | [-> | [-> | ->]]]]]]]];
      eexists; (split; [reflexivity |]);
      (split; [discriminate |]); (split; [simpl; lia | discriminate]).
  - assert (Hdefault : get_error_message code = Some "Unknown error"%string).
    { destruct (unnamed_error_code_cases code Hnamed) as [[p ->] | [p [-> Hp]]];
        [reflexivity |].
      do 4 (try (destruct p as [p|p|]; try reflexivity; try lia)). }
    eexists; split; [exact Hdefault |].
    split; [discriminate |]. split; [simpl; lia | reflexivity].
Qed.

Lemma get_error_message_total_witness :
  named_error_code 999 = false /\
  exists msg : string,
    get_error_message 999 = Some msg /\ msg = "Unknown error"%string.
Proof.
  split; [reflexivity |].
  destruct (get_error_message_total 999) as (msg & Hmsg & _ & _ & Hunknown).
  exists msg. split; [exact Hmsg | apply Hunknown; reflexivity].
Defined.

(** ** Reasoning about the monad *)

Lemma ret_Ok {A} (a a' : A) (w w' : world) :
  mret (M := M) a w = Ok a' w' -> a' = a /\ w' = w.
Proof. unfold mret, M_ret. intros H. injection H as <- <-. auto. Qed.

Section MonadInversion.

Context {A B : Type}.

Lemma bind_Ok (m : M A) (f : A -> M B) (w w' : world) (b : B) :
  (m ≫= f) w = Ok b w' ->
  exists a w1, m w = Ok a w1 /\ f a w1 = Ok b w'.
Proof.
  unfold mbind, M_bind. destruct (m w) as [a w1| |]; try discriminate. eauto.
Qed.

Lemma bind_Ok_intro (m : M A) (f : A -> M B) (w w1 : world) (a : A) :
  m w = Ok a w1 -> (m ≫= f) w = f a w1.
Proof. unfold mbind, M_bind. now intros ->. Qed.

Lemma array_get_Ok (a : list A) (i : Z) (x : A) (w w' : world) :
  array_get a i w = Ok x w' ->
  w' = w /\ 0 <= i /\ a !! Z.to_nat i = Some x.
Proof.
  unfold array_get. destruct (i <? 0) eqn:Hi; [discriminate |].
  destruct (a !! Z.to_nat i) as [y|] eqn:Hy; [| discriminate].
  intros H. apply ret_Ok in H as [-> ->]. repeat split; lia.
Qed.

Lemma array_set_Ok (a a' : list A) (i : Z) (x : A) (w w' : world) :
  array_set a i x w = Ok a' w' ->
  w' = w /\ a' = <[Z.to_nat i := x]> a /\ 0 <= i < Z.of_nat (length a).
Proof.
  unfold array_set.
  destruct ((0 <=? i) && (i <? Z.of_nat (length a))) eqn:Hi; [| discriminate].
  intros H. apply ret_Ok in H as [-> ->]. repeat split; lia.
Qed.

Lemma array_get_intro (a : list A) (i : Z) (w : world) :
  0 <= i < Z.of_nat (length a) ->
  exists x, a !! Z.to_nat i = Some x /\ array_get a i w = Ok x w.
Proof.
  intros Hi. unfold array_get.
  destruct (i <? 0) eqn:Hneg; [lia |].
  destruct (lookup_lt_is_Some_2 a (Z.to_nat i)) as [x Hx]; [lia |].
  exists x. now rewrite Hx.
Qed.

Lemma array_set_intro (a : list A) (i : Z) (x : A) (w : world) :
  0 <= i < Z.of_nat (length a) ->
  array_set a i x w = Ok (<[Z.to_nat i := x]> a) w.
Proof.
  intros Hi. unfold array_set.
  destruct ((0 <=? i) && (i <? Z.of_nat (length a))) eqn:Hb; [reflexivity | lia].
Qed.

End MonadInversion.

Lemma bind_assoc {A B C} (m : M A) (f : A -> M B) (g : B -> M C) (w : world) :
  ((m ≫= f) ≫= g) w = (m ≫= (fun a => f a ≫= g)) w.
Proof. unfold mbind, M_bind. destruct (m w); reflexivity. Qed.

Lemma ret_bind {A B} (a : A) (f : A -> M B) (w : world) :
  (mret a ≫= f) w = f a w.
Proof. reflexivity. Qed.

Lemma int_result_Ok (z r : Z) (w w' : world) :
  int_result z w = Ok r w' -> r = z /\ w' = w /\ INT_MIN <= z <= INT_MAX.
Proof.
  unfold int_result, in_int_range.
  destruct ((INT_MIN <=? z) && (z <=? INT_MAX)) eqn:Hz; [| discriminate].
  intros H. apply ret_Ok in H as [-> ->]. repeat split; lia.
Qed.

Lemma int_result_intro (z : Z) (w : world) :
  INT_MIN <= z <= INT_MAX -> int_result z w = Ok z w.
Proof.
  intros Hz. unfold int_result, in_int_range.
  destruct ((INT_MIN <=? z) && (z <=? INT_MAX)) eqn:Hb; [reflexivity | lia].
Qed.

Lemma read_register_Ok (addr v : Z) (w w' : world) :
  read_register addr w = Ok v w' ->
  w' = set_counter (wrap32 (counter w + 1)) w.
Proof. unfold read_register. cbn. intros H. now injection H as _ <-. Qed.

Lemma read_register_intro (addr : Z) (w : world) :
  exists v, read_register addr w = Ok v (set_counter (wrap32 (counter w + 1)) w).
Proof. unfold read_register. cbn. eauto. Qed.

Lemma delay_ms_Ok (ms : Z) (w w' : world) (u : unit) :
  delay_ms ms w = Ok u w' -> w' = w.
Proof.
  unfold delay_ms. intros H. apply bind_Ok in H as (z & w1 & Hz & H).
  apply int_result_Ok in Hz as (_ & -> & _). now apply ret_Ok in H as [_ ->].
Qed.

Lemma get_recovery_state_Ok (r : recovery_system_t) (w w' : world) :
  get_recovery_state w = Ok r w' -> r = recovery_state w /\ w' = w.
Proof. unfold get_recovery_state. intros H. now injection H as <- <-. Qed.

Lemma put_recovery_state_Ok (r : recovery_system_t) (u : unit) (w w' : world) :
  put_recovery_state r w = Ok u w' -> w' = set_recovery_state r w.
Proof. unfold put_recovery_state. intros H. now injection H as <-. Qed.

Lemma time_now_Ok (t : Z) (w w' : world) :
  time_now w = Ok t w' ->
  t = time_source w (time_calls w) /\ w' = set_time_calls (S (time_calls w)) w.
Proof. unfold time_now. intros H. now injection H as <- <-. Qed.

(** Destructs a monadic equation [H] into the equations of its steps, as
    far as the steps are binds and primitive actions. *)
Ltac invert_M H :=
  cbn beta iota in H;
  lazymatch type of H with
  | (_ ≫= _) _ = Ok _ _ =>
      let a := fresh "a" in
      let w := fresh "w" in
      let Hm := fresh "Hm" in
      apply bind_Ok in H as (a & w & Hm & H);
      invert_M Hm;
      repeat match type of H with
             | context [let '(_, _) := ?p in _] => is_var p; destruct p
             end;
      invert_M H
  | mret _ _ = Ok _ _ =>
      apply ret_Ok in H as [? ?]; simplify_eq
  | int_result _ _ = Ok _ _ =>
      apply int_result_Ok in H as (? & ? & ?); simplify_eq
  | array_get _ _ _ = Ok _ _ =>
      apply array_get_Ok in H as (? & ? & ?); simplify_eq
  | array_set _ _ _ _ = Ok _ _ =>
      apply array_set_Ok in H as (? & ? & ?); simplify_eq
  | read_register _ _ = Ok _ _ =>
      apply read_register_Ok in H; simplify_eq
  | delay_ms _ _ = Ok _ _ =>
      apply delay_ms_Ok in H; simplify_eq
  | get_recovery_state _ = Ok _ _ =>
      apply get_recovery_state_Ok in H as (? & ?); simplify_eq
  | put_recovery_state _ _ = Ok _ _ =>
      apply put_recovery_state_Ok in H; simplify_eq
  | time_now _ = Ok _ _ =>
      apply time_now_Ok in H as (? & ?); simplify_eq
  | undefined_behaviour _ = Ok _ _ => discriminate H
  | out_of_fuel _ = Ok _ _ => discriminate H
  | _ => idtac
  end.

(** Steps over an [int] sum that is computed first and only printed. *)
Ltac printed_sum H :=
  let x := fresh "x" in
  let w := fresh "w" in
  let Hx := fresh "Hprinted" in
  apply bind_Ok in H as (x & w & Hx & H);
  apply int_result_Ok in Hx as (-> & -> & Hx).

(** Runs the first step of a monadic computation in the goal, leaving the
    side condition that makes the step defined when it is not immediate. *)
Ltac forward_M :=
  rewrite ?bind_assoc, ?ret_bind;
  lazymatch goal with
  | |- context [(array_get ?a ?i ≫= ?f) ?w] =>
      let x := fresh "x" in
      let Hl := fresh "Hlookup" in
      let Hg := fresh "Hget" in
      destruct (array_get_intro a i w) as (x & Hl & Hg);
      [ | rewrite (bind_Ok_intro _ f _ _ _ Hg); cbn beta ]
  | |- context [(array_set ?a ?i ?x ≫= ?f) ?w] =>
      let Hb := fresh "Hbounds" in
      assert (Hb : 0 <= i < Z.of_nat (length a));
      [ try (cbn; rewrite ?length_insert; lia)
      | rewrite (bind_Ok_intro _ f _ _ _ (array_set_intro a i x w Hb));
        cbn beta; clear Hb ]
  | |- context [(int_result ?z ≫= ?f) ?w] =>
      rewrite (bind_Ok_intro _ f _ _ _ (int_result_intro z w ltac:(
                 unfold INT_MIN, INT_MAX in *; cbn; lia))); cbn beta
  | |- context [(read_register ?a ≫= ?f) ?w] =>
      let v := fresh "v" in
      let Hr := fresh "Hread" in
      destruct (read_register_intro a w) as (v & Hr);
      rewrite (bind_Ok_intro _ f _ _ _ Hr); cbn beta
  end.

(** ** Loops *)

Section Loops.

Context {St R : Type}.
Variable body : Z -> St -> M (control R * St).

(** A property of state and world kept by every pass is kept by the loop. *)
Lemma for_loop_invariant (P : St -> world -> Prop) :
  (forall i s w c s' w', P s w -> body i s w = Ok (c, s') w' -> P s' w') ->
  forall n i s w s' r w',
    P s w -> for_loop n i body s w = Ok (s', r) w' -> P s' w'.
Proof.
  intros Hbody. induction n as [|n IH]; intros i s w s' r w' HP H; simpl in H.
  - apply ret_Ok in H as [Heq ->]. now injection Heq as -> _.
  - apply bind_Ok in H as ([c s1] & w1 & Hstep & H).
    pose proof (Hbody _ _ _ _ _ _ HP Hstep) as HP1.
    destruct c as [| |r0].
    + eapply IH; eassumption.
    + apply ret_Ok in H as [Heq ->]. now injection Heq as -> _.
    + apply ret_Ok in H as [Heq ->]. now injection Heq as -> _.
Qed.

(** When no pass breaks or returns, the loop makes all its passes. *)
Lemma for_loop_all_passes (I : Z -> St -> world -> Prop) :
  (forall i s w c s' w',
      I i s w -> body i s w = Ok (c, s') w' -> c = Next /\ I (i + 1) s' w') ->
  forall n i s w s' r w',
    I i s w -> for_loop n i body s w = Ok (s', r) w' ->
    r = None /\ I (i + Z.of_nat n) s' w'.
Proof.
  intros Hbody. induction n as [|n IH]; intros i s w s' r w' HI H; simpl in H.
  - apply ret_Ok in H as [Heq ->]. injection Heq as -> ->.
    split; [reflexivity |]. now replace (i + Z.of_nat 0) with i by lia.
  - apply bind_Ok in H as ([c s1] & w1 & Hstep & H).
    destruct (Hbody _ _ _ _ _ _ HI Hstep) as [-> HI1].
    replace (i + Z.of_nat (S n)) with (i + 1 + Z.of_nat n) by lia.
    eapply IH; eassumption.
Qed.

(** If every pass below [hi] is defined, so is the loop. *)
Lemma for_loop_defined (I : Z -> St -> world -> Prop) (hi : Z) :
  (forall i s w, i < hi -> I i s w ->
                 exists c s' w', body i s w = Ok (c, s') w' /\ I (i + 1) s' w') ->
  forall n i s w,
    I i s w -> i + Z.of_nat n <= hi ->
    exists s' r w', for_loop n i body s w = Ok (s', r) w'.
Proof.
  intros Hbody. induction n as [|n IH]; intros i s w HI Hhi; simpl.
  - eexists _, _, _. reflexivity.
  - destruct (Hbody i s w) as (c & s1 & w1 & Hstep & HI1); [lia | assumption |].
    rewrite (bind_Ok_intro _ _ _ _ _ Hstep). cbn.
    destruct c as [| |r0].
    + apply IH; [assumption | lia].
    + eexists _, _, _. reflexivity.
    + eexists _, _, _. reflexivity.
Qed.

End Loops.

Lemma while_loop_invariant {St} (cond : St -> bool)
    (body : St -> M (control Empty_set * St)) (P : St -> world -> Prop) :
  (forall s w c s' w', P s w -> body s w = Ok (c, s') w' -> P s' w') ->
  forall fuel s w s' w',
    P s w -> while_loop fuel cond body s w = Ok s' w' -> P s' w'.
Proof.
  intros Hbody. induction fuel as [|fuel IH]; intros s w s' w' HP H; simpl in H.
  - destruct (cond s); [discriminate |]. now apply ret_Ok in H as [-> ->].
  - destruct (cond s); [| now apply ret_Ok in H as [-> ->]].
    apply bind_Ok in H as ([c s1] & w1 & Hstep & H).
    pose proof (Hbody _ _ _ _ _ HP Hstep) as HP1.
    destruct c as [| |r0].
    + eapply IH; eassumption.
    + now apply ret_Ok in H as [-> ->].
    + destruct r0.
Qed.

(** ** Register update *)

Lemma registers_only_refl (s : monitor_system_t) : registers_only s s.
Proof. unfold registers_only. tauto. Qed.

Lemma registers_only_trans (s1 s2 s3 : monitor_system_t) :
  registers_only s1 s2 -> registers_only s2 s3 -> registers_only s1 s3.
Proof. unfold registers_only. intuition congruence. Qed.

Lemma registers_only_set (s : monitor_system_t) (i : nat) (r : register_info_t) :
  registers_only s (set_registers (<[i := r]> (registers s)) s).
Proof. unfold registers_only. cbn. rewrite length_insert. tauto. Qed.

Lemma update_register_frame (i : Z) (s s' : monitor_system_t)
    (c : control Empty_set) (w w' : world) :
  update_register i s w = Ok (c, s') w' ->
  c = Next /\ registers_only s s' /\
  w' = set_counter (wrap32 (counter w + 1)) w.
Proof.
  unfold update_register. intros H. invert_M H.
  split; [reflexivity |]. split; [| reflexivity].
  eapply registers_only_trans; apply registers_only_set.
Qed.

Lemma update_all_registers_frame (s : monitor_system_t)
    (r : option monitor_system_t) (w w' : world) :
  update_all_registers (Some s) w = Ok r w' ->
  exists s', r = Some s' /\
    voltage s' = voltage s /\ temperature s' = temperature s /\
    current s' = current s /\ error_count s' = error_count s /\
    system_active s' = system_active s /\
    num_registers s' = num_registers s /\
    length (registers s') = length (registers s) /\
    status s' = derived_status s.
Proof.
  unfold update_all_registers. intros H.
  apply bind_Ok in H as ([s1 r1] & w1 & Hloop & H).
  apply ret_Ok in H as [-> ->].
  assert (Hframe : registers_only s s1).
  { apply (for_loop_invariant update_register (fun s1 _ => registers_only s s1))
      in Hloop; [exact Hloop | | apply registers_only_refl].
    intros i s2 w2 c s3 w3 Hs2 Hstep.
    apply update_register_frame in Hstep as (_ & Hs3 & _).
    eapply registers_only_trans; eassumption. }
  destruct Hframe as (Hv & Ht & Hc & Hst & He & Ha & Hn & Hl).
  eexists. split; [reflexivity |]. cbn.
  unfold derived_status. rewrite Hv, Ht, Hc. tauto.
Qed.

(** ** Register scan *)

Lemma registers_and_errors_only_refl (s : monitor_system_t) :
  registers_and_errors_only s s.
Proof. unfold registers_and_errors_only. tauto. Qed.

Lemma registers_and_errors_only_trans (s1 s2 s3 : monitor_system_t) :
  registers_and_errors_only s1 s2 -> registers_and_errors_only s2 s3 ->
  registers_and_errors_only s1 s3.
Proof. unfold registers_and_errors_only. intuition congruence. Qed.

(** One pass of the scan: it never leaves the loop, it reads one register,
    and it counts the register either as valid or as an error. *)
Lemma scan_register_frame (i : Z) (s s' : monitor_system_t) (n n' : Z)
    (c : control Empty_set) (w w' : world) :
  scan_register i (s, n) w = Ok (c, (s', n')) w' ->
  c = Next /\ registers_and_errors_only s s' /\
  w' = set_counter (wrap32 (counter w + 1)) w /\
  ((n' = n + 1 /\ error_count s' = error_count s) \/
   (n' = n /\ error_count s' = error_count s + 1)).
Proof.
  unfold scan_register. intros H. invert_M H.
  match goal with
  | Hif : (if ?b then _ else _) _ = Ok (_, _, _) _ |- _ =>
      destruct b; invert_M Hif
  end.
  - (* valid: the check after the if-else sees is_valid = true *)
    invert_M H.
    match goal with
    | Hget : registers (set_registers (<[?k := ?x]> ?l) _) !! ?k = Some ?y |- _ =>
        cbn in Hget;
        rewrite list_lookup_insert_eq in Hget by (rewrite length_insert; lia);
        injection Hget as <-
    end.
    cbn in H. rewrite andb_false_r in H. invert_M H.
    split; [reflexivity |]. split; [| split; [reflexivity | left; split; reflexivity]].
    unfold registers_and_errors_only. cbn. rewrite !length_insert. tauto.
  - (* invalid: continue *)
    invert_M H.
    split; [reflexivity |]. split; [| split; [reflexivity | right; split; reflexivity]].
    unfold registers_and_errors_only. cbn. rewrite !length_insert. tauto.
Qed.

Lemma reads_zero (w : world) : reads 0 w w.
Proof. unfold reads. rewrite Z.add_0_r. tauto. Qed.

Lemma reads_succ (k : Z) (w w1 : world) :
  reads k w w1 -> reads (k + 1) w (set_counter (wrap32 (counter w1 + 1)) w1).
Proof.
  unfold reads, wrap32. cbn. intros (Hr & Hs & Hc & Hk).
  repeat split; try assumption.
  rewrite Z.mod_mod by (unfold UINT32_MODULUS; lia).
  rewrite <- Z.add_mod_idemp_l by (unfold UINT32_MODULUS; lia).
  rewrite Hk. rewrite Z.add_mod_idemp_l by (unfold UINT32_MODULUS; lia).
  f_equal. lia.
Qed.

(** The scan makes all its [num_registers] passes, whatever fails: each
    register is read once and counted once, as valid or as an error. *)
Lemma scan_all_registers_frame (s : monitor_system_t) (n : Z)
    (r : option monitor_system_t) (w w' : world) :
  scan_all_registers (Some s) w = Ok (n, r) w' ->
  exists s', r = Some s' /\
    registers_and_errors_only s s' /\
    0 <= n <= Z.max 0 (num_registers s) /\
    error_count s' = error_count s + (Z.max 0 (num_registers s) - n) /\
    reads (Z.max 0 (num_registers s)) w w'.
Proof.
  unfold scan_all_registers. intros H.
  apply bind_Ok in H as ([[s1 n1] r1] & w1 & Hloop & H).
  cbn in H. apply ret_Ok in H as [Heq ->]. injection Heq as -> ->.
  pose (I := fun (i : Z) (st : monitor_system_t * Z) (w1 : world) =>
               registers_and_errors_only s (fst st) /\
               0 <= snd st /\
               snd st + (error_count (fst st) - error_count s) = i /\
               error_count s <= error_count (fst st) /\
               reads i w w1).
  apply (for_loop_all_passes scan_register I) in Hloop.
  - destruct Hloop as (_ & Hframe & Hn & Hsum & Hle & Hreads). cbn in *.
    exists s1. split; [reflexivity |]. split; [assumption |].
    replace (Z.max 0 (num_registers s))
      with (0 + Z.of_nat (Z.to_nat (num_registers s))) by lia.
    split; [lia |]. split; [lia | assumption].
  - intros i [s2 n2] w2 c [s3 n3] w3 (Hframe & Hn & Hsum & Hle & Hreads) Hstep.
    cbn in *.
    apply scan_register_frame in Hstep as (-> & Hframe3 & -> & Hcount).
    split; [reflexivity |]. unfold I; cbn.
    split; [eapply registers_and_errors_only_trans; eassumption |].
    split; [lia |]. split; [lia |]. split; [lia |].
    now apply reads_succ.
  - unfold I; cbn. split; [apply registers_and_errors_only_refl |].
    split; [lia |]. split; [lia |]. split; [lia | apply reads_zero].
Qed.

(** ** The loops are defined on a well-formed register table *)

Lemma update_register_defined (i : Z) (s : monitor_system_t) (w : world) :
  0 <= i < Z.of_nat (length (registers s)) ->
  exists s' w', update_register i s w = Ok (Next, s') w'.
Proof.
  intros Hi. unfold update_register.
  forward_M; [lia |]. forward_M. forward_M.
  forward_M; [cbn; rewrite length_insert; lia |]. forward_M.
  eexists _, _. reflexivity.
Qed.

Lemma update_all_registers_defined (s : monitor_system_t) (w : world) :
  registers_in_bounds s = true ->
  exists s' w', update_all_registers (Some s) w = Ok (Some s') w'.
Proof.
  unfold registers_in_bounds, MAX_REGISTERS. intros Hwf.
  apply andb_prop in Hwf as [Hlen Hnum].
  apply Z.eqb_eq in Hlen. apply Z.leb_le in Hnum.
  unfold update_all_registers.
  destruct (for_loop_defined update_register
              (fun i s1 _ => 0 <= i /\ registers_only s s1)
              (Z.max 0 (num_registers s))) with (n := Z.to_nat (num_registers s))
              (i := 0) (s := s) (w := w)
    as (s1 & r1 & w1 & Hloop).
  - intros i s1 w1 Hi [Hi0 Hframe].
    destruct (update_register_defined i s1 w1) as (s2 & w2 & Hstep).
    { destruct Hframe as (_ & _ & _ & _ & _ & _ & _ & Hl). lia. }
    exists Next, s2, w2. split; [exact Hstep |]. split; [lia |].
    apply update_register_frame in Hstep as (_ & Hframe2 & _).
    eapply registers_only_trans; eassumption.
  - split; [lia | apply registers_only_refl].
  - lia.
  - rewrite (bind_Ok_intro _ _ _ _ _ Hloop). cbn. eexists _, _. reflexivity.
Qed.

Lemma scan_register_defined (i : Z) (s : monitor_system_t) (n : Z) (w : world) :
  0 <= i < Z.of_nat (length (registers s)) ->
  INT_MIN <= n < INT_MAX ->
  INT_MIN <= error_count s < INT_MAX ->
  exists st' w', scan_register i (s, n) w = Ok (Next, st') w'.
Proof.
  intros Hi Hn He. unfold scan_register.
  forward_M; [lia |]. forward_M. forward_M.
  forward_M; [cbn; rewrite length_insert; lia |].
  destruct (validate_register _ _ _ _).
  - forward_M. forward_M.
    forward_M; [cbn; rewrite !length_insert; lia |].
    cbn in Hlookup1.
    rewrite list_lookup_insert_eq in Hlookup1 by (rewrite length_insert; lia).
    injection Hlookup1 as <-. cbn. rewrite andb_false_r.
    eexists _, _. reflexivity.
  - forward_M. forward_M.
    eexists _, _. reflexivity.
Qed.

Lemma scan_all_registers_defined (s : monitor_system_t) (w : world) :
  wf_system s = true ->
  error_count s + Z.max 0 (num_registers s) <= INT_MAX ->
  exists n s' w', scan_all_registers (Some s) w = Ok (n, Some s') w'.
Proof.
  unfold wf_system, registers_in_bounds, in_int_range, MAX_REGISTERS.
  intros Hwf Hroom.
  assert (Hlen : Z.of_nat (length (registers s)) = 16) by lia.
  assert (Hnum : num_registers s <= 16) by lia.
  assert (Hec : INT_MIN <= error_count s <= INT_MAX) by lia.
  clear Hwf. unfold scan_all_registers.
  destruct (for_loop_defined scan_register
              (fun i st _ =>
                 0 <= i /\ registers_and_errors_only s (fst st) /\
                 0 <= snd st <= i /\
                 error_count s <= error_count (fst st) <= error_count s + i)
              (Z.max 0 (num_registers s))) with (n := Z.to_nat (num_registers s))
              (i := 0) (s := (s, 0)) (w := w)
    as ([s1 n1] & r1 & w1 & Hloop).
  - intros i [s1 n1] w1 Hi (Hi0 & Hframe & Hn1 & He1). cbn in *.
    destruct (scan_register_defined i s1 n1 w1) as ([s2 n2] & w2 & Hstep).
    { destruct Hframe as (_ & _ & _ & _ & _ & _ & Hl). lia. }
    { unfold INT_MIN, INT_MAX in *. lia. }
    { unfold INT_MIN, INT_MAX in *. lia. }
    exists Next, (s2, n2), w2. split; [exact Hstep |].
    apply scan_register_frame in Hstep as (_ & Hframe2 & _ & Hcount). cbn.
    split; [lia |].
    split; [eapply registers_and_errors_only_trans; eassumption |]. lia.
  - cbn. split; [lia |]. split; [apply registers_and_errors_only_refl | lia].
  - lia.
  - rewrite (bind_Ok_intro _ _ _ _ _ Hloop). cbn. eexists _, _, _. reflexivity.
Qed.

(** ** One-shot recovery *)

Section RecoveryChecks.

(** The corrected value passes the bound check that follows it. *)
Lemma voltage_low_check :
  (MIN_VOLTAGE + F32.literal 1 10 >= MIN_VOLTAGE)%f32 = true.
Proof. vm_compute. reflexivity. Qed.

Lemma voltage_high_check :
  (MAX_VOLTAGE - F32.literal 1 10 <= MAX_VOLTAGE)%f32 = true.
Proof. vm_compute. reflexivity. Qed.

Lemma temperature_high_check :
  (TEMP_CRITICAL - F32.literal 50 10 <= TEMP_CRITICAL)%f32 = true.
Proof. vm_compute. reflexivity. Qed.

Lemma current_low_check :
  (MIN_CURRENT + F32.literal 5 100 >= MIN_CURRENT)%f32 = true.
Proof. vm_compute. reflexivity. Qed.

Lemma current_high_check :
  (MAX_CURRENT - F32.literal 1 10 <= MAX_CURRENT)%f32 = true.
Proof. vm_compute. reflexivity. Qed.

End RecoveryChecks.

Lemma attempt_error_recovery_unnamed (s : monitor_system_t)
    (code : error_code_t) (w : world) :
  named_error_code code = false ->
  attempt_error_recovery (Some s) code w = Ok (false, Some s) w.
Proof.
  intros Hnamed.
  destruct (unnamed_error_code_cases code Hnamed) as [[p ->] | [p [-> Hp]]];
    [reflexivity |].
  do 4 (try (destruct p as [p|p|]; try reflexivity; try lia)).
Qed.

(** On a named code a call that returns, returns true. *)
Lemma attempt_error_recovery_named_true (s : monitor_system_t)
    (code : error_code_t) (w w' : world) (r : bool)
    (s' : option monitor_system_t) :
  named_error_code code = true ->
  attempt_error_recovery (Some s) code w = Ok (r, s') w' -> r = true.
Proof.
  intros Hnamed H.
  destruct (named_error_code_cases code Hnamed)
    as [-> | [-> | [-> | [-> | [-> | [-> | [-> | [-> | ->]]]]]]]];
    unfold attempt_error_recovery in H; cbn [voltage temperature current
      set_voltage set_temperature set_current] in H;
    rewrite ?voltage_low_check, ?voltage_high_check, ?temperature_high_check,
            ?current_low_check, ?current_high_check in H;
    invert_M H; reflexivity.
Qed.

Lemma attempt_error_recovery_named_defined (s : monitor_system_t)
    (code : error_code_t) (w : world) :
  named_error_code code = true ->
  code <> ERROR_INVALID_DATA \/ registers_in_bounds s = true ->
  exists s' w', attempt_error_recovery (Some s) code w = Ok (true, Some s') w'.
Proof.
  intros Hnamed Hwf.
  destruct (named_error_code_cases code Hnamed)
    as [-> | [-> | [-> | [-> | [-> | [-> | [-> | [-> | ->]]]]]]]];
    unfold attempt_error_recovery; cbn [voltage temperature current
      set_voltage set_temperature set_current];
    rewrite ?voltage_low_check, ?voltage_high_check, ?temperature_high_check,
            ?current_low_check, ?current_high_check;
    try (eexists _, _; reflexivity).
  destruct Hwf as [Hne | Hwf]; [congruence |].
  destruct (update_all_registers_defined s w Hwf) as (s' & w' & Hupd).
  rewrite (bind_Ok_intro _ _ _ _ _ Hupd). eexists _, _. reflexivity.
Qed.

(** What a call on a named code leaves: the corrected reading, which
    passes the bound check that follows the assignment and the validator of
    that quantity; the refreshed struct on [ERROR_INVALID_DATA]; the struct
    as it was on the other three codes. *)
Lemma attempt_error_recovery_named_effect (s : monitor_system_t)
    (code : error_code_t) (w w' : world) (r : bool)
    (s' : option monitor_system_t) :
  named_error_code code = true ->
  attempt_error_recovery (Some s) code w = Ok (r, s') w' ->
  exists s1, s' = Some s1 /\
    match code with
    | ERROR_VOLTAGE_LOW =>
        s1 = set_voltage (MIN_VOLTAGE + F32.literal 1 10)%f32 s /\ w' = w /\
        (voltage s1 >= MIN_VOLTAGE)%f32 = true /\
        validate_voltage_range (voltage s1) = true
    | ERROR_VOLTAGE_HIGH =>
        s1 = set_voltage (MAX_VOLTAGE - F32.literal 1 10)%f32 s /\ w' = w /\
        (voltage s1 <= MAX_VOLTAGE)%f32 = true /\
        validate_voltage_range (voltage s1) = true
    | ERROR_TEMPERATURE_HIGH =>
        s1 = set_temperature (TEMP_CRITICAL - F32.literal 50 10)%f32 s /\
        w' = w /\
        (temperature s1 <= TEMP_CRITICAL)%f32 = true /\
        validate_temperature_range (temperature s1) = true
    | ERROR_CURRENT_LOW =>
        s1 = set_current (MIN_CURRENT + F32.literal 5 100)%f32 s /\ w' = w /\
        (current s1 >= MIN_CURRENT)%f32 = true /\
        validate_current_range (current s1) = true
    | ERROR_CURRENT_HIGH =>
        s1 = set_current (MAX_CURRENT - F32.literal 1 10)%f32 s /\ w' = w /\
        (current s1 <= MAX_CURRENT)%f32 = true /\
        validate_current_range (current s1) = true
    | ERROR_INVALID_DATA =>
        update_all_registers (Some s) w = Ok (Some s1) w'
    | _ => s1 = s /\ w' = w
    end.
Proof.
  intros Hnamed H.
  destruct (named_error_code_cases code Hnamed)
    as [-> | [-> | [-> | [-> | [-> | [-> | [-> | [-> | ->]]]]]]]];
    unfold attempt_error_recovery in H; cbn [voltage temperature current
      set_voltage set_temperature set_current] in H;
    rewrite ?voltage_low_check, ?voltage_high_check, ?temperature_high_check,
            ?current_low_check, ?current_high_check in H;
    try (invert_M H; eexists; split; [reflexivity |];
         cbn [voltage temperature current set_voltage set_temperature
              set_current];
         repeat apply conj; try reflexivity;
         first [ apply voltage_low_check | apply voltage_high_check
               | apply temperature_high_check | apply current_low_check
               | apply current_high_check ]).
  apply bind_Ok in H as (r1 & w1 & Hupd & H).
  apply ret_Ok in H as [Heq ->]. injection Heq as -> ->.
  pose proof (update_all_registers_frame _ _ _ _ Hupd) as (s1 & -> & _).
  exists s1. split; [reflexivity | exact Hupd].
Qed.

(** C10.  On a non-null system and any of the nine named codes
    [attempt_error_recovery] returns true.  On the five codes with a
    corrective assignment the struct it leaves is the struct with the
    corrected reading ([MIN_VOLTAGE + 0.1], [MAX_VOLTAGE - 0.1],
    [TEMP_CRITICAL - 5.0], [MIN_CURRENT + 0.05], [MAX_CURRENT - 0.1]) and
    nothing else changed, and that reading passes the bound check that
    follows the assignment, and the validator of the quantity as well; on
    [ERROR_INVALID_DATA] it is the result of [update_all_registers]; on
    [ERROR_COMMUNICATION], [ERROR_TIMEOUT] and [ERROR_NONE] it is the struct
    as it was.  The call is defined for every system on eight of the codes,
    and on [ERROR_INVALID_DATA] whenever the register table is in bounds.
    The result is false only outside the nine codes, where the default
    branch leaves the system as it is, and on a null pointer. *)
Theorem attempt_error_recovery_succeeds_on_named_codes
    (s : monitor_system_t) (code : error_code_t) (w : world) :
  (named_error_code code = true ->
   (forall r s' w',
       attempt_error_recovery (Some s) code w = Ok (r, s') w' ->
       r = true /\
       exists s1, s' = Some s1 /\
         match code with
         | ERROR_VOLTAGE_LOW =>
             s1 = set_voltage (MIN_VOLTAGE + F32.literal 1 10)%f32 s /\
             w' = w /\
             (voltage s1 >= MIN_VOLTAGE)%f32 = true /\
             validate_voltage_range (voltage s1) = true
         | ERROR_VOLTAGE_HIGH =>
             s1 = set_voltage (MAX_VOLTAGE - F32.literal 1 10)%f32 s /\
             w' = w /\
             (voltage s1 <= MAX_VOLTAGE)%f32 = true /\
             validate_voltage_range (voltage s1) = true
         | ERROR_TEMPERATURE_HIGH =>
             s1 = set_temperature (TEMP_CRITICAL - F32.literal 50 10)%f32 s /\
             w' = w /\
             (temperature s1 <= TEMP_CRITICAL)%f32 = true /\
             validate_temperature_range (temperature s1) = true
         | ERROR_CURRENT_LOW =>
             s1 = set_current (MIN_CURRENT + F32.literal 5 100)%f32 s /\
             w' = w /\
             (current s1 >= MIN_CURRENT)%f32 = true /\
             validate_current_range (current s1) = true
         | ERROR_CURRENT_HIGH =>
             s1 = set_current (MAX_CURRENT - F32.literal 1 10)%f32 s /\
             w' = w /\
             (current s1 <= MAX_CURRENT)%f32 = true /\
             validate_current_range (current s1) = true
         | ERROR_INVALID_DATA =>
             update_all_registers (Some s) w = Ok (Some s1) w'
         | _ => s1 = s /\ w' = w
         end) /\
   (code <> ERROR_INVALID_DATA \/ registers_in_bounds s = true ->
    exists s' w',
      attempt_error_recovery (Some s) code w = Ok (true, Some s') w')) /\
  (named_error_code code = false ->
   attempt_error_recovery (Some s) code w = Ok (false, Some s) w) /\
  attempt_error_recovery None code w = Ok (false, None) w.
Proof.
  split; [| split].
  - intros Hnamed. split.
    + intros r s' w' H. split.
      * eapply attempt_error_recovery_named_true; eassumption.
      * eapply attempt_error_recovery_named_effect; eassumption.
    + now apply attempt_error_recovery_named_defined.
  - apply attempt_error_recovery_unnamed.
  - reflexivity.
Qed.

Lemma attempt_error_recovery_succeeds_on_named_codes_witness :
  (named_error_code ERROR_VOLTAGE_LOW = true /\
   validate_voltage_range
     (voltage (set_voltage (F32.literal 25 10) nominal_system)) = false /\
   exists s' w',
     attempt_error_recovery
       (Some (set_voltage (F32.literal 25 10) nominal_system))
       ERROR_VOLTAGE_LOW boot_world = Ok (true, Some s') w' /\
     voltage s' = (MIN_VOLTAGE + F32.literal 1 10)%f32 /\
     validate_voltage_range (voltage s') = true) /\
  (named_error_code ERROR_INVALID_DATA = true /\
   registers_in_bounds nominal_system = true /\
   exists s' w',
     attempt_error_recovery (Some nominal_system) ERROR_INVALID_DATA boot_world
     = Ok (true, Some s') w') /\
  (named_error_code 999 = false /\
   attempt_error_recovery (Some nominal_system) 999 boot_world
   = Ok (false, Some nominal_system) boot_world).
Proof.
  split; [| split].
  - split; [reflexivity |]. split; [reflexivity |].
    destruct (attempt_error_recovery_succeeds_on_named_codes
                (set_voltage (F32.literal 25 10) nominal_system)
                ERROR_VOLTAGE_LOW boot_world)
      as (Hnamed & _ & _).
    destruct (Hnamed eq_refl) as [Heffect Hdefined].
    destruct Hdefined as (s' & w' & Hrun); [left; discriminate |].
    exists s', w'. split; [exact Hrun |].
    destruct (Heffect _ _ _ Hrun) as (_ & s1 & Heq & -> & _ & _ & Hvalid).
    injection Heq as ->. split; [reflexivity | exact Hvalid].
  - split; [reflexivity |]. split; [reflexivity |].
    destruct (attempt_error_recovery_succeeds_on_named_codes
                nominal_system ERROR_INVALID_DATA boot_world)
      as (Hnamed & _ & _).
    destruct (Hnamed eq_refl) as [_ Hdefined].
    apply Hdefined. right. reflexivity.
  - split; [reflexivity |].
    destruct (attempt_error_recovery_succeeds_on_named_codes
                nominal_system 999 boot_world)
      as (_ & Hunnamed & _).
    apply Hunnamed. reflexivity.
Defined.

(** ** Graceful degradation *)

Lemma penalties_bounded (s : monitor_system_t) :
  0 <= voltage_penalty s <= 30 /\ 0 <= temperature_penalty s <= 40 /\
  0 <= current_penalty s <= 25.
Proof.
  unfold voltage_penalty, temperature_penalty, current_penalty.
  repeat match goal with |- context [if ?b then _ else _] => destruct b end; lia.
Qed.

Lemma assess_health_Ok (s : monitor_system_t) (h : Z) (w w' : world) :
  assess_health s w = Ok h w' ->
  w' = w /\
  h = Z.max 0 (100 - 10 * error_count s - voltage_penalty s
               - temperature_penalty s - current_penalty s).
Proof.
  unfold assess_health. intros H. invert_M H.
  split; [reflexivity |].
  match goal with |- (if ?x <? 0 then _ else _) = _ => destruct (Z.ltb_spec x 0) end;
    lia.
Qed.

Lemma assess_health_defined (s : monitor_system_t) (w : world) :
  health_computable s = true ->
  exists h, assess_health s w = Ok h w.
Proof.
  unfold health_computable. intros Hec.
  pose proof (penalties_bounded s) as (Hv & Ht & Hc).
  unfold assess_health.
  forward_M. forward_M. forward_M. forward_M. forward_M.
  eexists. reflexivity.
Qed.

(** An entry written to the log leaves the degradation level, the degraded
    flag and the register read counter alone. *)
Lemma log_recovery_error_Ok (code : error_code_t) (desc : string) (retries : Z)
    (ok : bool) (w w' : world) (u : unit) :
  log_recovery_error code desc retries ok w = Ok u w' ->
  degradation_level (recovery_state w') = degradation_level (recovery_state w) /\
  degraded_mode (recovery_state w') = degraded_mode (recovery_state w) /\
  counter w' = counter w.
Proof.
  unfold log_recovery_error. intros H.
  apply bind_Ok in H as (rs & w1 & Hget & H).
  apply get_recovery_state_Ok in Hget as [-> ->].
  match type of H with
  | context [time_now ≫= ?f] =>
      match f with
      | context [array_set (error_log ?x)] =>
          set (rs1 := x) in H;
          assert (Hrs1 : degradation_level rs1
                         = degradation_level (recovery_state w) /\
                         degraded_mode rs1 = degraded_mode (recovery_state w))
            by (subst rs1;
                destruct (log_count (recovery_state w) >=? ERROR_LOG_SIZE);
                cbn; tauto);
          clearbody rs1
      end
  end.
  destruct Hrs1 as [Hlevel Hmode].
  destruct ok; invert_M H; cbn; tauto.
Qed.

Lemma log_recovery_error_defined (code : error_code_t) (desc : string)
    (retries : Z) (ok : bool) (w : world) :
  wf_recovery (recovery_state w) = true ->
  exists w', log_recovery_error code desc retries ok w = Ok tt w'.
Proof.
  unfold wf_recovery, in_int_range, ERROR_LOG_SIZE. intros Hwf.
  assert (Hlen : Z.of_nat (length (error_log (recovery_state w))) = 100) by lia.
  assert (Hlc : 0 <= log_count (recovery_state w) <= INT_MAX) by lia.
  assert (Hte : INT_MIN <= total_errors (recovery_state w) < INT_MAX) by lia.
  assert (Hsr : INT_MIN <= successful_recoveries (recovery_state w) < INT_MAX)
    by lia.
  clear Hwf.
  unfold log_recovery_error, get_recovery_state, put_recovery_state, time_now.
  unfold mbind at 1, M_bind at 1. cbn beta iota.
  unfold mbind at 1, M_bind at 1. cbn beta iota.
  destruct (Z.geb_spec (log_count (recovery_state w)) ERROR_LOG_SIZE)
    as [Hfull | Hroom]; unfold ERROR_LOG_SIZE in *;
    cbn [error_log log_count set_log_count set_error_log].
  - forward_M; [rewrite length_app, !length_drop; lia |].
    cbn [error_log log_count total_errors successful_recoveries
         set_log_count set_error_log set_total_errors].
    forward_M. forward_M.
    destruct ok.
    + forward_M. eexists. reflexivity.
    + rewrite ret_bind. eexists. reflexivity.
  - forward_M.
    cbn [error_log log_count total_errors successful_recoveries
         set_log_count set_error_log set_total_errors].
    forward_M. forward_M.
    destruct ok.
    + forward_M. eexists. reflexivity.
    + rewrite ret_bind. eexists. reflexivity.
Qed.

Lemma degradation_level_for_thresholds (h : Z) :
  degradation_level_for h
  = if 80 <=? h then 0 else if 60 <=? h then 1 else if 30 <=? h then 2 else 3.
Proof. unfold degradation_level_for. now rewrite !Z.geb_leb. Qed.

Lemma graceful_degradation_Ok (s : monitor_system_t) (w w' : world) (u : unit) :
  graceful_degradation (Some s) w = Ok u w' ->
  exists h,
    assess_health s w = Ok h w /\
    degradation_level (recovery_state w') = degradation_level_for h /\
    counter w' = counter w /\
    (degradation_level (recovery_state w) = degradation_level_for h -> w' = w).
Proof.
  unfold graceful_degradation. intros H.
  apply bind_Ok in H as (h & w1 & Hh & H).
  pose proof (assess_health_Ok _ _ _ _ Hh) as [-> _].
  exists h. split; [exact Hh |].
  apply bind_Ok in H as (rs & w1 & Hget & H).
  apply get_recovery_state_Ok in Hget as [-> ->].
  destruct (Z.eqb_spec (degradation_level_for h)
                       (degradation_level (recovery_state w))) as [Heq | Hne];
    cbn [negb] in H.
  - apply ret_Ok in H as [_ ->]. auto.
  - apply bind_Ok in H as (u1 & w1 & Hput & H).
    apply put_recovery_state_Ok in Hput as ->.
    assert (Hlog : exists desc,
               log_recovery_error ERROR_NONE desc 0 true
                 (set_recovery_state
                    (set_degraded_mode (degradation_level_for h >? 0)
                       (set_degradation_level (degradation_level_for h)
                          (recovery_state w))) w) = Ok u w').
    { revert H. unfold degradation_level_for.
      destruct (h >=? 80); [eauto |].
      destruct (h >=? 60); [eauto |].
      destruct (h >=? 30); eauto. }
    destruct Hlog as (desc & Hlog).
    apply log_recovery_error_Ok in Hlog as (Hlevel & _ & Hcounter).
    cbn in Hlevel, Hcounter.
    split; [exact Hlevel |]. split; [exact Hcounter |].
    intros Hsame. congruence.
Qed.

Lemma graceful_degradation_defined (s : monitor_system_t) (w : world) :
  health_computable s = true -> wf_recovery (recovery_state w) = true ->
  exists w', graceful_degradation (Some s) w = Ok tt w'.
Proof.
  intros Hs Hw. unfold graceful_degradation.
  destruct (assess_health_defined s w Hs) as (h & Hh).
  rewrite (bind_Ok_intro _ _ _ _ _ Hh). cbn beta.
  unfold get_recovery_state at 1, mbind at 1, M_bind at 1. cbn beta iota.
  destruct (negb (degradation_level_for h =? degradation_level (recovery_state w))).
  - unfold put_recovery_state at 1, mbind at 1, M_bind at 1. cbn beta iota.
    unfold degradation_level_for.
    destruct (h >=? 80); [| destruct (h >=? 60); [| destruct (h >=? 30)]];
      apply log_recovery_error_defined; exact Hw.
  - eexists. reflexivity.
Qed.

(** C7.  On a non-null system [graceful_degradation] computes the health
    score [max 0 (100 - 10 * error_count - voltage_penalty -
    temperature_penalty - current_penalty)] and leaves the stored
    degradation level at 0 for a score of at least 80, 1 for a score in
    [60, 80), 2 for a score in [30, 60) and 3 below; when that level is the
    stored one already, nothing is written at all.  The call is defined
    whenever the score fits an [int] and the recovery log is well formed. *)
Theorem graceful_degradation_level (s : monitor_system_t) (w : world) :
  let score := Z.max 0 (100 - 10 * error_count s - voltage_penalty s
                        - temperature_penalty s - current_penalty s) in
  let level := if 80 <=? score then 0
               else if 60 <=? score then 1
               else if 30 <=? score then 2
               else 3 in
  (forall w',
      graceful_degradation (Some s) w = Ok tt w' ->
      assess_health s w = Ok score w /\
      degradation_level (recovery_state w') = level /\
      (degradation_level (recovery_state w) = level ->
       recovery_state w' = recovery_state w /\ w' = w)) /\
  (health_computable s = true -> wf_recovery (recovery_state w) = true ->
   exists w', graceful_degradation (Some s) w = Ok tt w').
Proof.
  intros score level. split.
  - intros w' H.
    apply graceful_degradation_Ok in H as (h & Hh & Hlevel & _ & Hnoop).
    pose proof (assess_health_Ok _ _ _ _ Hh) as [_ Hscore].
    fold score in Hscore. subst h.
    rewrite degradation_level_for_thresholds in Hlevel, Hnoop. fold level in Hlevel, Hnoop.
    split; [exact Hh |]. split; [exact Hlevel |].
    intros Hsame. specialize (Hnoop Hsame). subst w'. auto.
  - apply graceful_degradation_defined.
Qed.

Lemma graceful_degradation_level_witness :
  (health_computable overheated_system = true /\
   wf_recovery (recovery_state boot_world) = true /\
   exists w',
     graceful_degradation (Some overheated_system) boot_world = Ok tt w' /\
     degradation_level (recovery_state w') = 3) /\
  (graceful_degradation (Some nominal_system) boot_world = Ok tt boot_world /\
   degradation_level (recovery_state boot_world) = 0 /\
   recovery_state boot_world = recovery_state boot_world).
Proof.
  split.
  - split; [reflexivity |]. split; [reflexivity |].
    destruct (graceful_degradation_level overheated_system boot_world)
      as [Hpartial Hdefined].
    destruct (Hdefined eq_refl eq_refl) as (w' & Hw').
    exists w'. split; [exact Hw' |].
    destruct (Hpartial w' Hw') as (_ & Hlevel & _). exact Hlevel.
  - split; [reflexivity |]. split; [reflexivity |].
    destruct (graceful_degradation_level nominal_system boot_world)
      as [Hpartial _].
    destruct (Hpartial boot_world eq_refl) as (_ & _ & Hnoop).
    apply Hnoop. reflexivity.
Defined.

(** ** The scan does not stop at a failed control register *)

(** C2 (the code departs from the claim).  The claim has the scan abort as
    soon as register 0 fails.  In the code the failing branch ends in
    [continue], so the check for a failed control register that follows the
    if-else is reached only with [is_valid] true and never breaks.  On the
    nominal system whose control register accepts only the value 0, register
    0 fails and the scan still reads and validates registers 1 to 3: four
    reads in all, one error, three valid registers returned. *)
Theorem scan_continues_after_control_register_failure :
  register_snapshot control_failure_system
  = [(305419896, true); (305419897, true); (305419898, true); (305419899, true)] /\
  exists s' w',
    scan_all_registers (Some control_failure_system) boot_world
    = Ok (3, Some s') w' /\
    register_snapshot s'
    = [(305419912, false); (305419928, true); (305419944, true);
       (305419960, true)] /\
    counter boot_world = 0 /\ counter w' = 4 /\
    error_count control_failure_system = 0 /\ error_count s' = 1.
Proof.
  split; [reflexivity |].
  eexists _, _. split; [vm_compute; reflexivity |].
  repeat apply conj; reflexivity.
Qed.

(** ** What each operation does to [error_count] and [status] *)

Lemma attempt_error_recovery_frame (s : monitor_system_t) (code : error_code_t)
    (b : bool) (r : option monitor_system_t) (w w' : world) :
  attempt_error_recovery (Some s) code w = Ok (b, r) w' ->
  exists s', r = Some s' /\
    error_count s' = error_count s /\
    system_active s' = system_active s /\
    (if code =? ERROR_INVALID_DATA then status s' = derived_status s
     else status s' = status s).
Proof.
  intros H.
  destruct (named_error_code code) eqn:Hnamed.
  - destruct (named_error_code_cases code Hnamed)
      as [-> | [-> | [-> | [-> | [-> | [-> | [-> | [-> | ->]]]]]]]];
      unfold attempt_error_recovery in H; cbn [voltage temperature current
        set_voltage set_temperature set_current] in H;
      rewrite ?voltage_low_check, ?voltage_high_check, ?temperature_high_check,
              ?current_low_check, ?current_high_check in H;
      try (invert_M H; eexists; split; [reflexivity |]; cbn; tauto).
    apply bind_Ok in H as (r1 & w1 & Hupd & H).
    apply ret_Ok in H as [Heq ->]. injection Heq as -> ->.
    apply update_all_registers_frame in Hupd
      as (s' & -> & _ & _ & _ & He & Ha & _ & _ & Hst).
    exists s'. cbn. tauto.
  - rewrite (attempt_error_recovery_unnamed s code w Hnamed) in H.
    injection H as <- <- <-. exists s. split; [reflexivity |].
    destruct (Z.eqb_spec code ERROR_INVALID_DATA) as [-> | _];
      [discriminate Hnamed | tauto].
Qed.

Lemma simulate_hardware_failure_frame (s : monitor_system_t)
    (error_type : error_code_t) (b : bool) (r : option monitor_system_t)
    (w w' : world) :
  simulate_hardware_failure (Some s) error_type w = Ok (b, r) w' ->
  exists s', r = Some s' /\ status s' = status s /\
    ((b = false /\ error_count s' = error_count s) \/
     (b = true /\ error_count s' = error_count s + 1)).
Proof.
  unfold simulate_hardware_failure. intros H.
  destruct error_type as [|p|p];
    [| do 3 (try destruct p as [p|p|]) |];
    cbn in H; invert_M H;
    eexists; (split; [reflexivity |]); cbn; auto.
Qed.

Lemma emergency_shutdown_frame (s : monitor_system_t)
    (r : option monitor_system_t) (w w' : world) :
  emergency_shutdown (Some s) w = Ok r w' ->
  exists s', r = Some s' /\ status s' = STATUS_CRITICAL /\
    error_count s' = error_count s /\ system_active s' = false.
Proof.
  unfold emergency_shutdown. intros H.
  apply bind_Ok in H as (x & w1 & _ & H).
  apply ret_Ok in H as [-> _]. eexists. split; [reflexivity |]. cbn. tauto.
Qed.

Lemma init_monitor_system_frame (s : monitor_system_t)
    (r : option monitor_system_t) (w w' : world) :
  init_monitor_system (Some s) w = Ok r w' ->
  exists s', r = Some s' /\ status s' = STATUS_NORMAL /\ error_count s' = 0.
Proof.
  unfold init_monitor_system. intros H.
  apply bind_Ok in H as ([s1 r1] & w1 & Hloop & H).
  apply ret_Ok in H as [-> _]. exists s1. split; [reflexivity |].
  apply (for_loop_invariant _
           (fun s1 _ => status s1 = STATUS_NORMAL /\ error_count s1 = 0))
    in Hloop; [exact Hloop | | cbn; tauto].
  intros i s2 w2 c s3 w3 [Hst He] Hstep.
  unfold init_register in Hstep. invert_M Hstep. cbn. tauto.
Qed.

Lemma monitoring_step_frame (start_time duration_seconds : Z)
    (s0 s s' : monitor_system_t) (n n' : Z) (c : control Empty_set)
    (w w' : world) :
  (error_count s = error_count s0 /\ derived_status s = derived_status s0 /\
   (status s = status s0 \/ status s = derived_status s0)) ->
  monitoring_step start_time duration_seconds (s, n) w = Ok (c, (s', n')) w' ->
  error_count s' = error_count s0 /\ derived_status s' = derived_status s0 /\
  (status s' = status s0 \/ status s' = derived_status s0).
Proof.
  intros (He & Hd & Hst) H. unfold monitoring_step in H.
  apply bind_Ok in H as (t & w1 & _ & H).
  destruct (t - start_time >=? duration_seconds).
  - apply ret_Ok in H as [Heq _]. injection Heq as _ <- _. tauto.
  - apply bind_Ok in H as (upd & w2 & Hupd & H).
    apply update_all_registers_frame in Hupd
      as (s2 & -> & Hv & Ht & Hc & He2 & _ & _ & _ & Hst2).
    assert (Hd2 : derived_status s2 = derived_status s)
      by (unfold derived_status; now rewrite Hv, Ht, Hc).
    assert (Hkept : error_count s2 = error_count s0 /\
                    derived_status s2 = derived_status s0 /\
                    (status s2 = status s0 \/ status s2 = derived_status s0))
      by (split; [congruence | split; [congruence | right; congruence]]).
    destruct (check_critical_conditions (Some s2)).
    { apply ret_Ok in H as [Heq _]. now injection Heq as _ <- _. }
    destruct (error_count s2 >=? MAX_ERRORS).
    { apply ret_Ok in H as [Heq _]. now injection Heq as _ <- _. }
    invert_M H. exact Hkept.
Qed.

Lemma continuous_monitoring_loop_frame (fuel : nat) (s : monitor_system_t)
    (duration_seconds : Z) (r : option monitor_system_t) (w w' : world) :
  continuous_monitoring_loop fuel (Some s) duration_seconds w = Ok r w' ->
  exists s', r = Some s' /\ error_count s' = error_count s /\
             (status s' = status s \/ status s' = derived_status s).
Proof.
  unfold continuous_monitoring_loop. intros H.
  destruct (duration_seconds <=? 0).
  { apply ret_Ok in H as [-> _]. exists s. tauto. }
  apply bind_Ok in H as (start_time & w1 & _ & H).
  apply bind_Ok in H as ([s1 n1] & w2 & Hloop & H).
  apply ret_Ok in H as [-> _]. exists s1. split; [reflexivity |].
  apply (while_loop_invariant _ _
           (fun st _ => error_count (fst st) = error_count s /\
                        derived_status (fst st) = derived_status s /\
                        (status (fst st) = status s \/
                         status (fst st) = derived_status s)))
    in Hloop; [cbn in Hloop; tauto | | cbn; tauto].
  intros [s2 n2] w3 c [s3 n3] w4 Hkept Hstep. cbn in *.
  eapply monitoring_step_frame; eassumption.
Qed.

Lemma retry_attempt_frame (max_retries attempt : Z) (s s' : monitor_system_t)
    (c : control bool) (w w' : world) :
  retry_attempt max_retries attempt s w = Ok (c, s') w' ->
  error_count s' = error_count s /\ status s' = status s.
Proof.
  unfold retry_attempt. intros H. do 2 printed_sum H.
  destruct (_ || _).
  - destruct (attempt <? max_retries); [| invert_M H; tauto].
    apply bind_Ok in H as (x2 & w2 & _ & H).
    apply bind_Ok in H as (x3 & w3 & _ & H).
    apply bind_Ok in H as ([ok rec] & w4 & Hrec & H).
    apply attempt_error_recovery_frame in Hrec as (s1 & -> & He & _ & Hst).
    assert (Hst' : status s1 = status s)
      by (destruct (system_status_eqb _ _); exact Hst).
    apply bind_Ok in H as (x5 & w5 & _ & H).
    apply bind_Ok in H as (x6 & w6 & _ & H).
    apply ret_Ok in H as [Heq _]. injection Heq as _ <-. tauto.
  - apply bind_Ok in H as (x1 & w1 & _ & H).
    apply ret_Ok in H as [Heq _]. injection Heq as _ <-. tauto.
Qed.

Lemma implement_retry_mechanism_frame (s : monitor_system_t) (max_retries : Z)
    (b : bool) (r : option monitor_system_t) (w w' : world) :
  implement_retry_mechanism (Some s) max_retries w = Ok (b, r) w' ->
  exists s', r = Some s' /\ error_count s' = error_count s /\
             status s' = status s.
Proof.
  unfold implement_retry_mechanism. intros H.
  apply bind_Ok in H as ([s1 r1] & w1 & Hloop & H).
  apply (for_loop_invariant _
           (fun s1 _ => error_count s1 = error_count s /\ status s1 = status s))
    in Hloop; [| | tauto].
  - destruct r1 as [b1|].
    + apply ret_Ok in H as [Heq _]. injection Heq as _ ->. eauto.
    + printed_sum H. apply bind_Ok in H as (x & w2 & _ & H).
      apply ret_Ok in H as [Heq _]. injection Heq as _ ->. eauto.
  - intros i s2 w2 c s3 w3 [He Hst] Hstep.
    apply retry_attempt_frame in Hstep as [He3 Hst3]. split; congruence.
Qed.

(** An operation that only inspects the system hands it back untouched. *)
Lemma inspect_then_return {A} (m : M A) (s : option monitor_system_t)
    (r : option monitor_system_t) (w w' : world) :
  (m ≫= fun _ => mret s) w = Ok r w' -> r = s.
Proof.
  intros H. apply bind_Ok in H as (x & w1 & _ & H). now apply ret_Ok in H as [-> _].
Qed.

(** The effect of every operation on [error_count] and on [status]. *)
Lemma run_operation_frame (op : operation) (s : monitor_system_t)
    (r : option monitor_system_t) (w w' : world) :
  run_operation op (Some s) w = Ok r w' ->
  exists s', r = Some s' /\
    match op with
    | Op_init_monitor_system =>
        error_count s' = 0 /\ status s' = STATUS_NORMAL
    | Op_scan_all_registers =>
        error_count s <= error_count s'
                      <= error_count s + Z.max 0 (num_registers s) /\
        status s' = status s
    | Op_simulate_hardware_failure _ =>
        (error_count s' = error_count s \/ error_count s' = error_count s + 1) /\
        status s' = status s
    | Op_update_all_registers =>
        error_count s' = error_count s /\ status s' = derived_status s
    | Op_emergency_shutdown =>
        error_count s' = error_count s /\ status s' = STATUS_CRITICAL
    | Op_attempt_error_recovery code =>
        error_count s' = error_count s /\
        (if code =? ERROR_INVALID_DATA then status s' = derived_status s
         else status s' = status s)
    | Op_continuous_monitoring_loop _ _ =>
        error_count s' = error_count s /\
        (status s' = status s \/ status s' = derived_status s)
    | _ => error_count s' = error_count s /\ status s' = status s
    end.
Proof.
  intros H. destruct op; cbn [run_operation] in H;
    try (apply ret_Ok in H as [-> _];
         eexists; split; [reflexivity | cbn; tauto]);
    try (apply inspect_then_return in H as ->; exists s; tauto).
  - (* scan_all_registers *)
    apply bind_Ok in H as ([n r1] & w1 & Hscan & H).
    apply ret_Ok in H as [-> _].
    apply scan_all_registers_frame in Hscan
      as (s' & -> & Hframe & Hn & He & _).
    destruct Hframe as (_ & _ & _ & Hst & _).
    exists s'. split; [reflexivity |]. split; [lia | exact Hst].
  - (* continuous_monitoring_loop *)
    apply continuous_monitoring_loop_frame in H as (s' & -> & He & Hst). eauto.
  - (* update_all_registers *)
    apply update_all_registers_frame in H
      as (s' & -> & _ & _ & _ & He & _ & _ & _ & Hst). eauto.
  - (* simulate_hardware_failure *)
    apply bind_Ok in H as ([b r1] & w1 & Hsim & H).
    apply ret_Ok in H as [-> _].
    apply simulate_hardware_failure_frame in Hsim as (s' & -> & Hst & He).
    exists s'. split; [reflexivity |]. split; [tauto | exact Hst].
  - (* attempt_error_recovery *)
    apply bind_Ok in H as ([b r1] & w1 & Hrec & H).
    apply ret_Ok in H as [-> _].
    apply attempt_error_recovery_frame in Hrec as (s' & -> & He & _ & Hst). eauto.
  - (* emergency_shutdown *)
    apply emergency_shutdown_frame in H as (s' & -> & Hst & He & _). eauto.
  - (* init_monitor_system *)
    apply init_monitor_system_frame in H as (s' & -> & Hst & He). eauto.
  - (* implement_retry_mechanism *)
    apply bind_Ok in H as ([b r1] & w1 & Hretry & H).
    apply ret_Ok in H as [-> _].
    apply implement_retry_mechanism_frame in Hretry as (s' & -> & He & Hst). eauto.
Qed.

(** ** The straight-line operations are defined on well-formed systems *)

Lemma registers_in_bounds_inv (s : monitor_system_t) :
  registers_in_bounds s = true ->
  Z.of_nat (length (registers s)) = 16 /\ num_registers s <= 16.
Proof. unfold registers_in_bounds, MAX_REGISTERS. lia. Qed.

Lemma read_each_register_defined (s : monitor_system_t) (w : world) :
  registers_in_bounds s = true -> read_each_register s w = Ok tt w.
Proof.
  intros Hwf. apply registers_in_bounds_inv in Hwf as [Hlen Hnum].
  unfold read_each_register.
  destruct (for_loop_defined (R := Empty_set)
              (fun i (u : unit) =>
                 _ ← array_get (registers s) i; mret (Next, u))
              (fun i _ w1 => 0 <= i /\ w1 = w)
              (Z.max 0 (num_registers s))) with (n := Z.to_nat (num_registers s))
              (i := 0) (s := tt) (w := w)
    as (u & r1 & w1 & Hloop).
  - intros i u w1 Hi [Hi0 ->]. forward_M; [lia |].
    eexists _, _, _. split; [reflexivity |]. split; [lia | reflexivity].
  - split; [lia | reflexivity].
  - lia.
  - rewrite (bind_Ok_intro _ _ _ _ _ Hloop). cbn.
    apply (for_loop_invariant _ (fun _ w1 => w1 = w)) in Hloop;
      [now subst | | reflexivity].
    intros i u1 w2 c u2 w3 -> Hstep. now invert_M Hstep.
Qed.

Lemma count_valid_registers_defined (s : monitor_system_t) (w : world) :
  registers_in_bounds s = true ->
  exists n w', count_valid_registers (Some s) w = Ok n w'.
Proof.
  intros Hwf. apply registers_in_bounds_inv in Hwf as [Hlen Hnum].
  unfold count_valid_registers.
  match goal with
  | |- context [for_loop ?cnt ?start ?body ?st0] =>
      destruct (for_loop_defined body
                  (fun i count _ => 0 <= i /\ 0 <= count <= i)
                  (Z.max 0 (num_registers s))) with (n := cnt) (i := start)
                  (s := st0) (w := w)
        as (c1 & r1 & w1 & Hloop)
  end.
  - intros i count w1 Hi [Hi0 Hcount]. forward_M; [lia |].
    destruct (is_valid x).
    + forward_M. eexists _, _, _. split; [reflexivity | lia].
    + eexists _, _, _. split; [reflexivity | lia].
  - lia.
  - lia.
  - rewrite (bind_Ok_intro _ _ _ _ _ Hloop). eexists _, _. reflexivity.
Qed.

Lemma run_comprehensive_test_defined (s : monitor_system_t) (w : world) :
  registers_in_bounds s = true ->
  exists n w', run_comprehensive_test (Some s) w = Ok n w'.
Proof.
  intros Hwf. apply registers_in_bounds_inv in Hwf as [Hlen Hnum].
  unfold run_comprehensive_test.
  forward_M.
  assert (Hstep : forall (b : bool) (k : Z) (w0 : world), 0 <= k <= 3 ->
             exists k', 0 <= k' <= k + 1 /\
               (if b then int_result (k + 1) else mret k) w0 = Ok k' w0).
  { intros b k w0 Hk. destruct b.
    - exists (k + 1). split; [lia |]. apply int_result_intro.
      unfold INT_MIN, INT_MAX. lia.
    - exists k. split; [lia | reflexivity]. }
  destruct (Hstep (test_voltage_levels (voltage s)) 0 w) as (k1 & Hk1 & E1); [lia |].
  rewrite (bind_Ok_intro _ _ _ _ _ E1). cbn beta. forward_M.
  destruct (Hstep (test_current_consumption (current s)) k1 w)
    as (k2 & Hk2 & E2); [lia |].
  rewrite (bind_Ok_intro _ _ _ _ _ E2). cbn beta. forward_M.
  destruct (Hstep (test_temperature_range (temperature s)) k2 w)
    as (k3 & Hk3 & E3); [lia |].
  rewrite (bind_Ok_intro _ _ _ _ _ E3). cbn beta.
  match goal with
  | |- context [for_loop ?cnt ?start ?body ?st0] =>
      destruct (for_loop_defined body
                  (fun i st _ => 0 <= i /\ 0 <= fst st <= 3 + i /\ snd st = 3 + i)
                  (Z.max 0 (num_registers s))) with (n := cnt) (i := start)
                  (s := st0) (w := w)
        as ([tp tt1] & r1 & w1 & Hloop)
  end.
  - intros i [tp tt1] w1 Hi (Hi0 & Htp & Htt). cbn in Htp, Htt. subst tt1.
    forward_M. forward_M; [lia |].
    destruct (validate_register _ _ _ _).
    + forward_M. eexists _, _, _. split; [reflexivity |]. cbn. lia.
    + eexists _, _, _. split; [reflexivity |]. cbn. lia.
  - cbn. lia.
  - lia.
  - rewrite (bind_Ok_intro _ _ _ _ _ Hloop). eexists _, _. reflexivity.
Qed.

Lemma simulate_hardware_failure_defined (s : monitor_system_t)
    (error_type : error_code_t) (w : world) :
  INT_MIN <= error_count s < INT_MAX ->
  exists b s', simulate_hardware_failure (Some s) error_type w = Ok (b, Some s') w.
Proof.
  intros He. unfold simulate_hardware_failure.
  destruct error_type as [|p|p];
    [| do 3 (try destruct p as [p|p|]) |];
    cbn [set_voltage set_temperature set_current error_count];
    try (eexists _, _; reflexivity);
    rewrite (bind_Ok_intro _ _ _ _ _
               (int_result_intro (error_count s + 1) w
                  ltac:(unfold INT_MIN, INT_MAX in *; lia)));
    eexists _, _; reflexivity.
Qed.

Lemma emergency_shutdown_defined (s : monitor_system_t) (w : world) :
  registers_in_bounds s = true ->
  exists s' w', emergency_shutdown (Some s) w = Ok (Some s') w'.
Proof.
  intros Hwf. apply registers_in_bounds_inv in Hwf as [Hlen Hnum].
  unfold emergency_shutdown.
  match goal with
  | |- context [for_loop ?cnt ?start ?body ?st0] =>
      destruct (for_loop_defined body (fun i _ _ => 0 <= i)
                  (Z.max 0 (num_registers s))) with (n := cnt) (i := start)
                  (s := st0) (w := w)
        as (u & r1 & w1 & Hloop)
  end.
  - intros i u w1 Hi Hi0. forward_M; [cbn in *; lia |].
    eexists _, _, _. split; [reflexivity | lia].
  - lia.
  - cbn. lia.
  - rewrite (bind_Ok_intro _ _ _ _ _ Hloop). eexists _, _. reflexivity.
Qed.

Lemma init_monitor_system_defined (s : monitor_system_t) (w : world) :
  registers_in_bounds s = true ->
  exists s' w', init_monitor_system (Some s) w = Ok (Some s') w'.
Proof.
  intros Hwf. apply registers_in_bounds_inv in Hwf as [Hlen Hnum].
  unfold init_monitor_system.
  match goal with
  | |- context [for_loop ?cnt ?start ?body ?st0] =>
      destruct (for_loop_defined body
                  (fun i s1 _ => 0 <= i /\ length (registers s1) = length (registers s))
                  4) with (n := cnt) (i := start) (s := st0) (w := w)
        as (s1 & r1 & w1 & Hloop)
  end.
  - intros i s1 w1 Hi [Hi0 Hl]. unfold init_register.
    forward_M; [cbn; lia |]. forward_M; try lia.
    eexists _, _, _. split; [reflexivity |]. cbn. rewrite length_insert. lia.
  - cbn. lia.
  - cbn. lia.
  - rewrite (bind_Ok_intro _ _ _ _ _ Hloop). eexists _, _. reflexivity.
Qed.

Lemma handle_error_defined (code : error_code_t) (w : world) :
  exists w', handle_error code w = Ok tt w'.
Proof.
  unfold handle_error, log_error.
  destruct code as [|p|p];
    [| do 4 (try destruct p as [p|p|]) |];
    eexists; reflexivity.
Qed.

Lemma run_operation_defined (op : operation) (s : monitor_system_t) (w : world) :
  straight_line op = true ->
  wf_system s = true ->
  error_count s + Z.max 1 (num_registers s) <= INT_MAX ->
  exists s' w', run_operation op (Some s) w = Ok (Some s') w'.
Proof.
  intros Hop Hwf Hroom.
  pose proof Hwf as Hwf'. unfold wf_system in Hwf'.
  apply andb_prop in Hwf' as [Hbounds Hint].
  assert (Hec : INT_MIN <= error_count s < INT_MAX)
    by (unfold in_int_range in Hint; lia).
  destruct op; try discriminate Hop; cbn [run_operation];
    try (eexists _, _; reflexivity).
  - destruct (scan_all_registers_defined s w Hwf) as (n & s' & w' & E); [lia |].
    rewrite (bind_Ok_intro _ _ _ _ _ E). eexists _, _. reflexivity.
  - destruct (count_valid_registers_defined s w Hbounds) as (n & w' & E).
    rewrite (bind_Ok_intro _ _ _ _ _ E). eexists _, _. reflexivity.
  - apply update_all_registers_defined, Hbounds.
  - destruct (run_comprehensive_test_defined s w Hbounds) as (n & w' & E).
    rewrite (bind_Ok_intro _ _ _ _ _ E). eexists _, _. reflexivity.
  - cbn [print_system_state].
    rewrite (bind_Ok_intro _ _ _ _ _ (read_each_register_defined s w Hbounds)).
    eexists _, _. reflexivity.
  - cbn [debug_register_dump].
    rewrite (bind_Ok_intro _ _ _ _ _ (read_each_register_defined s w Hbounds)).
    eexists _, _. reflexivity.
  - match goal with
    | |- context [simulate_hardware_failure _ ?code] =>
        destruct (simulate_hardware_failure_defined s code w Hec) as (b & s' & E)
    end.
    rewrite (bind_Ok_intro _ _ _ _ _ E). eexists _, _. reflexivity.
  - match goal with
    | |- context [handle_error ?code] =>
        destruct (handle_error_defined code w) as (w' & E)
    end.
    rewrite (bind_Ok_intro _ _ _ _ _ E). eexists _, _. reflexivity.
  - match goal with
    | |- context [attempt_error_recovery _ ?code] =>
        destruct (named_error_code code) eqn:Hnamed;
        [ destruct (attempt_error_recovery_named_defined s code w Hnamed)
            as (s' & w' & E); [right; exact Hbounds |]
        | pose proof (attempt_error_recovery_unnamed s code w Hnamed) as E ]
    end;
      rewrite (bind_Ok_intro _ _ _ _ _ E); eexists _, _; reflexivity.
  - apply emergency_shutdown_defined, Hbounds.
  - apply init_monitor_system_defined, Hbounds.
Qed.

(** ** The functions of error_recovery.c on [error_count] and [status] *)

(** The first pass of a loop that makes at least one. *)
Lemma for_loop_first_pass {St R} (body : Z -> St -> M (control R * St))
    (n : nat) (i : Z) (s s' : St) (r : option R) (w w' : world) :
  for_loop (S n) i body s w = Ok (s', r) w' ->
  exists c s1 w1, body i s w = Ok (c, s1) w1 /\
    match c with
    | Next => for_loop n (i + 1) body s1 w1 = Ok (s', r) w'
    | Break => s' = s1 /\ r = None /\ w' = w1
    | Return x => s' = s1 /\ r = Some x /\ w' = w1
    end.
Proof.
  simpl. intros H. apply bind_Ok in H as ([c s1] & w1 & Hstep & H).
  exists c, s1, w1. split; [exact Hstep |].
  destruct c as [| |x]; [exact H | |];
    apply ret_Ok in H as [Heq ->]; injection Heq as -> ->; auto.
Qed.

Lemma recovery_attempt_frame (code : error_code_t) (i : Z)
    (s s' : monitor_system_t) (ok ok' : bool) (n n' : Z)
    (c : control Empty_set) (w w' : world) :
  recovery_attempt code i (s, ok, n) w = Ok (c, (s', ok', n')) w' ->
  error_count s' = error_count s /\
  (if code =? ERROR_INVALID_DATA
   then status s' = derived_status s /\ derived_status s' = derived_status s
   else status s' = status s).
Proof.
  unfold recovery_attempt. intros H.
  apply bind_Ok in H as ([basic rec] & w1 & Hrec & H).
  assert (Hkept : exists s1, rec = Some s1 /\
            error_count s1 = error_count s /\
            (if code =? ERROR_INVALID_DATA
             then status s1 = derived_status s /\
                  derived_status s1 = derived_status s
             else status s1 = status s)).
  { destruct (Z.eqb_spec code ERROR_INVALID_DATA) as [-> | Hne].
    - unfold attempt_error_recovery in Hrec.
      apply bind_Ok in Hrec as (r1 & w2 & Hupd & Hrec).
      apply ret_Ok in Hrec as [Heq _]. injection Heq as _ <-.
      apply update_all_registers_frame in Hupd
        as (s1 & -> & Hv & Ht & Hc & He & _ & _ & _ & Hst).
      exists s1. split; [reflexivity |]. split; [exact He |].
      split; [exact Hst |]. unfold derived_status. now rewrite Hv, Ht, Hc.
    - apply attempt_error_recovery_frame in Hrec as (s1 & -> & He & _ & Hst).
      exists s1. split; [reflexivity |]. split; [exact He |].
      destruct (Z.eqb_spec code ERROR_INVALID_DATA); [contradiction | exact Hst]. }
  destruct Hkept as (s1 & -> & He & Hst).
  destruct (basic && _).
  - apply ret_Ok in H as [Heq _]. injection Heq as _ <- _ _. auto.
  - apply bind_Ok in H as (u & w2 & _ & H).
    apply bind_Ok in H as (next & w3 & _ & H).
    apply ret_Ok in H as [Heq _]. injection Heq as _ <- _ _. auto.
Qed.

(** [comprehensive_error_recovery] leaves [error_count] alone; it writes
    [status] on [ERROR_INVALID_DATA] only, through the [update_all_registers]
    of its first recovery attempt. *)
Lemma comprehensive_error_recovery_frame (s : monitor_system_t)
    (code : error_code_t) (b : bool) (r : option monitor_system_t)
    (w w' : world) :
  comprehensive_error_recovery (Some s) code w = Ok (b, r) w' ->
  exists s', r = Some s' /\ error_count s' = error_count s /\
    (if code =? ERROR_INVALID_DATA then status s' = derived_status s
     else status s' = status s).
Proof.
  unfold comprehensive_error_recovery. intros H.
  apply bind_Ok in H as (s0 & w0 & Hphase1 & H).
  assert (Hframe0 : error_count s0 = error_count s /\ status s0 = status s /\
                    (code = ERROR_INVALID_DATA -> s0 = s)).
  { destruct code as [|p|p]; [| do 4 (try destruct p as [p|p|]) |];
      invert_M Hphase1; cbn; repeat apply conj; try reflexivity;
      intros Hcode; try reflexivity; discriminate Hcode. }
  clear Hphase1. destruct Hframe0 as (He0 & Hst0 & Hsame0).
  apply bind_Ok in H as ([[[s1 ok1] n1] r1] & w1 & Hloop & H).
  cbn [loop_state fst] in H.
  assert (Hframe1 : error_count s1 = error_count s /\
                    (if code =? ERROR_INVALID_DATA
                     then status s1 = derived_status s
                     else status s1 = status s)).
  { destruct (Z.eqb_spec code ERROR_INVALID_DATA) as [Hcode | Hne].
    - rewrite (Hsame0 Hcode) in Hloop. clear Hsame0 He0 Hst0. subst code.
      change (Z.to_nat MAX_RETRY_ATTEMPTS) with 3%nat in Hloop.
      apply for_loop_first_pass in Hloop
        as (c & [[s2 ok2] n2] & w2 & Hstep & Hloop).
      apply recovery_attempt_frame in Hstep as (He2 & Hst2 & Hd2).
      assert (Hrest : error_count s1 = error_count s /\
                      status s1 = derived_status s /\
                      derived_status s1 = derived_status s).
      { destruct c as [| |[]].
        - apply (for_loop_invariant _
                   (fun (st : monitor_system_t * bool * Z) _ =>
                      error_count st.1.1 = error_count s /\
                      status st.1.1 = derived_status s /\
                      derived_status st.1.1 = derived_status s))
            in Hloop; [exact Hloop | | cbn; auto].
          intros i [[s3 ok3] n3] w3 c3 [[s4 ok4] n4] w4 (He3 & Hst3 & Hd3) Hpass.
          apply recovery_attempt_frame in Hpass as (He4 & Hst4 & Hd4).
          cbn [fst snd] in *.
          repeat apply conj; congruence.
        - destruct Hloop as (Heq & _). injection Heq as -> _ _. auto. }
      tauto.
    - apply (for_loop_invariant _
               (fun (st : monitor_system_t * bool * Z) _ =>
                  error_count st.1.1 = error_count s /\
                  status st.1.1 = status s))
        in Hloop; [exact Hloop | | cbn; auto].
      intros i [[s3 ok3] n3] w3 c3 [[s4 ok4] n4] w4 [He3 Hst3] Hpass.
      apply recovery_attempt_frame in Hpass as (He4 & Hst4).
      destruct (Z.eqb_spec code ERROR_INVALID_DATA); [contradiction |].
      cbn [fst snd] in *. split; congruence. }
  apply bind_Ok in H as (ok2 & w2 & _ & H).
  destruct (get_error_message code) as [msg|]; [| discriminate H].
  apply bind_Ok in H as (u & w3 & _ & H).
  apply ret_Ok in H as [Heq _]. injection Heq as _ ->.
  exists s1. split; [reflexivity | exact Hframe1].
Qed.

(** [simulate_error_scenarios] assigns 8 to [error_count] and does not
    write [status]. *)
Lemma simulate_error_scenarios_frame (s : monitor_system_t)
    (r : option monitor_system_t) (w w' : world) :
  simulate_error_scenarios (Some s) w = Ok r w' ->
  exists s', r = Some s' /\ error_count s' = 8 /\ status s' = status s.
Proof.
  unfold simulate_error_scenarios. intros H.
  apply bind_Ok in H as ([b1 r1] & w1 & H1 & H).
  apply comprehensive_error_recovery_frame in H1 as (s1 & -> & He1 & Hst1).
  apply bind_Ok in H as ([b2 r2] & w2 & H2 & H).
  apply comprehensive_error_recovery_frame in H2 as (s2 & -> & He2 & Hst2).
  apply bind_Ok in H as ([b3 r3] & w3 & H3 & H).
  apply comprehensive_error_recovery_frame in H3 as (s3 & -> & He3 & Hst3).
  apply bind_Ok in H as ([b4 r4] & w4 & H4 & H).
  apply comprehensive_error_recovery_frame in H4 as (s4 & -> & He4 & Hst4).
  apply bind_Ok in H as ([b5 r5] & w5 & H5 & H).
  apply comprehensive_error_recovery_frame in H5 as (s5 & -> & He5 & Hst5).
  apply ret_Ok in H as [-> _].
  cbn in *. exists s5. split; [reflexivity |]. split; congruence.
Qed.

(** The effect of every function that takes the struct on [error_count]
    and on [status]. *)
Lemma run_system_operation_frame (op : system_operation) (s : monitor_system_t)
    (r : option monitor_system_t) (w w' : world) :
  run_system_operation op (Some s) w = Ok r w' ->
  exists s', r = Some s' /\
    match op with
    | Op_monitor Op_init_monitor_system =>
        error_count s' = 0 /\ status s' = STATUS_NORMAL
    | Op_simulate_error_scenarios =>
        error_count s' = 8 /\ status s' = status s
    | Op_monitor Op_scan_all_registers =>
        error_count s <= error_count s'
                      <= error_count s + Z.max 0 (num_registers s) /\
        status s' = status s
    | Op_monitor (Op_simulate_hardware_failure _) =>
        (error_count s' = error_count s \/ error_count s' = error_count s + 1) /\
        status s' = status s
    | Op_monitor Op_update_all_registers =>
        error_count s' = error_count s /\ status s' = derived_status s
    | Op_monitor Op_emergency_shutdown =>
        error_count s' = error_count s /\ status s' = STATUS_CRITICAL
    | Op_monitor (Op_attempt_error_recovery code)
    | Op_comprehensive_error_recovery code =>
        error_count s' = error_count s /\
        (if code =? ERROR_INVALID_DATA then status s' = derived_status s
         else status s' = status s)
    | Op_monitor (Op_continuous_monitoring_loop _ _) =>
        error_count s' = error_count s /\
        (status s' = status s \/ status s' = derived_status s)
    | _ => error_count s' = error_count s /\ status s' = status s
    end.
Proof.
  intros H. destruct op as [op | | code |]; cbn [run_system_operation] in H.
  - apply run_operation_frame in H as (s' & -> & Hop).
    exists s'. split; [reflexivity |]. destruct op; exact Hop.
  - apply inspect_then_return in H as ->. exists s. tauto.
  - apply bind_Ok in H as ([b r1] & w1 & Hrec & H).
    apply ret_Ok in H as [-> _].
    apply comprehensive_error_recovery_frame in Hrec as (s' & -> & He & Hst).
    eauto.
  - apply simulate_error_scenarios_frame in H as (s' & -> & He & Hst). eauto.
Qed.

Lemma run_system_operation_defined (op : system_operation)
    (s : monitor_system_t) (w : world) :
  straight_line_operation op = true ->
  wf_system s = true ->
  error_count s + Z.max 1 (num_registers s) <= INT_MAX ->
  exists s' w', run_system_operation op (Some s) w = Ok (Some s') w'.
Proof.
  intros Hop Hwf Hroom.
  destruct op as [op | | code |]; try discriminate Hop;
    cbn [run_system_operation].
  - now apply run_operation_defined.
  - eexists _, _. reflexivity.
Qed.

(** ** The error counter *)

(** C8 as specified fails: [simulate_error_scenarios] is not the
    initialisation, and it brings an [error_count] of 9 down to 8. *)
Lemma simulate_error_scenarios_lowers_error_count :
  error_count (set_error_count 9 nominal_system) = 9 /\
  exists s' w',
    run_system_operation Op_simulate_error_scenarios
                         (Some (set_error_count 9 nominal_system)) boot_world
    = Ok (Some s') w' /\
    error_count s' = 8.
Proof.
  split; [reflexivity |].
  eexists _, _. split; [vm_compute; reflexivity | reflexivity].
Qed.

(** C8, amended.  Two functions lower [error_count]: [init_monitor_system]
    resets it to 0, and the scenario driver [simulate_error_scenarios]
    overwrites it with 8.  Across every other function that takes the
    struct, those of monitor.h and [init_recovery_system] and
    [comprehensive_error_recovery] of error_recovery.c, it does not
    decrease: [scan_all_registers] adds one per failed register (at most
    [num_registers]), [simulate_hardware_failure] adds one when it simulates
    a failure and nothing otherwise, and every other one, among them
    [update_all_registers], [attempt_error_recovery], [emergency_shutdown]
    and the validators, leaves it unchanged.  The straight-line operations
    are defined on every well-formed system whose counter has room for the
    increments. *)
Theorem error_count_lowered_by_init_and_scenarios_only
    (op : system_operation) (s : monitor_system_t) (w : world) :
  (forall r w',
      run_system_operation op (Some s) w = Ok r w' ->
      exists s', r = Some s' /\
        (overwrites_error_count op = false -> error_count s <= error_count s') /\
        match op with
        | Op_monitor Op_init_monitor_system => error_count s' = 0
        | Op_simulate_error_scenarios => error_count s' = 8
        | Op_monitor Op_scan_all_registers =>
            error_count s <= error_count s'
                          <= error_count s + Z.max 0 (num_registers s)
        | Op_monitor (Op_simulate_hardware_failure _) =>
            error_count s' = error_count s \/ error_count s' = error_count s + 1
        | _ => error_count s' = error_count s
        end) /\
  (straight_line_operation op = true -> wf_system s = true ->
   error_count s + Z.max 1 (num_registers s) <= INT_MAX ->
   exists s' w', run_system_operation op (Some s) w = Ok (Some s') w').
Proof.
  split; [| apply run_system_operation_defined].
  intros r w' H.
  apply run_system_operation_frame in H as (s' & -> & Hop).
  exists s'. split; [reflexivity |].
  destruct op as [op | | code |]; [destruct op | | |];
    cbn [overwrites_error_count];
    (split; [intros Hinit; try discriminate Hinit |]);
    try lia; try tauto.
Qed.

Lemma error_count_lowered_by_init_and_scenarios_only_witness :
  straight_line_operation (Op_monitor Op_scan_all_registers) = true /\
  wf_system control_failure_system = true /\
  error_count control_failure_system
  + Z.max 1 (num_registers control_failure_system) <= INT_MAX /\
  exists s' w',
    run_system_operation (Op_monitor Op_scan_all_registers)
                         (Some control_failure_system) boot_world
    = Ok (Some s') w' /\
    error_count control_failure_system <= error_count s'.
Proof.
  split; [reflexivity |]. split; [reflexivity |].
  split; [unfold INT_MAX; cbn; lia |].
  destruct (error_count_lowered_by_init_and_scenarios_only
              (Op_monitor Op_scan_all_registers)
              control_failure_system boot_world) as [Hframe Hdefined].
  destruct (Hdefined eq_refl eq_refl ltac:(unfold INT_MAX; cbn; lia))
    as (s' & w' & Hrun).
  exists s', w'. split; [exact Hrun |].
  destruct (Hframe _ _ Hrun) as (s1 & Heq & Hmono & _).
  injection Heq as ->. apply Hmono. reflexivity.
Defined.

(** ** The status field *)

(** C9 as specified fails: [emergency_shutdown] is not
    [update_all_registers] and not the initialisation, and it turns the
    NORMAL status of the nominal system into CRITICAL. *)
Lemma emergency_shutdown_writes_status :
  status nominal_system = STATUS_NORMAL /\
  run_operation Op_emergency_shutdown (Some nominal_system) boot_world
  = Ok (Some (set_status STATUS_CRITICAL
                (set_system_active false nominal_system))) boot_world /\
  status (set_status STATUS_CRITICAL (set_system_active false nominal_system))
  = STATUS_CRITICAL.
Proof. repeat apply conj; reflexivity. Qed.

(** Recovery from [ERROR_INVALID_DATA] refreshes the registers through
    [update_all_registers] and so replaces a stale status as well. *)
Example invalid_data_recovery_rewrites_status :
  status stale_warning_system = STATUS_WARNING /\
  exists s' w',
    run_operation (Op_attempt_error_recovery ERROR_INVALID_DATA)
                  (Some stale_warning_system) boot_world = Ok (Some s') w' /\
    status s' = STATUS_NORMAL.
Proof.
  split; [reflexivity |]. eexists _, _. split; [vm_compute; reflexivity |].
  reflexivity.
Qed.

(** C9, amended.  The status field is written by three functions:
    [init_monitor_system] sets it to NORMAL, [update_all_registers]
    recomputes it as [determine_system_status (voltage, temperature,
    current)] on a non-null system, and [emergency_shutdown] forces it to
    CRITICAL.  [attempt_error_recovery] and [comprehensive_error_recovery]
    on [ERROR_INVALID_DATA], and [continuous_monitoring_loop], change it
    only by calling [update_all_registers], so that they leave the status
    of the readings too.  Every other function that takes the struct, in
    monitor.h and in error_recovery.c, leaves it unchanged. *)
Theorem status_written_by_init_update_shutdown (op : system_operation)
    (s : monitor_system_t) (w : world) :
  (forall r w',
      run_system_operation op (Some s) w = Ok r w' ->
      exists s', r = Some s' /\
        match op with
        | Op_monitor Op_init_monitor_system => status s' = STATUS_NORMAL
        | Op_monitor Op_update_all_registers =>
            status s' = determine_system_status (voltage s) (temperature s)
                                                (current s)
        | Op_monitor Op_emergency_shutdown => status s' = STATUS_CRITICAL
        | Op_monitor (Op_attempt_error_recovery code)
        | Op_comprehensive_error_recovery code =>
            if code =? ERROR_INVALID_DATA
            then status s' = determine_system_status (voltage s) (temperature s)
                                                     (current s)
            else status s' = status s
        | Op_monitor (Op_continuous_monitoring_loop _ _) =>
            status s' = status s \/
            status s' = determine_system_status (voltage s) (temperature s)
                                                (current s)
        | _ => status s' = status s
        end) /\
  (straight_line_operation op = true -> wf_system s = true ->
   error_count s + Z.max 1 (num_registers s) <= INT_MAX ->
   exists s' w', run_system_operation op (Some s) w = Ok (Some s') w').
Proof.
  split; [| apply run_system_operation_defined].
  intros r w' H.
  apply run_system_operation_frame in H as (s' & -> & Hop).
  exists s'. split; [reflexivity |].
  fold (derived_status s).
  destruct op as [op | | code |]; [destruct op | | |]; tauto.
Qed.

Lemma status_written_by_init_update_shutdown_witness :
  straight_line_operation (Op_monitor (Op_attempt_error_recovery ERROR_INVALID_DATA))
  = true /\
  wf_system stale_warning_system = true /\
  error_count stale_warning_system
  + Z.max 1 (num_registers stale_warning_system) <= INT_MAX /\
  (exists s' w',
      run_system_operation (Op_monitor (Op_attempt_error_recovery ERROR_INVALID_DATA))
                           (Some stale_warning_system) boot_world
      = Ok (Some s') w' /\
      status s' = STATUS_NORMAL) /\
  (exists s' w',
      run_system_operation (Op_comprehensive_error_recovery ERROR_INVALID_DATA)
                           (Some stale_warning_system) boot_world
      = Ok (Some s') w' /\
      status s' = STATUS_NORMAL).
Proof.
  split; [reflexivity |]. split; [reflexivity |].
  split; [unfold INT_MAX; cbn; lia |]. split.
  - destruct (status_written_by_init_update_shutdown
                (Op_monitor (Op_attempt_error_recovery ERROR_INVALID_DATA))
                stale_warning_system boot_world) as [Hframe Hdefined].
    destruct (Hdefined eq_refl eq_refl ltac:(unfold INT_MAX; cbn; lia))
      as (s' & w' & Hrun).
    exists s', w'. split; [exact Hrun |].
    destruct (Hframe _ _ Hrun) as (s1 & Heq & Hst).
    injection Heq as ->. exact Hst.
  - eexists _, _. split; [vm_compute; reflexivity |].
    match goal with
    | |- status ?s' = _ =>
        assert (Hrun : exists w',
                   run_system_operation
                     (Op_comprehensive_error_recovery ERROR_INVALID_DATA)
                     (Some stale_warning_system) boot_world = Ok (Some s') w')
          by (eexists; vm_compute; reflexivity)
    end.
    destruct Hrun as [w' Hrun].
    destruct (proj1 (status_written_by_init_update_shutdown
                (Op_comprehensive_error_recovery ERROR_INVALID_DATA)
                stale_warning_system boot_world) _ _ Hrun) as (s1 & Heq & Hst).
    injection Heq as <-. exact Hst.
Defined.

(** [init_recovery_system] leaves the recovery state well formed, at level
    0 and not degraded. *)
Lemma init_recovery_system_wf (s : monitor_system_t) (w : world) :
  exists w',
    init_recovery_system (Some s) w = Ok true w' /\
    wf_recovery (recovery_state w') = true /\
    degradation_level (recovery_state w') = 0 /\
    degraded_mode (recovery_state w') = false.
Proof.
  unfold init_recovery_system, get_recovery_state, put_recovery_state.
  eexists. split; [reflexivity |]. cbn. repeat apply conj; reflexivity.
Qed.

(** ** The monitoring loop stops *)

Lemma while_loop_defined {St} (cond : St -> bool)
    (body : St -> M (control Empty_set * St))
    (I : nat -> St -> world -> Prop) :
  (forall f s w, I (S f) s w -> cond s = true ->
                 exists c s' w', body s w = Ok (c, s') w' /\
                                 (c = Break \/ (c = Next /\ I f s' w'))) ->
  (forall s w, I O s w -> cond s = false) ->
  forall fuel s w, I fuel s w ->
                   exists s' w', while_loop fuel cond body s w = Ok s' w'.
Proof.
  intros Hbody Hzero. induction fuel as [|fuel IH]; intros s w HI; simpl.
  - rewrite (Hzero _ _ HI). eexists _, _. reflexivity.
  - destruct (cond s) eqn:Hcond; [| eexists _, _; reflexivity].
    destruct (Hbody _ _ _ HI Hcond) as (c & s1 & w1 & Hstep & Hc).
    rewrite (bind_Ok_intro _ _ _ _ _ Hstep). cbn.
    destruct Hc as [-> | [-> HI1]].
    + eexists _, _. reflexivity.
    + now apply IH.
Qed.

(** A clock that gains at least a second per reading. *)
Lemma clock_gains (clock : nat -> Z) (n k : nat) :
  (forall m, clock m + 1 <= clock (S m)) ->
  clock n + Z.of_nat k <= clock (n + k)%nat.
Proof.
  intros Htick. induction k as [|k IH].
  - rewrite Nat.add_0_r. lia.
  - rewrite Nat.add_succ_r. specialize (Htick (n + k)%nat). lia.
Qed.

(** With the register table in bounds and a clock that gains at least a
    second between two readings (each pass sleeps for [MONITOR_INTERVAL]),
    [duration_seconds] passes are enough: the loop returns. *)
Lemma continuous_monitoring_loop_returns (s : monitor_system_t)
    (duration_seconds : Z) (w : world) :
  registers_in_bounds s = true ->
  0 < duration_seconds <= INT_MAX ->
  (forall m, time_source w m + 1 <= time_source w (S m)) ->
  exists s' w',
    continuous_monitoring_loop (Z.to_nat duration_seconds) (Some s)
                               duration_seconds w = Ok (Some s') w'.
Proof.
  intros Hwf Hd Htick. unfold continuous_monitoring_loop.
  destruct (Z.leb_spec duration_seconds 0) as [Hle | _]; [lia |].
  unfold time_now at 1, mbind at 1, M_bind at 1. cbn beta iota.
  set (k0 := time_calls w). set (start := time_source w k0).
  set (D := Z.to_nat duration_seconds).
  pose (I := fun (f : nat) (st : monitor_system_t * Z) (w1 : world) =>
               (1 <= f <= D)%nat /\
               registers_in_bounds (fst st) = true /\
               time_source w1 = time_source w /\
               time_calls w1 = (k0 + 1 + (D - f))%nat /\
               0 <= snd st <= Z.of_nat (D - f)).
  destruct (while_loop_defined (fun st => system_active (fst st))
              (monitoring_step start duration_seconds) I)
    with (fuel := D) (s := (s, 0)) (w := set_time_calls (S k0) w)
    as ([s1 n1] & w1 & Hloop).
  - intros f [s1 n1] w1 (Hf & Hb & Hsrc & Hcalls & Hn) _. cbn in Hb, Hn.
    unfold monitoring_step.
    unfold time_now at 1, mbind at 1, M_bind at 1. cbn beta iota.
    rewrite Hsrc, Hcalls.
    pose proof (clock_gains (time_source w) k0 (1 + (D - S f)) Htick) as Hgain.
    rewrite Nat.add_assoc in Hgain. fold start in Hgain.
    destruct (Z.geb_spec (time_source w (k0 + 1 + (D - S f))%nat - start)
                         duration_seconds) as [Hstop | Hgo].
    { eexists _, _, _. split; [reflexivity | left; reflexivity]. }
    assert (Hf1 : (1 <= f)%nat) by lia.
    destruct (update_all_registers_defined s1 (set_time_calls
                (S (k0 + 1 + (D - S f))) w1) Hb) as (s2 & w2 & Hupd).
    rewrite (bind_Ok_intro _ _ _ _ _ Hupd). cbn beta iota.
    pose proof Hupd as Hframe.
    apply update_all_registers_frame in Hframe
      as (s3 & Heq & _ & _ & _ & _ & _ & Hnum & Hlen & _).
    injection Heq as <-.
    assert (Hb2 : registers_in_bounds s2 = true)
      by (unfold registers_in_bounds in *; now rewrite Hnum, Hlen).
    destruct (check_critical_conditions (Some s2)).
    { eexists _, _, _. split; [reflexivity | left; reflexivity]. }
    destruct (error_count s2 >=? MAX_ERRORS).
    { eexists _, _, _. split; [reflexivity | left; reflexivity]. }
    forward_M.
    unfold delay_ms, MONITOR_INTERVAL. forward_M.
    eexists _, _, _. split; [reflexivity |]. right. split; [reflexivity |].
    unfold I; cbn.
    assert (Hw2 : time_source w2 = time_source w /\
                  time_calls w2 = S (k0 + 1 + (D - S f))).
    { unfold update_all_registers in Hupd.
      apply bind_Ok in Hupd as ([s4 r4] & w4 & Hloop & Hret).
      apply ret_Ok in Hret as [_ ->].
      apply (for_loop_invariant update_register
               (fun _ w5 => time_source w5 = time_source w /\
                            time_calls w5 = S (k0 + 1 + (D - S f))))
        in Hloop; [exact Hloop | | cbn; tauto].
      intros i s5 w5 c s6 w6 [Hs5 Hc5] Hstep.
      apply update_register_frame in Hstep as (_ & _ & ->). cbn. tauto. }
    destruct Hw2 as [Hsrc2 Hcalls2].
    repeat apply conj; try assumption; try lia.
  - intros [s1 n1] w1 (Hf & _). lia.
  - unfold I; cbn. unfold D in *.
    repeat apply conj; try assumption; try reflexivity; try lia.
  - rewrite (bind_Ok_intro _ _ _ _ _ Hloop). eexists _, _. reflexivity.
Qed.

(** * Further properties of the code *)

(** ** The order of binary32 through keys *)

Lemma compare_key (a b : float) :
  F32.is_nan a = false -> F32.is_nan b = false ->
  SFcompare a b = Some (key_compare (float_key a) (float_key b)).
Proof.
  destruct a as [sa|sa| |sa ma ea], b as [sb|sb| |sb mb eb];
    intros Ha Hb; try discriminate;
    try destruct sa; try destruct sb; try reflexivity.
  all: cbn; rewrite ?Z.compare_opp, ?(Z.compare_antisym ea eb);
    destruct (ea ?= eb); cbn; reflexivity.
Qed.

Lemma key_compare_Lt (k1 k2 : Z * Z * Z) :
  key_compare k1 k2 = Lt <->
  k1.1.1 < k2.1.1 \/
  (k1.1.1 = k2.1.1 /\
   (k1.1.2 < k2.1.2 \/ (k1.1.2 = k2.1.2 /\ k1.2 < k2.2))).
Proof.
  destruct k1 as [[a1 b1] c1], k2 as [[a2 b2] c2]. cbn.
  destruct (Z.compare_spec a1 a2); [| intuition (try discriminate; lia) ..].
  destruct (Z.compare_spec b1 b2); [| intuition (try discriminate; lia) ..].
  destruct (Z.compare_spec c1 c2); intuition (try discriminate; lia).
Qed.

Lemma key_compare_Gt (k1 k2 : Z * Z * Z) :
  key_compare k1 k2 = Gt <-> key_compare k2 k1 = Lt.
Proof.
  destruct k1 as [[a1 b1] c1], k2 as [[a2 b2] c2]. cbn.
  rewrite (Z.compare_antisym a1 a2), (Z.compare_antisym b1 b2),
          (Z.compare_antisym c1 c2).
  destruct (a1 ?= a2); cbn; [| intuition discriminate ..].
  destruct (b1 ?= b2); cbn; [| intuition discriminate ..].
  destruct (c1 ?= c2); cbn; intuition discriminate.
Qed.

Lemma lt_key (a b : float) :
  F32.is_nan a = false -> F32.is_nan b = false ->
  (F32.lt a b = true <-> key_lt (float_key a) (float_key b)).
Proof.
  intros Ha Hb. unfold F32.lt. rewrite (compare_key a b Ha Hb).
  unfold key_lt. rewrite <- key_compare_Lt.
  destruct (key_compare _ _); intuition discriminate.
Qed.

Lemma gt_key (a b : float) :
  F32.is_nan a = false -> F32.is_nan b = false ->
  (F32.gt a b = true <-> key_lt (float_key b) (float_key a)).
Proof.
  intros Ha Hb. rewrite gt_lt. now apply lt_key.
Qed.

Lemma lt_key_false (a b : float) :
  F32.is_nan a = false -> F32.is_nan b = false ->
  (F32.lt a b = false <-> ~ key_lt (float_key a) (float_key b)).
Proof.
  intros Ha Hb. rewrite <- (lt_key a b Ha Hb).
  destruct (F32.lt a b); intuition congruence.
Qed.

Lemma gt_key_false (a b : float) :
  F32.is_nan a = false -> F32.is_nan b = false ->
  (F32.gt a b = false <-> ~ key_lt (float_key b) (float_key a)).
Proof.
  intros Ha Hb. rewrite <- (gt_key a b Ha Hb).
  destruct (F32.gt a b); intuition congruence.
Qed.

(** Turns the comparisons of an ordered float [v] with constants, in the
    hypotheses and in the goal, into linear arithmetic on the key of [v]. *)
Ltac float_order v Hv :=
  repeat match goal with
         | H : F32.lt v ?c = true |- _ => apply (lt_key v c Hv eq_refl) in H
         | H : F32.lt v ?c = false |- _ => apply (lt_key_false v c Hv eq_refl) in H
         | H : F32.gt v ?c = true |- _ => apply (gt_key v c Hv eq_refl) in H
         | H : F32.gt v ?c = false |- _ => apply (gt_key_false v c Hv eq_refl) in H
         | |- F32.lt v ?c = true => apply (lt_key v c Hv eq_refl)
         | |- F32.lt v ?c = false => apply (lt_key_false v c Hv eq_refl)
         | |- F32.gt v ?c = true => apply (gt_key v c Hv eq_refl)
         | |- F32.gt v ?c = false => apply (gt_key_false v c Hv eq_refl)
         end;
  let kv := fresh "kv" in
  let Hkv := fresh "Hkv" in
  remember (float_key v) as kv eqn:Hkv in *; clear Hkv;
  repeat match goal with
         | H : context [float_key ?c] |- _ =>
             let k := eval vm_compute in (float_key c) in
             change (float_key c) with k in H
         | |- context [float_key ?c] =>
             let k := eval vm_compute in (float_key c) in
             change (float_key c) with k
         end;
  unfold key_lt in *;
  destruct kv as [[? ?] ?]; cbn [fst snd] in *; lia.

(** ** The modular tests against the validators *)

(** The voltage and current tests accept exactly what the validators
    accept; the temperature test accepts what the validator accepts down to
    -40 degrees and nothing colder. *)
Theorem modular_tests_refine_validators (x : float) :
  test_voltage_levels x = validate_voltage_range x /\
  test_current_consumption x = validate_current_range x /\
  test_temperature_range x
  = validate_temperature_range x && negb (x < F32.literal (-400) 10)%f32.
Proof.
  destruct (F32.is_nan x) eqn:Hx.
  { destruct x; try discriminate Hx. repeat apply conj; reflexivity. }
  unfold test_voltage_levels, validate_voltage_range, test_current_consumption,
    validate_current_range, test_temperature_range, validate_temperature_range.
  repeat apply conj.
  - destruct (x < F32.zero)%f32 eqn:H0, (x > F32.literal 100 10)%f32 eqn:H10,
      (x < MIN_VOLTAGE)%f32 eqn:Hmin, (x > MAX_VOLTAGE)%f32 eqn:Hmax;
      cbn; try reflexivity; exfalso; float_order x Hx.
  - reflexivity.
  - destruct (x < F32.literal (-400) 10)%f32 eqn:Hcold,
      (x > F32.literal 1500 10)%f32 eqn:Hhot,
      (x > TEMP_CRITICAL)%f32 eqn:Hcrit, (x > TEMP_WARNING)%f32 eqn:Hwarn;
      cbn; try reflexivity; exfalso; float_order x Hx.
Qed.

(** ** The aggregated status against the validators *)

(** A NORMAL status means that the three validators pass and the
    temperature is not above the warning threshold, and on ordered inputs
    the converse holds; a WARNING status still means that the voltage and
    temperature validators pass. *)
Theorem status_normal_iff_validators_pass (v t c : float) :
  (determine_system_status v t c = STATUS_NORMAL ->
   validate_voltage_range v = true /\ validate_temperature_range t = true /\
   validate_current_range c = true /\ (t > TEMP_WARNING)%f32 = false) /\
  (F32.is_nan v = false -> F32.is_nan t = false -> F32.is_nan c = false ->
   validate_voltage_range v = true -> validate_current_range c = true ->
   (t > TEMP_WARNING)%f32 = false ->
   determine_system_status v t c = STATUS_NORMAL) /\
  (determine_system_status v t c = STATUS_WARNING ->
   validate_voltage_range v = true /\ validate_temperature_range t = true).
Proof.
  assert (Hshape :
            determine_system_status v t c = STATUS_NORMAL \/
            determine_system_status v t c = STATUS_WARNING ->
            validate_voltage_range v = true /\
            validate_temperature_range t = true /\
            (determine_system_status v t c = STATUS_NORMAL ->
             validate_current_range c = true /\ (t > TEMP_WARNING)%f32 = false)).
  { unfold determine_system_status, validate_voltage_range,
      validate_temperature_range, validate_current_range.
    destruct (t > TEMP_CRITICAL)%f32; [intros [H | H]; discriminate H |].
    destruct (v >= MIN_VOLTAGE)%f32 eqn:Hvlo; cbn [andb negb];
      [| destruct (v < MIN_VOLTAGE)%f32; intros [H | H]; discriminate H].
    destruct (v <= MAX_VOLTAGE)%f32 eqn:Hvhi; cbn [andb negb];
      [| destruct (v < MIN_VOLTAGE)%f32; intros [H | H]; discriminate H].
    rewrite (ge_excludes_lt _ _ Hvlo), (le_excludes_gt _ _ Hvhi).
    intros _. split; [reflexivity |].
    split; [now destruct (t > TEMP_WARNING)%f32 |].
    destruct (c >= MIN_CURRENT)%f32 eqn:Hclo; cbn [andb negb];
      [| destruct (c < F32.zero)%f32, (c < MIN_CURRENT)%f32; discriminate].
    destruct (c <= MAX_CURRENT)%f32 eqn:Hchi; cbn [andb negb];
      [| destruct (c < F32.zero)%f32, (c < MIN_CURRENT)%f32; discriminate].
    destruct (c >= F32.zero)%f32 eqn:Hc0; cbn [andb negb];
      [| destruct (c < F32.zero)%f32, (c < MIN_CURRENT)%f32; discriminate].
    rewrite (ge_excludes_lt _ _ Hclo), (le_excludes_gt _ _ Hchi),
            (ge_excludes_lt _ _ Hc0).
    destruct (t > TEMP_WARNING)%f32; [discriminate | auto]. }
  split; [| split].
  - intros H. destruct (Hshape (or_introl H)) as (Hv & Ht & Hc).
    destruct (Hc H). auto.
  - intros Hv Ht Hc Hvv Hvc Hwarm.
    rewrite (determine_system_status_ordered v t c Hv Ht Hc).
    unfold priority_rule, validate_voltage_range, validate_current_range in *.
    assert (Hcrit : (t > TEMP_CRITICAL)%f32 = false) by float_order t Ht.
    rewrite Hcrit, Hwarm.
    destruct (v < MIN_VOLTAGE)%f32; [discriminate |].
    destruct (v > MAX_VOLTAGE)%f32; [discriminate |].
    destruct (c < F32.zero)%f32; [discriminate |].
    destruct (c < MIN_CURRENT)%f32; [discriminate |].
    destruct (c > MAX_CURRENT)%f32; [discriminate | reflexivity].
  - intros H. destruct (Hshape (or_intror H)) as (Hv & Ht & _). auto.
Qed.

Lemma status_normal_iff_validators_pass_witness :
  (determine_system_status NOMINAL_VOLTAGE TEMP_NORMAL NOMINAL_CURRENT
   = STATUS_NORMAL /\
   validate_voltage_range NOMINAL_VOLTAGE = true /\
   validate_temperature_range TEMP_NORMAL = true /\
   validate_current_range NOMINAL_CURRENT = true) /\
  (determine_system_status NOMINAL_VOLTAGE (F32.literal 800 10) NOMINAL_CURRENT
   = STATUS_WARNING /\
   validate_temperature_range (F32.literal 800 10) = true).
Proof.
  split.
  - split; [reflexivity |].
    destruct (status_normal_iff_validators_pass
                NOMINAL_VOLTAGE TEMP_NORMAL NOMINAL_CURRENT) as (Hn & _ & _).
    destruct (Hn eq_refl) as (Hv & Ht & Hc & _). auto.
  - split; [reflexivity |].
    destruct (status_normal_iff_validators_pass
                NOMINAL_VOLTAGE (F32.literal 800 10) NOMINAL_CURRENT)
      as (_ & _ & Hw).
    destruct (Hw eq_refl) as (_ & Ht). exact Ht.
Defined.

(** When [check_critical_conditions] reports nothing, the stored status is
    not CRITICAL, the error count is below [MAX_ERRORS], the system is
    active, the voltage and temperature validators pass and the current is
    not negative.  The separate error-ceiling test that the monitoring loop
    makes after this check can therefore never fire. *)
Theorem no_critical_condition_means_healthy (s : monitor_system_t) :
  check_critical_conditions (Some s) = false ->
  status s <> STATUS_CRITICAL /\
  error_count s < MAX_ERRORS /\
  (error_count s >=? MAX_ERRORS) = false /\
  system_active s = true /\
  validate_voltage_range (voltage s) = true /\
  validate_temperature_range (temperature s) = true /\
  (current s < F32.zero)%f32 = false.
Proof.
  unfold check_critical_conditions, validate_voltage_range,
    validate_temperature_range.
  destruct (system_status_eqb (status s) STATUS_CRITICAL) eqn:Hst;
    [discriminate |].
  destruct (Z.geb_spec (error_count s) MAX_ERRORS); [discriminate |].
  destruct (system_active s); [| discriminate].
  destruct (temperature s > TEMP_CRITICAL)%f32; [discriminate |].
  destruct (voltage s < MIN_VOLTAGE)%f32; [discriminate |].
  destruct (voltage s > MAX_VOLTAGE)%f32; [discriminate |].
  destruct (current s < F32.zero)%f32; [discriminate |].
  intros _. repeat apply conj; try reflexivity; try lia.
  - intros Heq. rewrite Heq in Hst. discriminate.
  - now destruct (temperature s > TEMP_WARNING)%f32.
Qed.

Lemma no_critical_condition_means_healthy_witness :
  check_critical_conditions (Some nominal_system) = false /\
  error_count nominal_system < MAX_ERRORS /\
  validate_voltage_range (voltage nominal_system) = true.
Proof.
  split; [reflexivity |].
  destruct (no_critical_condition_means_healthy nominal_system eq_refl)
    as (_ & He & _ & _ & Hv & _). auto.
Defined.

(** ** The voltage penalty of the health score *)

Lemma voltage_penalty_ordered (s : monitor_system_t) :
  F32.is_nan (voltage s) = false ->
  voltage_penalty s = if validate_voltage_range (voltage s) then 15 else 30.
Proof.
  intros Hv. unfold voltage_penalty, validate_voltage_range.
  destruct (voltage s < MIN_VOLTAGE)%f32 eqn:Hlo; [reflexivity |].
  destruct (voltage s > MAX_VOLTAGE)%f32 eqn:Hhi; [reflexivity |].
  cbn [orb].
  destruct (voltage s < MIN_VOLTAGE * F32.literal 11 10)%f32 eqn:Hband;
    [reflexivity |].
  destruct (voltage s > MAX_VOLTAGE * F32.literal 9 10)%f32 eqn:Hband';
    [reflexivity |].
  exfalso. float_order (voltage s) Hv.
Qed.

(** [MIN_VOLTAGE * 1.1] lies above [MAX_VOLTAGE * 0.9], so the "marginal"
    band covers the whole valid range: an ordered voltage costs 15 points
    when it is valid and 30 when it is not, and only a NaN costs nothing. *)
Theorem voltage_penalty_is_never_zero (s : monitor_system_t) :
  (F32.is_nan (voltage s) = false ->
   voltage_penalty s = if validate_voltage_range (voltage s) then 15 else 30) /\
  (F32.is_nan (voltage s) = true -> voltage_penalty s = 0).
Proof.
  split.
  - apply voltage_penalty_ordered.
  - unfold voltage_penalty. destruct (voltage s); try discriminate. reflexivity.
Qed.

Lemma voltage_penalty_is_never_zero_witness :
  F32.is_nan (voltage nominal_system) = false /\
  validate_voltage_range (voltage nominal_system) = true /\
  voltage_penalty nominal_system = 15.
Proof.
  split; [reflexivity |]. split; [reflexivity |].
  destruct (voltage_penalty_is_never_zero nominal_system) as [H _].
  exact (H eq_refl).
Defined.

(** With an ordered voltage the health score is at most
    [85 - 10 * error_count]: the first error already moves the system out
    of level 0 and the sixth puts it at level 3. *)
Theorem one_error_degrades (s : monitor_system_t) (w w' : world) :
  graceful_degradation (Some s) w = Ok tt w' ->
  F32.is_nan (voltage s) = false ->
  (1 <= error_count s -> 1 <= degradation_level (recovery_state w')) /\
  (6 <= error_count s -> degradation_level (recovery_state w') = 3) /\
  0 <= degradation_level (recovery_state w') <= 3.
Proof.
  intros H Hv.
  apply graceful_degradation_Ok in H as (h & Hh & -> & _).
  apply assess_health_Ok in Hh as [_ ->].
  pose proof (voltage_penalty_ordered s Hv) as Hpen.
  assert (15 <= voltage_penalty s)
    by (rewrite Hpen; destruct (validate_voltage_range _); lia).
  pose proof (penalties_bounded s) as (_ & Ht & Hc).
  rewrite degradation_level_for_thresholds.
  repeat apply conj; intros;
    repeat match goal with |- context [?a <=? ?b] => destruct (Z.leb_spec a b) end;
    lia.
Qed.

Lemma one_error_degrades_witness :
  F32.is_nan (voltage (set_error_count 1 nominal_system)) = false /\
  1 <= error_count (set_error_count 1 nominal_system) /\
  exists w',
    graceful_degradation (Some (set_error_count 1 nominal_system)) boot_world
    = Ok tt w' /\
    1 <= degradation_level (recovery_state w').
Proof.
  split; [reflexivity |]. split; [cbn; lia |].
  eexists. split; [vm_compute; reflexivity |].
  apply (proj1 (one_error_degrades (set_error_count 1 nominal_system)
                  boot_world _ eq_refl eq_refl)).
  cbn. lia.
Defined.

(** ** The simulated register read *)

Lemma count_valid_app (l1 l2 : list register_info_t) :
  count_valid (l1 ++ l2) = count_valid l1 + count_valid l2.
Proof.
  unfold count_valid. induction l1 as [|r l1 IH]; cbn; [reflexivity |].
  rewrite IH. lia.
Qed.

Lemma count_in_range_app (l1 l2 : list register_info_t) :
  count_in_range (l1 ++ l2) = count_in_range l1 + count_in_range l2.
Proof.
  unfold count_in_range. induction l1 as [|r l1 IH]; cbn; [reflexivity |].
  rewrite IH. lia.
Qed.

Lemma count_valid_bounds (l : list register_info_t) :
  0 <= count_valid l <= Z.of_nat (length l).
Proof.
  induction l as [|r l IH]; cbn [count_valid foldr length]; [lia |].
  fold (count_valid l). unfold bool_to_Z. destruct (is_valid r); lia.
Qed.

Lemma count_in_range_bounds (l : list register_info_t) :
  0 <= count_in_range l <= Z.of_nat (length l).
Proof.
  induction l as [|r l IH]; cbn [count_in_range foldr length]; [lia |].
  fold (count_in_range l). unfold bool_to_Z. destruct (in_expected_range r); lia.
Qed.

(** A consistent table has as many valid flags as values in range. *)
Lemma flags_consistent_count (l : list register_info_t) :
  flags_consistent l -> count_valid l = count_in_range l.
Proof.
  induction 1 as [|r l Hr _ IH]; [reflexivity |].
  unfold count_valid, count_in_range in *. cbn. now rewrite Hr, IH.
Qed.

(** The value read depends on the call counter alone: it is 0x12345678 plus
    sixteen times the counter modulo 16, whatever the address. *)
Lemma read_register_value (addr v : Z) (w w' : world) :
  read_register addr w = Ok v w' ->
  v = 305419896 + 16 * (wrap32 (counter w + 1) mod 16) /\
  305419896 <= v <= 305420136 /\
  w' = set_counter (wrap32 (counter w + 1)) w.
Proof.
  unfold read_register. cbn. intros H. injection H as <- <-.
  set (k := wrap32 (counter w + 1) mod 16).
  assert (Hk : 0 <= k < 16) by (apply Z.mod_pos_bound; lia).
  clearbody k.
  rewrite Z.shiftl_mul_pow2 by lia. change (2 ^ 4) with 16.
  unfold wrap32, UINT32_MODULUS.
  rewrite (Z.mod_small (k * 16) 4294967296) by lia.
  rewrite (Z.mod_small (305419896 + k * 16) 4294967296) by lia.
  repeat apply conj; try reflexivity; lia.
Qed.

Lemma refresh_step (regs regs1 : list register_info_t) (i : nat)
    (r r' : register_info_t) :
  Forall2 refreshes (take i regs) (take i regs1) ->
  drop i regs1 = drop i regs ->
  regs1 !! i = Some r -> refreshes r r' ->
  Forall2 refreshes (take (S i) regs) (take (S i) (<[i := r']> regs1)) /\
  drop (S i) (<[i := r']> regs1) = drop (S i) regs.
Proof.
  intros Hdone Hrest Hr Hrr.
  assert (Hr0 : regs !! i = Some r).
  { rewrite <- (Nat.add_0_r i), <- lookup_drop, <- Hrest, lookup_drop, Nat.add_0_r.
    exact Hr. }
  split.
  - rewrite (take_S_r regs i r Hr0).
    rewrite (take_S_r (<[i := r']> regs1) i r').
    + rewrite take_insert_ge by lia.
      apply Forall2_app; [exact Hdone | repeat constructor; exact Hrr].
    + apply list_lookup_insert_eq. eapply lookup_lt_Some; eassumption.
  - rewrite drop_insert_lt by lia.
    replace (S i) with (i + 1)%nat by lia.
    rewrite <- !drop_drop. now rewrite Hrest.
Qed.

Lemma next_read_refreshes (w : world) (r : register_info_t) :
  refreshes r (refreshed (next_read w) r).
Proof.
  exists (next_read w). split; [| reflexivity].
  unfold next_read.
  assert (0 <= wrap32 (counter w + 1) mod 16 < 16) by (apply Z.mod_pos_bound; lia).
  lia.
Qed.

(** One pass of the update loop refreshes register [i] with the value read
    and does nothing else. *)
Lemma update_register_exact (i : Z) (s s' : monitor_system_t)
    (c : control Empty_set) (w w' : world) :
  update_register i s w = Ok (c, s') w' ->
  exists r, 0 <= i /\ registers s !! Z.to_nat i = Some r /\
    s' = set_registers (<[Z.to_nat i := refreshed (next_read w) r]> (registers s)) s /\
    w' = set_counter (wrap32 (counter w + 1)) w.
Proof.
  unfold update_register. intros H.
  apply bind_Ok in H as (r & w1 & Hget & H).
  apply array_get_Ok in Hget as (-> & Hi & Hr).
  apply bind_Ok in H as (v & w1 & Hread & H).
  apply read_register_value in Hread as (-> & _ & ->). fold (next_read w) in H.
  apply bind_Ok in H as (regs & w1 & Hset & H).
  apply array_set_Ok in Hset as (-> & -> & Hb).
  apply bind_Ok in H as (r1 & w1 & Hget & H).
  apply array_get_Ok in Hget as (-> & _ & Hr1).
  cbn in Hr1. rewrite list_lookup_insert_eq in Hr1 by lia. injection Hr1 as <-.
  apply bind_Ok in H as (regs & w1 & Hset & H).
  apply array_set_Ok in Hset as (-> & -> & _).
  apply ret_Ok in H as [Heq ->]. injection Heq as _ ->.
  exists r. split; [exact Hi |]. split; [exact Hr |].
  split; [| reflexivity].
  cbn. now rewrite list_insert_insert_eq.
Qed.

(** One pass of the scan refreshes register [i] with the value read and
    counts it, as valid or as an error. *)
Lemma scan_register_exact (i : Z) (s s' : monitor_system_t) (n n' : Z)
    (c : control Empty_set) (w w' : world) :
  scan_register i (s, n) w = Ok (c, (s', n')) w' ->
  exists r, 0 <= i /\ registers s !! Z.to_nat i = Some r /\
    registers s' = <[Z.to_nat i := refreshed (next_read w) r]> (registers s) /\
    n' = n + bool_to_Z (is_valid (refreshed (next_read w) r)) /\
    error_count s'
    = error_count s + (1 - bool_to_Z (is_valid (refreshed (next_read w) r))) /\
    w' = set_counter (wrap32 (counter w + 1)) w.
Proof.
  unfold scan_register. intros H.
  apply bind_Ok in H as (r & w1 & Hget & H).
  apply array_get_Ok in Hget as (-> & Hi & Hr).
  apply bind_Ok in H as (v & w1 & Hread & H).
  apply read_register_value in Hread as (-> & _ & ->). fold (next_read w) in H.
  apply bind_Ok in H as (regs & w1 & Hset & H).
  apply array_set_Ok in Hset as (-> & -> & Hb).
  apply bind_Ok in H as (r1 & w1 & Hget & H).
  apply array_get_Ok in Hget as (-> & _ & Hr1).
  cbn in Hr1. rewrite list_lookup_insert_eq in Hr1 by lia. injection Hr1 as <-.
  exists r. split; [exact Hi |]. split; [exact Hr |].
  unfold refreshed.
  cbn [address expected_min expected_max set_value] in H.
  destruct (validate_register (address r) (next_read w) (expected_min r)
                              (expected_max r)).
  - invert_M H.
    match goal with
    | Hget : registers (set_registers (<[?k := ?x]> ?l) _) !! ?k = Some ?y |- _ =>
        cbn in Hget;
        rewrite list_lookup_insert_eq in Hget by (rewrite length_insert; lia);
        injection Hget as <-
    end.
    cbn in H. rewrite andb_false_r in H. invert_M H.
    cbn. rewrite list_insert_insert_eq. repeat apply conj; try reflexivity; lia.
  - invert_M H.
    cbn. rewrite list_insert_insert_eq. repeat apply conj; try reflexivity; lia.
Qed.

Lemma to_nat_succ (i : Z) : 0 <= i -> Z.to_nat (i + 1) = S (Z.to_nat i).
Proof. lia. Qed.

(** The scan refreshes the visited registers one by one, leaves the rest of
    the table alone, returns the number of valid flags it has set and books
    every other visited register as an error. *)
Lemma scan_all_registers_exact (s : monitor_system_t) (n : Z)
    (r : option monitor_system_t) (w w' : world) :
  scan_all_registers (Some s) w = Ok (n, r) w' ->
  exists s', r = Some s' /\
    num_registers s' = num_registers s /\
    Forall2 refreshes (visited_registers s) (visited_registers s') /\
    drop (Z.to_nat (num_registers s)) (registers s')
    = drop (Z.to_nat (num_registers s)) (registers s) /\
    n = count_valid (visited_registers s') /\
    error_count s' = error_count s + (Z.max 0 (num_registers s) - n) /\
    (Z.to_nat (num_registers s) <= length (registers s'))%nat.
Proof.
  unfold scan_all_registers. intros H.
  apply bind_Ok in H as ([[s1 n1] r1] & w1 & Hloop & H).
  cbn in H. apply ret_Ok in H as [Heq ->]. injection Heq as -> ->.
  pose (I := fun (i : Z) (st : monitor_system_t * Z) (_ : world) =>
               0 <= i /\ num_registers (fst st) = num_registers s /\
               Forall2 refreshes (take (Z.to_nat i) (registers s))
                                 (take (Z.to_nat i) (registers (fst st))) /\
               drop (Z.to_nat i) (registers (fst st))
               = drop (Z.to_nat i) (registers s) /\
               snd st = count_valid (take (Z.to_nat i) (registers (fst st))) /\
               error_count (fst st) = error_count s + (i - snd st) /\
               (Z.to_nat i <= length (registers (fst st)))%nat).
  apply (for_loop_all_passes scan_register I) in Hloop.
  - destruct Hloop as (_ & _ & Hnum & Hdone & Hrest & Hn & He & Hlen). cbn in *.
    replace (Z.to_nat (0 + Z.of_nat (Z.to_nat (num_registers s))))
      with (Z.to_nat (num_registers s)) in * by lia.
    exists s1. unfold visited_registers. rewrite Hnum.
    repeat apply conj; auto. lia.
  - intros i [s2 n2] w2 c [s3 n3] w3
      (Hi & Hnum & Hdone & Hrest & Hn & He & Hlen) Hstep.
    cbn in *.
    pose proof (scan_register_frame _ _ _ _ _ _ _ _ Hstep) as (-> & Hframe & _ & _).
    apply scan_register_exact in Hstep as (r & _ & Hr & Hregs & Hn3 & He3 & _).
    set (r' := refreshed (next_read w2) r) in *.
    split; [reflexivity |]. unfold I; cbn.
    rewrite (to_nat_succ i Hi), Hregs.
    destruct (refresh_step _ _ _ _ _ Hdone Hrest Hr (next_read_refreshes w2 r))
      as [Hdone' Hrest'].
    assert (Hlt : (Z.to_nat i < length (registers s2))%nat)
      by (eapply lookup_lt_Some; eassumption).
    repeat apply conj; try assumption; try lia.
    + destruct Hframe as (_ & _ & _ & _ & _ & Hnum3 & _). congruence.
    + rewrite (take_S_r _ _ r') by (now apply list_lookup_insert_eq).
      rewrite take_insert_ge, count_valid_app by lia.
      unfold count_valid at 2. cbn [foldr]. lia.
    + rewrite length_insert. lia.
  - unfold I; cbn. repeat apply conj; try reflexivity; try lia. constructor.
Qed.

(** The update refreshes the visited registers and leaves the rest of the
    table alone. *)
Lemma update_all_registers_exact (s : monitor_system_t)
    (r : option monitor_system_t) (w w' : world) :
  update_all_registers (Some s) w = Ok r w' ->
  exists s', r = Some s' /\
    Forall2 refreshes (visited_registers s) (visited_registers s') /\
    drop (Z.to_nat (num_registers s)) (registers s')
    = drop (Z.to_nat (num_registers s)) (registers s).
Proof.
  unfold update_all_registers. intros H.
  apply bind_Ok in H as ([s1 r1] & w1 & Hloop & H).
  apply ret_Ok in H as [-> _].
  pose (I := fun (i : Z) (s1 : monitor_system_t) (_ : world) =>
               0 <= i /\ num_registers s1 = num_registers s /\
               Forall2 refreshes (take (Z.to_nat i) (registers s))
                                 (take (Z.to_nat i) (registers s1)) /\
               drop (Z.to_nat i) (registers s1)
               = drop (Z.to_nat i) (registers s)).
  apply (for_loop_all_passes update_register I) in Hloop.
  - destruct Hloop as (_ & _ & Hnum & Hdone & Hrest). cbn in *.
    replace (Z.to_nat (0 + Z.of_nat (Z.to_nat (num_registers s))))
      with (Z.to_nat (num_registers s)) in * by lia.
    eexists. split; [reflexivity |].
    unfold visited_registers. cbn. rewrite Hnum. auto.
  - intros i s2 w2 c s3 w3 (Hi & Hnum & Hdone & Hrest) Hstep.
    pose proof (update_register_frame _ _ _ _ _ _ Hstep) as (-> & _ & _).
    apply update_register_exact in Hstep as (r & _ & Hr & -> & _).
    split; [reflexivity |]. unfold I; cbn.
    rewrite (to_nat_succ i Hi).
    destruct (refresh_step _ _ _ _ _ Hdone Hrest Hr (next_read_refreshes w2 r))
      as [Hdone' Hrest'].
    repeat apply conj; try assumption; lia.
  - unfold I; cbn. repeat apply conj; try reflexivity; try lia. constructor.
Qed.

(** [count_valid_registers] counts the valid flags of the visited registers
    and touches nothing. *)
Lemma count_valid_registers_exact (s : monitor_system_t) (n : Z) (w w' : world) :
  count_valid_registers (Some s) w = Ok n w' ->
  w' = w /\ n = count_valid (visited_registers s).
Proof.
  unfold count_valid_registers. intros H.
  apply bind_Ok in H as ([n1 r1] & w1 & Hloop & H).
  apply ret_Ok in H as [-> ->].
  pose (I := fun (i : Z) (count : Z) (w1 : world) =>
               0 <= i /\ w1 = w /\
               count = count_valid (take (Z.to_nat i) (registers s))).
  apply (for_loop_all_passes _ I) in Hloop.
  - destruct Hloop as (_ & _ & -> & Hn). cbn in *.
    replace (Z.to_nat (0 + Z.of_nat (Z.to_nat (num_registers s))))
      with (Z.to_nat (num_registers s)) in Hn by lia.
    auto.
  - intros i count w2 c count' w3 (Hi & -> & Hcount) Hstep.
    apply bind_Ok in Hstep as (r & w2 & Hget & Hstep).
    apply array_get_Ok in Hget as (-> & _ & Hr).
    unfold I. rewrite (to_nat_succ i Hi), (take_S_r _ _ r Hr), count_valid_app.
    unfold count_valid at 2. cbn.
    destruct (is_valid r); invert_M Hstep;
      repeat apply conj; try reflexivity; cbn; lia.
  - unfold I; cbn. repeat apply conj; try reflexivity; lia.
Qed.

Lemma refreshes_flags_consistent (l l' : list register_info_t) :
  Forall2 refreshes l l' -> flags_consistent l'.
Proof.
  induction 1 as [|r r' l l' (v & _ & ->) _ IH]; constructor;
    [reflexivity | exact IH].
Qed.

Lemma refreshes_same_configuration (l l' : list register_info_t) :
  Forall2 refreshes l l' -> Forall2 same_configuration l l'.
Proof.
  intros H. eapply Forall2_impl; [exact H |].
  intros r r' (v & _ & ->). unfold same_configuration. cbn. tauto.
Qed.

Lemma refreshes_accepted (l l' : list register_info_t) :
  Forall2 refreshes l l' -> Forall accepts_simulated_reads l ->
  Forall (fun r => is_valid r = true) l' /\
  count_valid l' = Z.of_nat (length l').
Proof.
  induction 1 as [|r r' l l' (v & Hv & ->) _ IH]; intros Hacc.
  - split; [constructor | reflexivity].
  - apply Forall_cons in Hacc as [[Hmin Hmax] Hacc].
    destruct (IH Hacc) as [Hall Hcount].
    assert (Hvalid : is_valid (refreshed v r) = true).
    { cbn. unfold validate_register.
      destruct (Z.ltb_spec v (expected_min r)); [lia |].
      destruct (Z.gtb_spec v (expected_max r)); [lia | reflexivity]. }
    split; [constructor; assumption |].
    unfold count_valid in *. cbn [foldr length]. rewrite Hvalid, Hcount.
    cbn [bool_to_Z]. lia.
Qed.

(** The two refresh loops write the same table and leave the same world. *)
Lemma scan_update_loops_agree (k : nat) :
  forall (i : Z) (s1 s2 s1' s2' : monitor_system_t) (n1 n1' : Z)
         (r1 r2 : option Empty_set) (w w1 w2 : world),
    registers s1 = registers s2 ->
    for_loop k i scan_register (s1, n1) w = Ok ((s1', n1'), r1) w1 ->
    for_loop k i update_register s2 w = Ok (s2', r2) w2 ->
    registers s1' = registers s2' /\ w1 = w2.
Proof.
  induction k as [|k IH]; intros i s1 s2 s1' s2' n1 n1' r1 r2 w w1 w2 Hsame H1 H2;
    simpl in H1, H2.
  - apply ret_Ok in H1 as [Heq1 ->]. apply ret_Ok in H2 as [Heq2 ->].
    injection Heq1 as -> _ _. injection Heq2 as -> _. auto.
  - apply bind_Ok in H1 as ([c1 [s3 n3]] & w3 & Hstep1 & H1).
    apply bind_Ok in H2 as ([c2 s4] & w4 & Hstep2 & H2).
    pose proof (scan_register_frame _ _ _ _ _ _ _ _ Hstep1) as (-> & _).
    pose proof (update_register_frame _ _ _ _ _ _ Hstep2) as (-> & _).
    apply scan_register_exact in Hstep1 as (ra & _ & Hra & Hregs & _ & _ & ->).
    apply update_register_exact in Hstep2 as (rb & _ & Hrb & -> & ->).
    rewrite Hsame in Hra, Hregs.
    assert (ra = rb) as -> by congruence.
    eapply IH; [| exact H1 | exact H2]. exact Hregs.
Qed.

Lemma count_test_Ok (b : bool) (k k' : Z) (w w' : world) :
  (if b then int_result (k + 1) else mret k) w = Ok k' w' ->
  k' = k + bool_to_Z b /\ w' = w.
Proof.
  destruct b; intros H; invert_M H; cbn; split; try reflexivity; lia.
Qed.

(** [run_comprehensive_test] returns the number of reading tests passed
    plus the number of visited registers whose stored value is in range,
    and touches nothing. *)
Lemma run_comprehensive_test_exact (s : monitor_system_t) (n : Z) (w w' : world) :
  run_comprehensive_test (Some s) w = Ok n w' ->
  w' = w /\ n = reading_tests_passed s + count_in_range (visited_registers s).
Proof.
  unfold run_comprehensive_test. intros H.
  apply bind_Ok in H as (t1 & w1 & Ht & H).
  apply int_result_Ok in Ht as (-> & -> & _).
  apply bind_Ok in H as (p1 & w1 & Hp & H). apply count_test_Ok in Hp as [-> ->].
  apply bind_Ok in H as (t2 & w1 & Ht & H).
  apply int_result_Ok in Ht as (-> & -> & _).
  apply bind_Ok in H as (p2 & w1 & Hp & H). apply count_test_Ok in Hp as [-> ->].
  apply bind_Ok in H as (t3 & w1 & Ht & H).
  apply int_result_Ok in Ht as (-> & -> & _).
  apply bind_Ok in H as (p3 & w1 & Hp & H). apply count_test_Ok in Hp as [-> ->].
  apply bind_Ok in H as ([[tp tt1] r1] & w1 & Hloop & H).
  cbn in H. apply ret_Ok in H as [-> ->].
  pose (I := fun (i : Z) (st : Z * Z) (w1 : world) =>
               0 <= i /\ w1 = w /\
               fst st = reading_tests_passed s
                        + count_in_range (take (Z.to_nat i) (registers s))).
  apply (for_loop_all_passes _ I) in Hloop.
  - destruct Hloop as (_ & _ & -> & Hn). cbn in Hn.
    replace (Z.to_nat (0 + Z.of_nat (Z.to_nat (num_registers s))))
      with (Z.to_nat (num_registers s)) in Hn by lia.
    auto.
  - intros i [tp2 tt2] w2 c [tp3 tt3] w3 (Hi & -> & Hcount) Hstep. cbn in Hcount.
    apply bind_Ok in Hstep as (t & w2 & Ht & Hstep).
    apply int_result_Ok in Ht as (-> & -> & _).
    apply bind_Ok in Hstep as (r & w2 & Hget & Hstep).
    apply array_get_Ok in Hget as (-> & _ & Hr).
    unfold I. rewrite (to_nat_succ i Hi), (take_S_r _ _ r Hr), count_in_range_app.
    unfold count_in_range at 2. cbn [foldr fst]. unfold in_expected_range.
    destruct (validate_register _ _ _ _); invert_M Hstep;
      repeat apply conj; try reflexivity; cbn; lia.
  - unfold I, reading_tests_passed; cbn. repeat apply conj; try reflexivity; try lia.
    change (Z.to_nat 0) with 0%nat. rewrite take_0. unfold count_in_range. cbn. lia.
Qed.

(** The simulated read ignores its address and never wraps around: the
    value is 0x12345678 plus a multiple of 16 up to 0xF0.  It depends on the
    call counter modulo 16 alone, so that it repeats after sixteen reads,
    also across the wrap-around of the 32-bit counter. *)
Theorem read_register_band_and_period (addr addr' : Z) (w w16 : world) :
  reads 16 w w16 ->
  exists v,
    read_register addr w = Ok v (set_counter (wrap32 (counter w + 1)) w) /\
    read_register addr' w = Ok v (set_counter (wrap32 (counter w + 1)) w) /\
    305419896 <= v <= 305420136 /\ (v - 305419896) mod 16 = 0 /\
    read_register addr w16 = Ok v (set_counter (wrap32 (counter w16 + 1)) w16).
Proof.
  intros (_ & _ & _ & Hcounter).
  destruct (read_register_intro addr w) as (v & Hv).
  destruct (read_register_intro addr' w) as (v' & Hv').
  destruct (read_register_intro addr w16) as (v16 & Hv16).
  pose proof (read_register_value _ _ _ _ Hv) as (Hval & Hband & _).
  pose proof (read_register_value _ _ _ _ Hv') as (Hval' & _ & _).
  pose proof (read_register_value _ _ _ _ Hv16) as (Hval16 & _ & _).
  assert (Hperiod : wrap32 (counter w16 + 1) mod 16 = wrap32 (counter w + 1) mod 16).
  { unfold wrap32, UINT32_MODULUS in *.
    assert (Hdiv : (16 | 4294967296)) by (exists 268435456; reflexivity).
    rewrite !(Z.mod_mod_divide _ 4294967296 16 Hdiv).
    rewrite <- (Z.add_mod_idemp_l (counter w16)) by lia.
    rewrite <- (Z.mod_mod_divide (counter w16) 4294967296 16 Hdiv), Hcounter.
    rewrite (Z.mod_mod_divide _ 4294967296 16 Hdiv).
    rewrite Z.add_mod_idemp_l by lia.
    replace (counter w + 16 + 1) with (counter w + 1 + 1 * 16) by lia.
    apply Z_mod_plus_full. }
  exists v. subst v' v16. rewrite Hperiod in Hv16. rewrite <- Hval in Hv', Hv16.
  repeat apply conj; try assumption; try lia.
  rewrite Hval. replace (305419896 + 16 * _ - 305419896)
    with (wrap32 (counter w + 1) mod 16 * 16) by lia.
  apply Z_mod_mult.
Qed.

Lemma read_register_band_and_period_witness :
  reads 16 boot_world (set_counter 16 boot_world) /\
  exists v,
    read_register 1073741824 boot_world = Ok v (set_counter 1 boot_world) /\
    read_register 1073741824 (set_counter 16 boot_world)
    = Ok v (set_counter 17 boot_world).
Proof.
  assert (H16 : reads 16 boot_world (set_counter 16 boot_world))
    by (repeat apply conj; reflexivity).
  split; [exact H16 |].
  destruct (read_register_band_and_period 1073741824 0 _ _ H16)
    as (v & Hv & _ & _ & _ & Hv16).
  exists v. split; [exact Hv | exact Hv16].
Defined.

(** ** The register loops *)

(** After a scan every visited register carries the value read for it and
    a valid flag that agrees with that value; the address, the expected
    range and the name are as before and the registers beyond
    [num_registers] are untouched.  The number returned is the number of
    valid flags, which is what [count_valid_registers] returns when it is
    called next. *)
Theorem scan_counts_the_flags_it_sets (s s' : monitor_system_t) (n : Z)
    (w w' : world) :
  scan_all_registers (Some s) w = Ok (n, Some s') w' ->
  flags_consistent (visited_registers s') /\
  n = count_valid (visited_registers s') /\
  n = count_in_range (visited_registers s') /\
  Forall2 same_configuration (visited_registers s) (visited_registers s') /\
  drop (Z.to_nat (num_registers s)) (registers s')
  = drop (Z.to_nat (num_registers s)) (registers s) /\
  (registers_in_bounds s = true ->
   count_valid_registers (Some s') w' = Ok n w').
Proof.
  intros H.
  pose proof (scan_all_registers_frame _ _ _ _ _ H) as (s1 & Heq & Hframe & _).
  injection Heq as <-.
  apply scan_all_registers_exact in H
    as (s1 & Heq & Hnum & Hdone & Hrest & Hn & _ & _).
  injection Heq as <-.
  pose proof (refreshes_flags_consistent _ _ Hdone) as Hflags.
  repeat apply conj; try assumption.
  - rewrite Hn. now apply flags_consistent_count.
  - now apply refreshes_same_configuration.
  - intros Hb.
    assert (Hb' : registers_in_bounds s' = true).
    { destruct Hframe as (_ & _ & _ & _ & _ & Hnum' & Hlen).
      unfold registers_in_bounds in *. now rewrite Hnum', Hlen. }
    destruct (count_valid_registers_defined s' w' Hb') as (m & w2 & Hcount).
    pose proof (count_valid_registers_exact _ _ _ _ Hcount) as [-> ->].
    now rewrite Hn.
Qed.

Lemma scan_counts_the_flags_it_sets_witness :
  exists s' w',
    scan_all_registers (Some control_failure_system) boot_world
    = Ok (3, Some s') w' /\
    registers_in_bounds control_failure_system = true /\
    3 = count_in_range (visited_registers s') /\
    count_valid_registers (Some s') w' = Ok 3 w'.
Proof.
  eexists _, _. split; [vm_compute; reflexivity |]. split; [reflexivity |].
  match goal with
  | |- _ = count_in_range (visited_registers ?s') /\
       count_valid_registers _ ?w' = _ =>
      destruct (scan_counts_the_flags_it_sets control_failure_system s' 3
                  boot_world w' eq_refl)
        as (_ & _ & Hrange & _ & _ & Hcount)
  end.
  split; [exact Hrange | exact (Hcount eq_refl)].
Defined.

(** When the expected range of every visited register contains the band of
    the simulated read, as the ranges set by [init_monitor_system] do, a
    scan finds every register valid, returns [num_registers] and counts no
    error. *)
Theorem scan_passes_on_accepting_ranges (s s' : monitor_system_t) (n : Z)
    (w w' : world) :
  Forall accepts_simulated_reads (visited_registers s) ->
  scan_all_registers (Some s) w = Ok (n, Some s') w' ->
  n = Z.max 0 (num_registers s) /\ error_count s' = error_count s /\
  Forall (fun r => is_valid r = true) (visited_registers s').
Proof.
  intros Hacc H.
  apply scan_all_registers_exact in H
    as (s1 & Heq & Hnum & Hdone & _ & Hn & He & Hlen).
  injection Heq as <-.
  destruct (refreshes_accepted _ _ Hdone Hacc) as [Hall Hcount].
  assert (Hfull : n = Z.max 0 (num_registers s)).
  { rewrite Hn, Hcount. unfold visited_registers.
    rewrite Hnum, length_take. lia. }
  repeat apply conj; [exact Hfull | lia | exact Hall].
Qed.

Lemma scan_passes_on_accepting_ranges_witness :
  Forall accepts_simulated_reads (visited_registers nominal_system) /\
  exists s' w',
    scan_all_registers (Some nominal_system) boot_world = Ok (4, Some s') w' /\
    error_count s' = error_count nominal_system.
Proof.
  assert (Hacc : Forall accepts_simulated_reads (visited_registers nominal_system))
    by (repeat constructor; cbn; lia).
  split; [exact Hacc |].
  eexists _, _. split; [vm_compute; reflexivity |].
  match goal with
  | |- error_count ?s' = _ =>
      exact (proj1 (proj2 (scan_passes_on_accepting_ranges nominal_system s' 4
                             boot_world _ Hacc eq_refl)))
  end.
Defined.

(** After an update every visited register carries the value read for it
    and a valid flag that agrees with that value, the stored status is the
    status of the stored readings, the configuration of the registers is as
    before and the registers beyond [num_registers] are untouched. *)
Theorem update_refreshes_flags_and_status (s s' : monitor_system_t)
    (w w' : world) :
  update_all_registers (Some s) w = Ok (Some s') w' ->
  flags_consistent (visited_registers s') /\
  status s' = derived_status s' /\
  Forall2 same_configuration (visited_registers s) (visited_registers s') /\
  drop (Z.to_nat (num_registers s)) (registers s')
  = drop (Z.to_nat (num_registers s)) (registers s) /\
  (Forall accepts_simulated_reads (visited_registers s) ->
   Forall (fun r => is_valid r = true) (visited_registers s')).
Proof.
  intros H.
  pose proof (update_all_registers_frame _ _ _ _ H)
    as (s1 & Heq & Hv & Ht & Hc & _ & _ & _ & _ & Hst).
  injection Heq as <-.
  apply update_all_registers_exact in H as (s1 & Heq & Hdone & Hrest).
  injection Heq as <-.
  repeat apply conj; try assumption.
  - eapply refreshes_flags_consistent; eassumption.
  - rewrite Hst. unfold derived_status. now rewrite Hv, Ht, Hc.
  - now apply refreshes_same_configuration.
  - intros Hacc. now destruct (refreshes_accepted _ _ Hdone Hacc).
Qed.

Lemma update_refreshes_flags_and_status_witness :
  exists s' w',
    update_all_registers (Some stale_warning_system) boot_world = Ok (Some s') w' /\
    status stale_warning_system = STATUS_WARNING /\
    status s' = derived_status s' /\ status s' = STATUS_NORMAL.
Proof.
  eexists _, _. split; [vm_compute; reflexivity |]. split; [reflexivity |].
  split; [| reflexivity].
  match goal with
  | |- status ?s' = _ =>
      exact (proj1 (proj2 (update_refreshes_flags_and_status stale_warning_system
                             s' boot_world _ eq_refl)))
  end.
Defined.

(** From the same struct and the same read counter, [scan_all_registers]
    and [update_all_registers] write the same register table and leave the
    same world, and both leave the readings, the active flag and
    [num_registers] as they were.  The two results differ in [error_count]
    and [status] only: the scan books the failures in [error_count] and
    leaves [status], the update recomputes [status] and leaves
    [error_count]. *)
Theorem scan_and_update_refresh_alike (s s1 s2 : monitor_system_t) (n : Z)
    (w w1 w2 : world) :
  scan_all_registers (Some s) w = Ok (n, Some s1) w1 ->
  update_all_registers (Some s) w = Ok (Some s2) w2 ->
  registers s1 = registers s2 /\ w1 = w2 /\
  voltage s1 = voltage s /\ voltage s2 = voltage s /\
  temperature s1 = temperature s /\ temperature s2 = temperature s /\
  current s1 = current s /\ current s2 = current s /\
  system_active s1 = system_active s /\ system_active s2 = system_active s /\
  num_registers s1 = num_registers s /\ num_registers s2 = num_registers s /\
  s1 = set_error_count (error_count s1) (set_status (status s1) s2) /\
  error_count s1 = error_count s2 + (Z.max 0 (num_registers s) - n) /\
  error_count s2 = error_count s /\
  status s1 = status s /\ status s2 = derived_status s.
Proof.
  intros Hscan Hupd.
  pose proof (scan_all_registers_frame _ _ _ _ _ Hscan)
    as (s3 & Heq & Hframe & _ & He & _).
  injection Heq as <-.
  pose proof (update_all_registers_frame _ _ _ _ Hupd)
    as (s3 & Heq & Hv2 & Ht2 & Hc2 & He2 & Ha2 & Hn2 & _ & Hst2).
  injection Heq as <-.
  unfold scan_all_registers in Hscan. unfold update_all_registers in Hupd.
  apply bind_Ok in Hscan as ([[s3 n3] r3] & w3 & Hloop1 & Hscan).
  cbn in Hscan. apply ret_Ok in Hscan as [Heq ->]. injection Heq as -> ->.
  apply bind_Ok in Hupd as ([s4 r4] & w4 & Hloop2 & Hupd).
  apply ret_Ok in Hupd as [Heq ->]. injection Heq as ->.
  destruct (scan_update_loops_agree _ _ _ _ _ _ _ _ _ _ _ _ _ eq_refl Hloop1 Hloop2)
    as [Hregs ->].
  destruct Hframe as (Hv1 & Ht1 & Hc1 & Hst & Ha1 & Hn1 & _).
  set (s2 := set_status _ s4) in *.
  assert (Hrecord : s3 = set_error_count (error_count s3)
                           (set_status (status s3) s2)).
  { subst s2. destruct s3, s4. cbn in *. clear Hloop1 Hloop2. subst.
    reflexivity. }
  split; [exact Hregs |]. split; [reflexivity |].
  split; [exact Hv1 |]. split; [exact Hv2 |].
  split; [exact Ht1 |]. split; [exact Ht2 |].
  split; [exact Hc1 |]. split; [exact Hc2 |].
  split; [exact Ha1 |]. split; [exact Ha2 |].
  split; [exact Hn1 |]. split; [exact Hn2 |].
  split; [exact Hrecord |]. split; [lia |]. split; [exact He2 |].
  split; [exact Hst | exact Hst2].
Qed.

Lemma scan_and_update_refresh_alike_witness :
  exists n s1 s2 w1,
    scan_all_registers (Some control_failure_system) boot_world
    = Ok (n, Some s1) w1 /\
    update_all_registers (Some control_failure_system) boot_world
    = Ok (Some s2) w1 /\
    registers s1 = registers s2 /\ error_count s1 = 1 /\ error_count s2 = 0.
Proof.
  eexists _, _, _, _. split; [vm_compute; reflexivity |].
  split; [vm_compute; reflexivity |].
  split; [| split; reflexivity].
  match goal with
  | |- registers ?s1 = registers ?s2 =>
      exact (proj1 (scan_and_update_refresh_alike control_failure_system s1 s2 3
                      boot_world _ _ eq_refl eq_refl))
  end.
Defined.

(** On a register table in bounds [run_comprehensive_test] returns, changes
    nothing, and its result is the number of reading tests passed plus the
    number of visited registers whose stored value lies in the expected
    range: between 0 and [3 + num_registers].  The stored valid flags are
    not consulted, but where they agree with the values, as after a scan or
    an update, the register part is what [count_valid_registers] returns. *)
Theorem run_comprehensive_test_counts (s : monitor_system_t) (w : world) :
  registers_in_bounds s = true ->
  exists n,
    run_comprehensive_test (Some s) w = Ok n w /\
    n = reading_tests_passed s + count_in_range (visited_registers s) /\
    0 <= n <= 3 + Z.max 0 (num_registers s) /\
    (flags_consistent (visited_registers s) ->
     count_valid_registers (Some s) w = Ok (n - reading_tests_passed s) w).
Proof.
  intros Hb.
  destruct (run_comprehensive_test_defined s w Hb) as (n & w' & Hrun).
  pose proof (run_comprehensive_test_exact _ _ _ _ Hrun) as [-> Hn].
  exists n. split; [exact Hrun |]. split; [exact Hn |].
  split.
  - pose proof (count_in_range_bounds (visited_registers s)) as Hcount.
    assert (Hlen : (length (visited_registers s) <= Z.to_nat (num_registers s))%nat)
      by (unfold visited_registers; rewrite length_take; lia).
    unfold reading_tests_passed, bool_to_Z in Hn.
    destruct (test_voltage_levels _), (test_current_consumption _),
      (test_temperature_range _); lia.
  - intros Hflags.
    destruct (count_valid_registers_defined s w Hb) as (m & w' & Hcount).
    pose proof (count_valid_registers_exact _ _ _ _ Hcount) as [-> ->].
    rewrite Hcount. f_equal.
    rewrite (flags_consistent_count _ Hflags). lia.
Qed.

Lemma run_comprehensive_test_counts_witness :
  registers_in_bounds nominal_system = true /\
  run_comprehensive_test (Some nominal_system) boot_world = Ok 7 boot_world /\
  flags_consistent (visited_registers nominal_system) /\
  count_valid_registers (Some nominal_system) boot_world = Ok 4 boot_world.
Proof.
  split; [reflexivity |].
  destruct (run_comprehensive_test_counts nominal_system boot_world eq_refl)
    as (n & Hrun & Hn & _ & Hcount).
  assert (Hflags : flags_consistent (visited_registers nominal_system))
    by (repeat constructor).
  assert (n = 7) as -> by (rewrite Hn; reflexivity).
  repeat apply conj; [exact Hrun | exact Hflags | exact (Hcount Hflags)].
Defined.

(** ** Initialisation *)

Lemma init_register_step (base_addr i : Z) (s : monitor_system_t) (w : world)
    (reg_name : string) :
  0 <= i < Z.of_nat (length (registers s)) ->
  reg_names !! Z.to_nat i = Some reg_name ->
  init_register base_addr i s w
  = Ok (Next,
        set_registers
          (<[Z.to_nat i := mk_register_info (wrap32 (base_addr + i * 4))
                             (wrap32 (305419896 + i)) 268435456 536870912 true
                             (String.substring 0 31 reg_name)]> (registers s))
          s) w.
Proof.
  intros Hi Hname. unfold init_register, array_get.
  destruct (Z.ltb_spec i 0); [exfalso; lia |]. rewrite Hname.
  rewrite ret_bind. forward_M. reflexivity.
Qed.

(** Whatever the struct held, [init_monitor_system] leaves the nominal
    system, except that the register slots from index 4 on keep their
    contents. *)
Lemma init_monitor_system_exact (s : monitor_system_t) (w : world) :
  (4 <= length (registers s))%nat ->
  init_monitor_system (Some s) w
  = Ok (Some (set_registers (take 4 (registers nominal_system)
                             ++ drop 4 (registers s)) nominal_system)) w.
Proof.
  intros Hlen. destruct s as [v t c st e a regs num]. cbn in Hlen.
  destruct regs as [|r0 [|r1 [|r2 [|r3 tail]]]]; cbn in Hlen; try lia.
  clear Hlen.
  unfold init_monitor_system.
  cbn [num_registers set_num_registers set_system_active set_error_count
       set_status set_current set_temperature set_voltage registers
       voltage temperature current status error_count system_active].
  change (Z.to_nat 4) with 4%nat. cbn [for_loop].
  do 4 (rewrite ?bind_assoc;
        erewrite bind_Ok_intro
          by (apply init_register_step;
              [repeat (cbn [registers set_num_registers set_system_active
                            set_error_count set_status set_current
                            set_temperature set_voltage set_registers];
                       rewrite ?length_insert);
               cbn [length]; lia
              | reflexivity]);
        cbn beta iota).
  reflexivity.
Qed.

(** On a table of at least four slots [init_monitor_system] returns and
    leaves the world alone.  The struct it leaves has the readings 3.3 V,
    25 degrees and 0.5 A, status NORMAL, no errors, the active flag set and
    four registers: CTRL_REG, STATUS_REG, DATA_REG and CONFIG_REG at
    0x40000000, 0x40000004, 0x40000008 and 0x4000000C, holding 0x12345678
    to 0x1234567B, expected in 0x10000000 .. 0x20000000 and flagged valid.
    It does not depend on what the struct held before, the register slots
    from index 4 on apart, and initialising it again changes nothing.  It
    is not critical, its status is the status of its readings, and its four
    registers are consistent with their values and wide enough for every
    simulated read. *)
Theorem init_monitor_system_postcondition (s : monitor_system_t) (w : world) :
  (4 <= length (registers s))%nat ->
  exists s',
    init_monitor_system (Some s) w = Ok (Some s') w /\
    s' = mk_monitor_system
           (F32.literal 33 10) (F32.literal 250 10) (F32.literal 5 10)
           STATUS_NORMAL 0 true
           ([mk_register_info 1073741824 305419896 268435456 536870912 true
                              "CTRL_REG";
             mk_register_info 1073741828 305419897 268435456 536870912 true
                              "STATUS_REG";
             mk_register_info 1073741832 305419898 268435456 536870912 true
                              "DATA_REG";
             mk_register_info 1073741836 305419899 268435456 536870912 true
                              "CONFIG_REG"] ++ drop 4 (registers s))
           4 /\
    init_monitor_system (Some s') w = Ok (Some s') w /\
    length (registers s') = length (registers s) /\
    check_critical_conditions (Some s') = false /\
    status s' = derived_status s' /\
    flags_consistent (visited_registers s') /\
    Forall accepts_simulated_reads (visited_registers s').
Proof.
  intros Hlen. eexists. split; [apply init_monitor_system_exact, Hlen |].
  split; [reflexivity |].
  assert (Hlen' : length (take 4 (registers nominal_system)
                          ++ drop 4 (registers s)) = length (registers s)).
  { rewrite length_app, length_drop. cbn. lia. }
  split.
  - rewrite init_monitor_system_exact by (cbn [registers set_registers]; lia).
    cbn [registers set_registers].
    rewrite drop_app_length' by reflexivity. reflexivity.
  - split; [exact Hlen' |]. split; [reflexivity |]. split; [reflexivity |].
    split; repeat constructor; cbn; lia.
Qed.

Lemma init_monitor_system_postcondition_witness :
  (4 <= length (registers overheated_system))%nat /\
  exists s',
    init_monitor_system (Some overheated_system) boot_world
    = Ok (Some s') boot_world /\
    error_count overheated_system = 5 /\ error_count s' = 0 /\
    validate_temperature_range (temperature s') = true /\
    (name <$> visited_registers s')
    = ["CTRL_REG"; "STATUS_REG"; "DATA_REG"; "CONFIG_REG"].
Proof.
  assert (Hlen : (4 <= length (registers overheated_system))%nat) by (cbn; lia).
  split; [exact Hlen |].
  destruct (init_monitor_system_postcondition overheated_system boot_world Hlen)
    as (s' & Hinit & -> & _).
  eexists. split; [exact Hinit |]. repeat apply conj; reflexivity.
Defined.

(** A struct with its sixteen register slots, initialised and then scanned:
    both calls return, the scan makes four reads, finds the four registers
    valid and counts no error, and afterwards [count_valid_registers]
    returns 4 and [run_comprehensive_test] passes its seven tests. *)
Theorem initialised_system_scans_clean (s : monitor_system_t) (w : world) :
  Z.of_nat (length (registers s)) = MAX_REGISTERS ->
  exists s1 s2 w',
    init_monitor_system (Some s) w = Ok (Some s1) w /\
    scan_all_registers (Some s1) w = Ok (4, Some s2) w' /\
    error_count s2 = 0 /\ reads 4 w w' /\
    count_valid_registers (Some s2) w' = Ok 4 w' /\
    run_comprehensive_test (Some s2) w' = Ok 7 w'.
Proof.
  unfold MAX_REGISTERS. intros Hlen.
  set (s1 := set_registers (take 4 (registers nominal_system)
                            ++ drop 4 (registers s)) nominal_system).
  assert (Hinit : init_monitor_system (Some s) w = Ok (Some s1) w)
    by (apply init_monitor_system_exact; lia).
  assert (Hlen1 : length (registers s1) = length (registers s)).
  { unfold s1. cbn [registers set_registers].
    rewrite length_app, length_drop. cbn. lia. }
  assert (Hb1 : registers_in_bounds s1 = true).
  { unfold registers_in_bounds, MAX_REGISTERS. rewrite Hlen1.
    apply andb_true_intro. split; [lia | reflexivity]. }
  assert (Hacc : Forall accepts_simulated_reads (visited_registers s1))
    by (repeat constructor; cbn; lia).
  destruct (scan_all_registers_defined s1 w) as (n & s2 & w' & Hscan).
  { unfold wf_system. rewrite Hb1. reflexivity. }
  { cbn. unfold INT_MAX. lia. }
  pose proof (scan_all_registers_frame _ _ _ _ _ Hscan)
    as (s3 & Heq & Hframe & _ & _ & Hreads).
  injection Heq as <-.
  pose proof (scan_all_registers_exact _ _ _ _ _ Hscan)
    as (s3 & Heq & Hnum & Hdone & _ & Hn & He & Hsize).
  injection Heq as <-.
  destruct (refreshes_accepted _ _ Hdone Hacc) as [_ Hvalid].
  change (num_registers s1) with 4 in *.
  assert (n = 4) as ->.
  { rewrite Hn, Hvalid. unfold visited_registers.
    rewrite Hnum, length_take. lia. }
  change (Z.max 0 4) with 4 in *.
  assert (Hb2 : registers_in_bounds s2 = true).
  { destruct Hframe as (_ & _ & _ & _ & _ & Hnum' & Hlen2).
    unfold registers_in_bounds in *. now rewrite Hnum', Hlen2. }
  destruct Hframe as (Hv & Ht & Hc & _).
  destruct (count_valid_registers_defined s2 w' Hb2) as (m & w2 & Hcount).
  pose proof (count_valid_registers_exact _ _ _ _ Hcount) as [-> ->].
  rewrite <- Hn in Hcount.
  destruct (run_comprehensive_test_defined s2 w' Hb2) as (k & w2 & Hrun).
  pose proof (run_comprehensive_test_exact _ _ _ _ Hrun) as [-> ->].
  rewrite <- (flags_consistent_count _ (refreshes_flags_consistent _ _ Hdone)),
          <- Hn in Hrun.
  replace (reading_tests_passed s2) with 3 in Hrun
    by (unfold reading_tests_passed; rewrite Hv, Ht, Hc; reflexivity).
  exists s1, s2, w'.
  split; [exact Hinit |]. split; [exact Hscan |]. split; [exact He |].
  split; [exact Hreads |]. split; [exact Hcount | exact Hrun].
Qed.

Lemma initialised_system_scans_clean_witness :
  Z.of_nat (length (registers zeroed_system)) = MAX_REGISTERS /\
  exists s1 s2 w',
    init_monitor_system (Some zeroed_system) boot_world = Ok (Some s1) boot_world /\
    scan_all_registers (Some s1) boot_world = Ok (4, Some s2) w' /\
    run_comprehensive_test (Some s2) w' = Ok 7 w'.
Proof.
  split; [reflexivity |].
  destruct (initialised_system_scans_clean zeroed_system boot_world eq_refl)
    as (s1 & s2 & w' & Hinit & Hscan & _ & _ & _ & Hrun).
  exists s1, s2, w'. auto.
Defined.

(** ** The monitoring loop *)

(** An update reads registers and does nothing else to the world. *)
Lemma update_all_registers_world (s : monitor_system_t)
    (r : option monitor_system_t) (w w' : world) :
  update_all_registers (Some s) w = Ok r w' ->
  recovery_state w' = recovery_state w /\ time_source w' = time_source w /\
  time_calls w' = time_calls w.
Proof.
  unfold update_all_registers. intros H.
  apply bind_Ok in H as ([s1 r1] & w1 & Hloop & H).
  apply ret_Ok in H as [_ ->].
  apply (for_loop_invariant update_register
           (fun _ w1 => recovery_state w1 = recovery_state w /\
                        time_source w1 = time_source w /\
                        time_calls w1 = time_calls w))
    in Hloop; [exact Hloop | | tauto].
  intros i s2 w2 c s3 w3 Hkept Hstep.
  apply update_register_frame in Hstep as (_ & _ & ->). exact Hkept.
Qed.

(** A pass of the monitoring loop changes the register table and the
    status, and nothing else in the struct; in the world it reads the clock
    and the registers. *)
Lemma monitoring_step_keeps (start_time duration_seconds : Z)
    (s s' : monitor_system_t) (n n' : Z) (c : control Empty_set) (w w' : world) :
  monitoring_step start_time duration_seconds (s, n) w = Ok (c, (s', n')) w' ->
  (voltage s' = voltage s /\ temperature s' = temperature s /\
   current s' = current s /\ system_active s' = system_active s /\
   num_registers s' = num_registers s /\
   length (registers s') = length (registers s)) /\
  recovery_state w' = recovery_state w.
Proof.
  unfold monitoring_step. intros H.
  apply bind_Ok in H as (t & w1 & Ht & H).
  apply time_now_Ok in Ht as [-> ->].
  destruct (_ >=? _).
  - apply ret_Ok in H as [Heq ->]. injection Heq as _ <- _. cbn. tauto.
  - apply bind_Ok in H as (upd & w2 & Hupd & H).
    pose proof (update_all_registers_world _ _ _ _ Hupd) as (Hrs & _ & _).
    apply update_all_registers_frame in Hupd
      as (s2 & -> & Hv & Hte & Hc & _ & Ha & Hnum & Hlen & _).
    destruct (check_critical_conditions (Some s2)).
    { apply ret_Ok in H as [Heq ->]. injection Heq as _ <- _. cbn in Hrs. tauto. }
    destruct (error_count s2 >=? MAX_ERRORS).
    { apply ret_Ok in H as [Heq ->]. injection Heq as _ <- _. cbn in Hrs. tauto. }
    invert_M H. cbn in Hrs. tauto.
Qed.

(** The passes of the monitoring loop, taken together. *)
Lemma monitoring_passes_keep (fuel : nat) (start_time duration_seconds : Z)
    (s s' : monitor_system_t) (n n' : Z) (w w' : world) :
  while_loop fuel (fun st => system_active (fst st))
             (monitoring_step start_time duration_seconds) (s, n) w
  = Ok (s', n') w' ->
  (voltage s' = voltage s /\ temperature s' = temperature s /\
   current s' = current s /\ system_active s' = system_active s /\
   num_registers s' = num_registers s /\
   length (registers s') = length (registers s)) /\
  recovery_state w' = recovery_state w.
Proof.
  intros Hloop.
  apply (while_loop_invariant _ _
           (fun st w1 =>
              (voltage (fst st) = voltage s /\ temperature (fst st) = temperature s /\
               current (fst st) = current s /\
               system_active (fst st) = system_active s /\
               num_registers (fst st) = num_registers s /\
               length (registers (fst st)) = length (registers s)) /\
              recovery_state w1 = recovery_state w))
    in Hloop; [exact Hloop | | cbn; tauto].
  intros [s3 n3] w3 c [s4 n4] w4 [Hkept Hrs] Hstep. cbn in *.
  apply monitoring_step_keeps in Hstep as [Hkept' Hrs'].
  split; [| congruence].
  destruct Hkept as (? & ? & ? & ? & ? & ?), Hkept' as (? & ? & ? & ? & ? & ?).
  repeat apply conj; congruence.
Qed.

(** The monitoring loop changes the register table and the status field:
    the readings, the error counter, the active flag, [num_registers] and
    the recovery state are as before.  In particular the loop condition
    [system_active] never turns false inside the loop, which is left by
    [break] only. *)
Theorem monitoring_loop_only_refreshes (fuel : nat) (s : monitor_system_t)
    (duration_seconds : Z) (r : option monitor_system_t) (w w' : world) :
  continuous_monitoring_loop fuel (Some s) duration_seconds w = Ok r w' ->
  exists s', r = Some s' /\
    voltage s' = voltage s /\ temperature s' = temperature s /\
    current s' = current s /\ error_count s' = error_count s /\
    system_active s' = system_active s /\
    num_registers s' = num_registers s /\
    length (registers s') = length (registers s) /\
    (status s' = status s \/ status s' = derived_status s) /\
    recovery_state w' = recovery_state w.
Proof.
  intros H.
  pose proof (continuous_monitoring_loop_frame _ _ _ _ _ _ H)
    as (s1 & -> & He & Hst).
  exists s1. split; [reflexivity |].
  unfold continuous_monitoring_loop in H.
  destruct (duration_seconds <=? 0).
  { apply ret_Ok in H as [Heq ->]. injection Heq as ->. tauto. }
  apply bind_Ok in H as (start_time & w1 & Ht & H).
  apply time_now_Ok in Ht as [_ ->].
  apply bind_Ok in H as ([s2 n2] & w2 & Hloop & H).
  apply ret_Ok in H as [Heq ->]. injection Heq as ->.
  apply monitoring_passes_keep in Hloop as [Hkept Hrs]. cbn in Hrs. tauto.
Qed.

Lemma monitoring_loop_only_refreshes_witness :
  exists s' w',
    continuous_monitoring_loop 3 (Some stale_warning_system) 2 boot_world
    = Ok (Some s') w' /\
    status stale_warning_system = STATUS_WARNING /\ status s' = STATUS_NORMAL /\
    error_count s' = error_count stale_warning_system /\
    system_active s' = system_active stale_warning_system.
Proof.
  eexists _, _. split; [vm_compute; reflexivity |].
  split; [reflexivity |]. split; [reflexivity |].
  match goal with
  | |- error_count ?s' = _ /\ _ =>
      destruct (monitoring_loop_only_refreshes 3 stale_warning_system 2
                  (Some s') boot_world _ eq_refl)
        as (s1 & Heq & _ & _ & _ & He & Ha & _)
  end.
  injection Heq as <-. auto.
Defined.

(** On an inactive system, or with a duration that is not positive, the
    monitoring loop makes no pass, whatever the number of passes granted:
    the struct comes back as it was, no register is read, and the clock is
    read once if the duration is positive and not at all otherwise.  This is
    the state that [cleanup_monitor_system] and [emergency_shutdown] leave. *)
Theorem monitoring_loop_idles_when_inactive (fuel : nat) (s : monitor_system_t)
    (duration_seconds : Z) (w : world) :
  system_active s = false \/ duration_seconds <= 0 ->
  continuous_monitoring_loop fuel (Some s) duration_seconds w
  = Ok (Some s) (if duration_seconds <=? 0 then w
                 else set_time_calls (S (time_calls w)) w).
Proof.
  intros Hidle. unfold continuous_monitoring_loop.
  destruct (Z.leb_spec duration_seconds 0) as [Hd | Hd]; [reflexivity |].
  destruct Hidle as [Hactive | Hd']; [| exfalso; lia].
  unfold time_now at 1, mbind at 1, M_bind at 1. cbn beta iota.
  destruct fuel; simpl; rewrite Hactive; reflexivity.
Qed.

Lemma monitoring_loop_idles_when_inactive_witness :
  cleanup_monitor_system (Some nominal_system)
  = Some (set_system_active false nominal_system) /\
  system_active (set_system_active false nominal_system) = false /\
  continuous_monitoring_loop 0 (Some (set_system_active false nominal_system))
                             60 boot_world
  = Ok (Some (set_system_active false nominal_system))
       (set_time_calls 1 boot_world).
Proof.
  split; [reflexivity |]. split; [reflexivity |].
  exact (monitoring_loop_idles_when_inactive
           0 (set_system_active false nominal_system) 60 boot_world
           (or_introl eq_refl)).
Defined.

Lemma critical_condition_persists (s s' : monitor_system_t) :
  voltage s' = voltage s -> temperature s' = temperature s ->
  current s' = current s -> error_count s' = error_count s ->
  (MAX_ERRORS <= error_count s \/
   validate_voltage_range (voltage s) = false \/
   validate_temperature_range (temperature s) = false \/
   (current s < F32.zero)%f32 = true) ->
  check_critical_conditions (Some s') = true.
Proof.
  intros Hv Ht Hc He Hcrit.
  unfold check_critical_conditions. rewrite Hv, Ht, Hc, He.
  unfold validate_voltage_range, validate_temperature_range in Hcrit.
  destruct (system_status_eqb (status s') STATUS_CRITICAL); [reflexivity |].
  destruct (Z.geb_spec (error_count s) MAX_ERRORS) as [? | Hroom];
    [reflexivity |].
  destruct (negb (system_active s')); [reflexivity |].
  destruct (temperature s > TEMP_CRITICAL)%f32; [reflexivity |].
  destruct (voltage s < MIN_VOLTAGE)%f32; [reflexivity |].
  destruct (voltage s > MAX_VOLTAGE)%f32; [reflexivity |].
  destruct (current s < F32.zero)%f32; [reflexivity |].
  destruct Hcrit as [H | [H | [H | H]]]; try discriminate H.
  - lia.
  - destruct (temperature s > TEMP_WARNING)%f32; discriminate H.
Qed.

Lemma while_loop_break {St} (fuel : nat) (cond : St -> bool)
    (body : St -> M (control Empty_set * St)) (s s' : St) (w w' : world) :
  cond s = true -> body s w = Ok (Break, s') w' ->
  while_loop (S fuel) cond body s w = Ok s' w'.
Proof.
  intros Hcond Hbody. simpl. rewrite Hcond.
  rewrite (bind_Ok_intro _ _ _ _ _ Hbody). reflexivity.
Qed.

(** An active system with a critical condition that an update cannot cure
    (the error ceiling reached, the voltage or the temperature validator
    failing, or a negative current) gets exactly one pass: if the clock has
    not run out at the first reading, the loop performs one
    [update_all_registers] and leaves by the critical-condition check. *)
Theorem monitoring_loop_stops_at_critical_condition (fuel : nat)
    (s : monitor_system_t) (duration_seconds : Z) (w : world) :
  system_active s = true -> 0 < duration_seconds ->
  time_source w (S (time_calls w)) - time_source w (time_calls w)
  < duration_seconds ->
  registers_in_bounds s = true ->
  (MAX_ERRORS <= error_count s \/
   validate_voltage_range (voltage s) = false \/
   validate_temperature_range (temperature s) = false \/
   (current s < F32.zero)%f32 = true) ->
  exists s' w',
    update_all_registers (Some s) (set_time_calls (S (S (time_calls w))) w)
    = Ok (Some s') w' /\
    continuous_monitoring_loop (S fuel) (Some s) duration_seconds w
    = Ok (Some s') w' /\
    check_critical_conditions (Some s') = true.
Proof.
  intros Hactive Hd Hclock Hb Hcrit.
  destruct (update_all_registers_defined s
              (set_time_calls (S (S (time_calls w))) w) Hb) as (s' & w' & Hupd).
  pose proof (update_all_registers_frame _ _ _ _ Hupd)
    as (s1 & Heq & Hv & Ht & Hc & He & _).
  injection Heq as <-.
  pose proof (critical_condition_persists s s' Hv Ht Hc He Hcrit) as Hcheck.
  exists s', w'. split; [exact Hupd |]. split; [| exact Hcheck].
  unfold continuous_monitoring_loop.
  destruct (Z.leb_spec duration_seconds 0) as [Hle | _]; [exfalso; lia |].
  unfold time_now at 1, mbind at 1, M_bind at 1. cbn beta iota.
  assert (Hstep : monitoring_step (time_source w (time_calls w)) duration_seconds
                    (s, 0) (set_time_calls (S (time_calls w)) w)
                  = Ok (Break, (s', 0)) w').
  { unfold monitoring_step.
    unfold time_now at 1, mbind at 1, M_bind at 1. cbn beta iota.
    cbn [time_source time_calls set_time_calls].
    destruct (Z.geb_spec (time_source w (S (time_calls w))
                          - time_source w (time_calls w)) duration_seconds)
      as [Hstop | _]; [exfalso; lia |].
    rewrite (bind_Ok_intro _ _ _ _ _ Hupd). cbn beta iota.
    rewrite Hcheck. reflexivity. }
  rewrite (bind_Ok_intro _ _ _ _ _
             (while_loop_break fuel (fun st => system_active (fst st)) _
                                (s, 0) _ _ _ Hactive Hstep)).
  reflexivity.
Qed.

Lemma monitoring_loop_stops_at_critical_condition_witness :
  system_active (set_error_count 10 nominal_system) = true /\
  registers_in_bounds (set_error_count 10 nominal_system) = true /\
  MAX_ERRORS <= error_count (set_error_count 10 nominal_system) /\
  exists s' w',
    continuous_monitoring_loop 1 (Some (set_error_count 10 nominal_system)) 60
                               boot_world = Ok (Some s') w' /\
    check_critical_conditions (Some s') = true.
Proof.
  assert (Hfull : MAX_ERRORS <= error_count (set_error_count 10 nominal_system))
    by (cbn; unfold MAX_ERRORS; lia).
  split; [reflexivity |]. split; [reflexivity |]. split; [exact Hfull |].
  destruct (monitoring_loop_stops_at_critical_condition
              0 (set_error_count 10 nominal_system) 60 boot_world
              eq_refl ltac:(lia) ltac:(cbn; lia) eq_refl (or_introl Hfull))
    as (s' & w' & _ & Hloop & Hcheck).
  exists s', w'. split; [exact Hloop | exact Hcheck].
Defined.

Lemma continuous_monitoring_loop_returns_witness :
  registers_in_bounds nominal_system = true /\
  exists s' w',
    continuous_monitoring_loop (Z.to_nat 2) (Some nominal_system) 2 boot_world
    = Ok (Some s') w'.
Proof.
  split; [reflexivity |].
  apply continuous_monitoring_loop_returns;
    [reflexivity | unfold INT_MAX; lia | intros m; cbn; lia].
Defined.

(** ** Simulated failures and their recovery *)

(** For each of the five failures that [simulate_hardware_failure] knows,
    the value it stores fails the validator of that reading, and
    [attempt_error_recovery] with the same code stores a value that passes
    it.  The error counted by the simulation stays counted after the
    recovery.  On every other code the simulation returns false and leaves
    the struct alone. *)
Theorem simulated_failure_is_recovered (s : monitor_system_t)
    (code : error_code_t) (w : world) :
  INT_MIN <= error_count s < INT_MAX ->
  (simulated_error_code code = true ->
   exists s1 s2,
     simulate_hardware_failure (Some s) code w = Ok (true, Some s1) w /\
     validator_for code s1 = false /\
     attempt_error_recovery (Some s1) code w = Ok (true, Some s2) w /\
     validator_for code s2 = true /\
     error_count s1 = error_count s + 1 /\ error_count s2 = error_count s + 1) /\
  (simulated_error_code code = false ->
   simulate_hardware_failure (Some s) code w = Ok (false, Some s) w).
Proof.
  intros He. unfold simulated_error_code. split; intros Hcode.
  - assert (Hcases : code = ERROR_VOLTAGE_LOW \/ code = ERROR_VOLTAGE_HIGH \/
                     code = ERROR_TEMPERATURE_HIGH \/ code = ERROR_CURRENT_LOW \/
                     code = ERROR_CURRENT_HIGH) by lia.
    destruct Hcases as [-> | [-> | [-> | [-> | ->]]]];
      unfold simulate_hardware_failure, attempt_error_recovery;
      cbn [set_voltage set_temperature set_current error_count
           voltage temperature current set_error_count];
      rewrite (bind_Ok_intro _ _ _ _ _
                 (int_result_intro (error_count s + 1) w
                    ltac:(unfold INT_MIN, INT_MAX in *; lia)));
      rewrite ?voltage_low_check, ?voltage_high_check, ?temperature_high_check,
              ?current_low_check, ?current_high_check;
      eexists _, _;
      (split; [reflexivity |]); (split; [vm_compute; reflexivity |]);
      (split; [reflexivity |]); (split; [vm_compute; reflexivity |]);
      split; reflexivity.
  - unfold simulate_hardware_failure.
    destruct code as [|p|p]; [reflexivity | | reflexivity].
    do 3 (try destruct p as [p|p|]); try reflexivity; cbn in Hcode; lia.
Qed.

Lemma simulated_failure_is_recovered_witness :
  INT_MIN <= error_count nominal_system < INT_MAX /\
  simulated_error_code ERROR_TEMPERATURE_HIGH = true /\
  exists s1 s2,
    simulate_hardware_failure (Some nominal_system) ERROR_TEMPERATURE_HIGH
                              boot_world = Ok (true, Some s1) boot_world /\
    validate_temperature_range (temperature s1) = false /\
    attempt_error_recovery (Some s1) ERROR_TEMPERATURE_HIGH boot_world
    = Ok (true, Some s2) boot_world /\
    validate_temperature_range (temperature s2) = true.
Proof.
  assert (He : INT_MIN <= error_count nominal_system < INT_MAX)
    by (cbn; unfold INT_MIN, INT_MAX; lia).
  split; [exact He |]. split; [reflexivity |].
  destruct (proj1 (simulated_failure_is_recovered nominal_system
                     ERROR_TEMPERATURE_HIGH boot_world He) eq_refl)
    as (s1 & s2 & Hsim & Hbad & Hrec & Hgood & _).
  exists s1, s2. auto.
Defined.

(** ** The recovery log *)

(** What one call of [log_recovery_error] does to the recovery state and
    to the world. *)
Lemma log_recovery_error_effect (code : error_code_t) (desc : string)
    (retries : Z) (ok : bool) (w w' : world) (u : unit) :
  log_recovery_error code desc retries ok w = Ok u w' ->
  let rs := recovery_state w in
  let rs' := recovery_state w' in
  let full := log_count rs >=? ERROR_LOG_SIZE in
  let base := if full then ERROR_LOG_SIZE - 1 else log_count rs in
  let kept := if full
              then drop 1 (error_log rs)
                   ++ drop (Z.to_nat (ERROR_LOG_SIZE - 1)) (error_log rs)
              else error_log rs in
  0 <= base < Z.of_nat (length kept) /\
  error_log rs' = <[Z.to_nat base := new_log_entry code desc retries ok w]> kept /\
  log_count rs' = base + 1 /\
  total_errors rs' = total_errors rs + 1 /\
  successful_recoveries rs' = successful_recoveries rs + bool_to_Z ok /\
  degradation_level rs' = degradation_level rs /\
  degraded_mode rs' = degraded_mode rs /\
  counter w' = counter w /\ time_source w' = time_source w /\
  time_calls w' = S (time_calls w).
Proof.
  unfold log_recovery_error. intros H.
  apply bind_Ok in H as (rs0 & w1 & Hget & H).
  apply get_recovery_state_Ok in Hget as [-> ->].
  cbv zeta.
  destruct (log_count (recovery_state w) >=? ERROR_LOG_SIZE);
    destruct ok; invert_M H; cbn in *;
    repeat apply conj; try reflexivity; lia.
Qed.

(** The log keeps its hundred slots and holds the newest entries: a call
    writes the new entry at the end of the used part and books it in the
    counters; while there is room the older entries stay where they are,
    and on a full log the oldest entry is dropped and the others move down
    by one slot. *)
Theorem log_recovery_error_keeps_newest (code : error_code_t) (desc : string)
    (retries : Z) (ok : bool) (w : world) :
  wf_recovery (recovery_state w) = true ->
  log_count (recovery_state w) <= ERROR_LOG_SIZE ->
  exists w',
    log_recovery_error code desc retries ok w = Ok tt w' /\
    length (error_log (recovery_state w'))
    = length (error_log (recovery_state w)) /\
    1 <= log_count (recovery_state w') <= ERROR_LOG_SIZE /\
    error_log (recovery_state w') !! Z.to_nat (log_count (recovery_state w') - 1)
    = Some (new_log_entry code desc retries ok w) /\
    total_errors (recovery_state w') = total_errors (recovery_state w) + 1 /\
    successful_recoveries (recovery_state w')
    = successful_recoveries (recovery_state w) + bool_to_Z ok /\
    (log_count (recovery_state w) < ERROR_LOG_SIZE ->
     log_count (recovery_state w') = log_count (recovery_state w) + 1 /\
     forall i, (i < Z.to_nat (log_count (recovery_state w)))%nat ->
               error_log (recovery_state w') !! i
               = error_log (recovery_state w) !! i) /\
    (log_count (recovery_state w) = ERROR_LOG_SIZE ->
     log_count (recovery_state w') = ERROR_LOG_SIZE /\
     forall i, (i < 99)%nat ->
               error_log (recovery_state w') !! i
               = error_log (recovery_state w) !! S i).
Proof.
  intros Hwf Hcount.
  destruct (log_recovery_error_defined code desc retries ok w Hwf) as (w' & Hlog).
  exists w'. split; [exact Hlog |].
  apply log_recovery_error_effect in Hlog
    as (Hbase & Hlog' & Hcount' & Htotal & Hsucc & _).
  unfold wf_recovery, ERROR_LOG_SIZE in *.
  assert (Hlen : length (error_log (recovery_state w)) = 100%nat) by lia.
  assert (Hlc : 0 <= log_count (recovery_state w)) by lia.
  clear Hwf. rewrite Hlog', Hcount', Htotal, Hsucc. clear Hlog' Hcount' Htotal Hsucc.
  destruct (Z.geb_spec (log_count (recovery_state w)) 100) as [Hfull | Hroom].
  - assert (Heq : log_count (recovery_state w) = 100) by lia.
    change (100 - 1) with 99 in *. change (Z.to_nat 99) with 99%nat in *.
    assert (Hkept : length (drop 1 (error_log (recovery_state w))
                            ++ drop 99 (error_log (recovery_state w))) = 100%nat)
      by (rewrite length_app, !length_drop; lia).
    replace (Z.to_nat (99 + 1 - 1)) with 99%nat by lia.
    split; [rewrite length_insert; lia |]. split; [lia |].
    split; [apply list_lookup_insert_eq; lia |].
    split; [reflexivity |]. split; [reflexivity |].
    split; [intros; lia |].
    intros _. split; [reflexivity |]. intros i Hi.
    rewrite list_lookup_insert_ne by lia.
    rewrite lookup_app_l by (rewrite length_drop; lia).
    now rewrite lookup_drop.
  - replace (Z.to_nat (log_count (recovery_state w) + 1 - 1))
      with (Z.to_nat (log_count (recovery_state w))) by lia.
    split; [rewrite length_insert; lia |]. split; [lia |].
    split; [apply list_lookup_insert_eq; lia |].
    split; [reflexivity |]. split; [reflexivity |].
    split; [| intros; lia].
    intros _. split; [reflexivity |]. intros i Hi.
    now rewrite list_lookup_insert_ne by lia.
Qed.

Lemma log_recovery_error_keeps_newest_witness :
  wf_recovery (recovery_state boot_world) = true /\
  log_count (recovery_state boot_world) <= ERROR_LOG_SIZE /\
  exists w',
    log_recovery_error ERROR_TIMEOUT "Maximum retry attempts exceeded" 3 false
                       boot_world = Ok tt w' /\
    log_count (recovery_state w') = 1 /\
    total_errors (recovery_state w') = 1 /\
    successful_recoveries (recovery_state w') = 0.
Proof.
  assert (Hroom : log_count (recovery_state boot_world) <= ERROR_LOG_SIZE)
    by (cbn; unfold ERROR_LOG_SIZE; lia).
  split; [reflexivity |]. split; [exact Hroom |].
  destruct (log_recovery_error_keeps_newest
              ERROR_TIMEOUT "Maximum retry attempts exceeded" 3 false
              boot_world eq_refl Hroom)
    as (w' & Hlog & _ & _ & _ & Htotal & Hsucc & Hnext & _).
  exists w'. split; [exact Hlog |].
  split; [apply Hnext; cbn; unfold ERROR_LOG_SIZE; lia |].
  split; [exact Htotal | exact Hsucc].
Defined.

(** ** Degradation bookkeeping *)

(** What a call of [graceful_degradation] does to the recovery state. *)
Lemma graceful_degradation_effect (s : monitor_system_t) (w w' : world)
    (u : unit) :
  graceful_degradation (Some s) w = Ok u w' ->
  exists h,
    assess_health s w = Ok h w /\
    degradation_level (recovery_state w') = degradation_level_for h /\
    (degradation_level (recovery_state w) = degradation_level_for h -> w' = w) /\
    (degradation_level (recovery_state w) <> degradation_level_for h ->
     degraded_mode (recovery_state w') = (degradation_level_for h >? 0) /\
     total_errors (recovery_state w') = total_errors (recovery_state w) + 1 /\
     successful_recoveries (recovery_state w')
     = successful_recoveries (recovery_state w) + 1 /\
     counter w' = counter w).
Proof.
  unfold graceful_degradation. intros H.
  apply bind_Ok in H as (h & w1 & Hh & H).
  pose proof (assess_health_Ok _ _ _ _ Hh) as [-> _].
  exists h. split; [exact Hh |].
  apply bind_Ok in H as (rs & w1 & Hget & H).
  apply get_recovery_state_Ok in Hget as [-> ->].
  destruct (Z.eqb_spec (degradation_level_for h)
                       (degradation_level (recovery_state w))) as [Heq | Hne];
    cbn [negb] in H.
  - apply ret_Ok in H as [_ ->]. split; [auto |]. split; [auto |].
    intros Hdiff. congruence.
  - apply bind_Ok in H as (u1 & w1 & Hput & H).
    apply put_recovery_state_Ok in Hput as ->.
    assert (Hlog : exists desc,
               log_recovery_error ERROR_NONE desc 0 true
                 (set_recovery_state
                    (set_degraded_mode (degradation_level_for h >? 0)
                       (set_degradation_level (degradation_level_for h)
                          (recovery_state w))) w) = Ok u w').
    { revert H. unfold degradation_level_for.
      destruct (h >=? 80); [eauto |].
      destruct (h >=? 60); [eauto |].
      destruct (h >=? 30); eauto. }
    destruct Hlog as (desc & Hlog).
    apply log_recovery_error_effect in Hlog
      as (_ & _ & _ & Htotal & Hsucc & Hlevel & Hmode & Hcounter & _).
    cbn in Htotal, Hsucc, Hlevel, Hmode, Hcounter.
    split; [exact Hlevel |]. split; [intros Hsame; congruence |].
    intros _. repeat apply conj; assumption.
Qed.

(** A change of degradation level is booked in the recovery statistics as
    one more error and one more successful recovery, whether the level goes
    down or up, and the degraded flag is set to whether the new level is
    above 0; a call that finds the level unchanged books nothing. *)
Theorem degradation_step_is_booked_as_recovery (s : monitor_system_t)
    (w w' : world) :
  graceful_degradation (Some s) w = Ok tt w' ->
  (degradation_level (recovery_state w') <> degradation_level (recovery_state w) ->
   total_errors (recovery_state w') = total_errors (recovery_state w) + 1 /\
   successful_recoveries (recovery_state w')
   = successful_recoveries (recovery_state w) + 1 /\
   degraded_mode (recovery_state w')
   = (degradation_level (recovery_state w') >? 0)) /\
  (degradation_level (recovery_state w') = degradation_level (recovery_state w) ->
   w' = w) /\
  0 <= degradation_level (recovery_state w') <= 3.
Proof.
  intros H.
  apply graceful_degradation_effect in H as (h & _ & Hlevel & Hsame & Hdiff).
  rewrite Hlevel. repeat apply conj.
  - intros Hne.
    destruct Hdiff as (Hmode & Htotal & Hsucc & _); [congruence |]. auto.
  - intros Heq. apply Hsame. congruence.
  - unfold degradation_level_for.
    destruct (h >=? 80); [lia |]. destruct (h >=? 60); [lia |].
    destruct (h >=? 30); lia.
  - unfold degradation_level_for.
    destruct (h >=? 80); [lia |]. destruct (h >=? 60); [lia |].
    destruct (h >=? 30); lia.
Qed.

Lemma degradation_step_is_booked_as_recovery_witness :
  exists w',
    graceful_degradation (Some overheated_system) boot_world = Ok tt w' /\
    degradation_level (recovery_state boot_world) = 0 /\
    degradation_level (recovery_state w') = 3 /\
    total_errors (recovery_state w') = 1 /\
    successful_recoveries (recovery_state w') = 1 /\
    degraded_mode (recovery_state w') = true.
Proof.
  eexists. split; [vm_compute; reflexivity |].
  split; [reflexivity |]. split; [reflexivity |].
  match goal with
  | |- total_errors (recovery_state ?w') = _ /\ _ =>
      destruct (degradation_step_is_booked_as_recovery overheated_system
                  boot_world w' eq_refl) as (Hstep & _ & _)
  end.
  destruct Hstep as (Htotal & Hsucc & Hmode); [cbn; lia |].
  split; [exact Htotal |]. split; [exact Hsucc | exact Hmode].
Defined.

(** ** The retry mechanism *)

Lemma retry_attempt_operational (max_retries attempt : Z) (s s' : monitor_system_t)
    (c : control bool) (w w' : world) :
  operational s = true ->
  retry_attempt max_retries attempt s w = Ok (c, s') w' ->
  c = Return true /\ s' = s.
Proof.
  unfold operational, derived_status, retry_attempt. intros Hop H.
  do 2 printed_sum H.
  destruct (_ || _); [discriminate Hop |].
  apply bind_Ok in H as (u & w1 & _ & H).
  apply ret_Ok in H as [Heq _]. injection Heq as -> ->. auto.
Qed.

Lemma retry_attempt_failing (max_retries attempt : Z) (s s' : monitor_system_t)
    (c : control bool) (w w' : world) :
  operational s = false ->
  retry_attempt max_retries attempt s w = Ok (c, s') w' ->
  c = Next /\ (max_retries <= attempt -> s' = s /\ w' = w).
Proof.
  unfold operational, derived_status, retry_attempt. intros Hop H.
  do 2 printed_sum H.
  destruct (_ || _); [| discriminate Hop].
  destruct (Z.ltb_spec attempt max_retries) as [Hlt | Hge].
  - split; [| intros; lia].
    apply bind_Ok in H as (x2 & w2 & _ & H).
    apply bind_Ok in H as (x3 & w3 & _ & H).
    apply bind_Ok in H as ([ok rec] & w4 & Hrec & H).
    destruct rec as [s1|]; [| discriminate H].
    apply bind_Ok in H as (x5 & w5 & _ & H).
    apply bind_Ok in H as (x6 & w6 & _ & H).
    apply ret_Ok in H as [Heq _]. now injection Heq as -> _.
  - apply ret_Ok in H as [Heq ->]. injection Heq as -> ->. auto.
Qed.

(** The retry loop returns true from a pass that finds the system
    operational; it falls through only when the last pass finds it failing. *)
Lemma retry_loop_verdict (max_retries : Z) (k : nat) :
  forall (i : Z) (s s' : monitor_system_t) (r : option bool) (w w' : world),
    (k <> 0%nat -> i + Z.of_nat k = max_retries + 1) ->
    for_loop k i (retry_attempt max_retries) s w = Ok (s', r) w' ->
    (r = Some true /\ operational s' = true) \/
    (r = None /\ (k <> 0%nat -> operational s' = false) /\
     (k = 0%nat -> s' = s /\ w' = w)).
Proof.
  induction k as [|k IH]; intros i s s' r w w' Hlast H; simpl in H.
  - apply ret_Ok in H as [Heq ->]. injection Heq as -> ->.
    right. split; [reflexivity |]. split; [congruence | auto].
  - apply bind_Ok in H as ([c s1] & w1 & Hstep & H).
    destruct (operational s) eqn:Hop.
    + apply (retry_attempt_operational _ _ _ _ _ _ _ Hop) in Hstep as [-> ->].
      apply ret_Ok in H as [Heq _]. injection Heq as -> ->. left. auto.
    + apply (retry_attempt_failing _ _ _ _ _ _ _ Hop) in Hstep as [-> Hlaststep].
      assert (Hlast' : i + Z.of_nat (S k) = max_retries + 1)
        by (apply Hlast; congruence).
      apply (IH (i + 1)) in H; [| lia].
      destruct H as [Hdone | (-> & Hfail & Hnone)]; [left; exact Hdone |].
      right. split; [reflexivity |]. split; [| congruence].
      intros _. destruct k as [|k].
      * destruct (Hnone eq_refl) as [-> _].
        assert (Hend : max_retries <= i) by lia.
        destruct (Hlaststep Hend) as [-> _]. exact Hop.
      * apply Hfail. congruence.
Qed.

(** A pass entered with [max_retries = INT_MAX] or more overflows in the
    sum [max_retries + 1] that it prints. *)
Lemma retry_attempt_print_overflow (max_retries attempt : Z)
    (s : monitor_system_t) (w : world) :
  INT_MAX <= max_retries ->
  retry_attempt max_retries attempt s w = Undefined.
Proof.
  intros Hmax. unfold retry_attempt, mbind, M_bind, int_result.
  destruct (in_int_range (attempt + 1)); [| reflexivity].
  cbn [mret M_ret]. unfold in_int_range.
  destruct (Z.leb_spec (max_retries + 1) INT_MAX) as [Hle | _]; [exfalso; lia |].
  now rewrite andb_false_r.
Qed.

(** With [0 <= max_retries < INT_MAX] the result of
    [implement_retry_mechanism] says whether the struct it leaves is
    operational, that is, whether the status of its readings is neither
    CRITICAL nor VOLTAGE_ERROR.  An operational system is returned at once,
    with nothing changed and nothing logged.  With a negative [max_retries]
    no attempt is made and the result is false whatever the system.  With
    [max_retries = INT_MAX] the first pass overflows in the sum
    [max_retries + 1] that it prints. *)
Theorem retry_result_is_final_status (s : monitor_system_t) (max_retries : Z)
    (w : world) :
  (forall b r w',
      implement_retry_mechanism (Some s) max_retries w = Ok (b, r) w' ->
      exists s', r = Some s' /\
        (0 <= max_retries -> b = operational s') /\
        (max_retries < 0 -> b = false /\ s' = s)) /\
  (0 <= max_retries < INT_MAX -> operational s = true ->
   implement_retry_mechanism (Some s) max_retries w = Ok (true, Some s) w) /\
  (INT_MAX <= max_retries ->
   implement_retry_mechanism (Some s) max_retries w = Undefined).
Proof.
  split; [| split].
  - intros b r w' H. unfold implement_retry_mechanism in H.
    apply bind_Ok in H as ([s1 r1] & w1 & Hloop & H).
    assert (Hpasses : max_retries < 0 -> Z.to_nat (max_retries + 1) = 0%nat)
      by lia.
    pose proof Hloop as Hloop'.
    apply retry_loop_verdict in Hloop; [| lia].
    destruct Hloop as [[-> Hop] | (-> & Hfail & Hnone)].
    + apply ret_Ok in H as [Heq _]. injection Heq as -> ->.
      exists s1. split; [reflexivity |]. split; [auto |].
      intros Hneg. exfalso. rewrite (Hpasses Hneg) in Hloop'.
      apply ret_Ok in Hloop' as [Heq _]. discriminate Heq.
    + printed_sum H. apply bind_Ok in H as (u & w2 & _ & H).
      apply ret_Ok in H as [Heq _]. injection Heq as -> ->.
      exists s1. split; [reflexivity |]. split.
      * intros Hpos. symmetry. apply Hfail. lia.
      * intros Hneg. split; [reflexivity |]. apply Hnone. lia.
  - intros Hpos Hop. unfold implement_retry_mechanism.
    destruct (Z.to_nat (max_retries + 1)) as [|k] eqn:Hk; [lia |].
    assert (Hstep : retry_attempt max_retries 0 s w = Ok (Return true, s) w).
    { unfold retry_attempt. do 2 forward_M.
      unfold operational, derived_status in Hop.
      destruct (_ || _); [discriminate Hop | reflexivity]. }
    simpl. rewrite bind_assoc, (bind_Ok_intro _ _ _ _ _ Hstep). reflexivity.
  - intros Hmax. unfold implement_retry_mechanism.
    assert (Hinstance : (INT_MAX <= max_retries)%Z) by exact Hmax.
    unfold INT_MAX in Hinstance.
    destruct (Z.to_nat (max_retries + 1)) as [|k] eqn:Hk; [lia |].
    simpl. unfold mbind, M_bind.
    now rewrite retry_attempt_print_overflow.
Qed.

Lemma retry_result_is_final_status_witness :
  (exists s' w',
      implement_retry_mechanism
        (Some (set_temperature (F32.literal 900 10) nominal_system)) 3 boot_world
      = Ok (true, Some s') w' /\
      operational (set_temperature (F32.literal 900 10) nominal_system) = false /\
      operational s' = true) /\
  implement_retry_mechanism (Some nominal_system) 3 boot_world
  = Ok (true, Some nominal_system) boot_world /\
  implement_retry_mechanism (Some nominal_system) INT_MAX boot_world = Undefined.
Proof.
  split; [| split].
  - eexists _, _. split; [vm_compute; reflexivity |]. split; [reflexivity |].
    match goal with
    | |- operational ?s' = true =>
        destruct (proj1 (retry_result_is_final_status
                           (set_temperature (F32.literal 900 10) nominal_system)
                           3 boot_world) true (Some s') _ eq_refl)
          as (s1 & Heq & Hop & _)
    end.
    injection Heq as <-. symmetry. apply Hop. lia.
  - apply (proj1 (proj2 (retry_result_is_final_status nominal_system 3
                           boot_world)));
      [unfold INT_MAX; lia | reflexivity].
  - apply (proj2 (proj2 (retry_result_is_final_status nominal_system INT_MAX
                           boot_world))).
    apply Z.le_refl.
Defined.

(** *** The backoff delay *)

Lemma persistently_critical_status (s : monitor_system_t) (t : float) :
  persistently_critical s = true ->
  determine_system_status (voltage s) t (current s) = STATUS_CRITICAL.
Proof.
  unfold persistently_critical, determine_system_status. intros H.
  apply andb_prop in H as [Hv Hc]. rewrite Hv. cbn [negb].
  destruct (t > TEMP_CRITICAL)%f32; [reflexivity |].
  destruct (current s >= F32.zero)%f32 eqn:Hc0.
  { apply ge_excludes_lt in Hc0. congruence. }
  rewrite andb_false_r. cbn [negb]. now rewrite Hc.
Qed.

Lemma log_recovery_error_wf (code : error_code_t) (desc : string) (retries : Z)
    (ok : bool) (w : world) :
  wf_recovery (recovery_state w) = true ->
  total_errors (recovery_state w) + 1 < INT_MAX ->
  successful_recoveries (recovery_state w) + 1 < INT_MAX ->
  exists w',
    log_recovery_error code desc retries ok w = Ok tt w' /\
    wf_recovery (recovery_state w') = true /\
    total_errors (recovery_state w') = total_errors (recovery_state w) + 1 /\
    successful_recoveries (recovery_state w')
    <= successful_recoveries (recovery_state w) + 1.
Proof.
  intros Hwf Htotal Hsucc.
  destruct (log_recovery_error_defined code desc retries ok w Hwf) as (w' & Hlog).
  exists w'. split; [exact Hlog |].
  apply log_recovery_error_effect in Hlog
    as (Hbase & Hlog' & Hcount' & Htotal' & Hsucc' & _).
  unfold wf_recovery, in_int_range, ERROR_LOG_SIZE, INT_MIN, INT_MAX in *.
  rewrite Hlog', Hcount', Htotal', Hsucc', length_insert.
  clear Hlog' Hcount' Htotal' Hsucc'.
  assert (Hlen : length (error_log (recovery_state w)) = 100%nat) by lia.
  destruct (Z.geb_spec (log_count (recovery_state w)) 100);
    rewrite ?length_app, ?length_drop, ?Hlen;
    unfold bool_to_Z; destruct ok;
    repeat apply conj; try lia;
    repeat (apply andb_true_intro; split); try reflexivity; lia.
Qed.

(** The delays of the first thirteen attempts, 500 ms doubled each time,
    can be slept; the delay of attempt 13 still fits an [int], its
    microseconds do not. *)
Lemma retry_delay_values (attempt : Z) (w : world) :
  0 <= attempt <= 13 ->
  retry_delay attempt w = Ok (500 * 2 ^ attempt) w /\
  (attempt <= 12 -> delay_ms (500 * 2 ^ attempt) w = Ok tt w) /\
  (attempt = 13 -> delay_ms (500 * 2 ^ attempt) w = Undefined).
Proof.
  intros Hattempt.
  assert (Hcases : attempt = 0 \/ attempt = 1 \/ attempt = 2 \/ attempt = 3 \/
                   attempt = 4 \/ attempt = 5 \/ attempt = 6 \/ attempt = 7 \/
                   attempt = 8 \/ attempt = 9 \/ attempt = 10 \/
                   attempt = 11 \/ attempt = 12 \/ attempt = 13) by lia.
  repeat (destruct Hcases as [-> | Hcases];
          [split; [reflexivity |]; split; [reflexivity | lia] |]).
  subst attempt. split; [reflexivity |]. split; [lia | reflexivity].
Qed.

(** A pass of the retry loop on a persistently critical system, before the
    last attempt and while the backoff delay still fits. *)
Lemma retry_attempt_persistent (max_retries attempt : Z) (s : monitor_system_t)
    (w : world) :
  persistently_critical s = true ->
  0 <= attempt <= 12 -> attempt < max_retries < INT_MAX ->
  wf_recovery (recovery_state w) = true ->
  total_errors (recovery_state w) + 1 < INT_MAX ->
  successful_recoveries (recovery_state w) + 1 < INT_MAX ->
  exists s' w',
    retry_attempt max_retries attempt s w = Ok (Next, s') w' /\
    persistently_critical s' = true /\
    wf_recovery (recovery_state w') = true /\
    total_errors (recovery_state w') = total_errors (recovery_state w) + 1 /\
    successful_recoveries (recovery_state w')
    <= successful_recoveries (recovery_state w) + 1.
Proof.
  intros Hs Hattempt Hmore Hwf Htotal Hsucc.
  unfold retry_attempt. do 2 forward_M.
  rewrite (persistently_critical_status s (temperature s) Hs).
  cbn [system_status_eqb orb].
  destruct (Z.ltb_spec attempt max_retries) as [_ | Hge]; [| exfalso; lia].
  destruct (retry_delay_values attempt w) as (Hdelay & Hsleep & _); [lia |].
  rewrite (bind_Ok_intro _ _ _ _ _ Hdelay). cbn beta.
  rewrite (bind_Ok_intro _ _ _ _ _ (Hsleep ltac:(lia))). cbn beta.
  unfold attempt_error_recovery.
  cbn [set_temperature temperature]. rewrite temperature_high_check.
  rewrite ret_bind. cbn beta iota.
  forward_M.
  match goal with
  | |- context [log_recovery_error ?code ?desc ?n ?ok ≫= _] =>
      destruct (log_recovery_error_wf code desc n ok w Hwf Htotal Hsucc)
        as (w' & Hlog & Hwf' & Htotal' & Hsucc')
  end.
  rewrite (bind_Ok_intro _ _ _ _ _ Hlog). cbn beta.
  eexists _, w'. split; [reflexivity |].
  repeat apply conj; assumption.
Qed.

Lemma retry_attempt_overflow (max_retries : Z) (s : monitor_system_t) (w : world) :
  persistently_critical s = true -> 13 < max_retries ->
  retry_attempt max_retries 13 s w = Undefined.
Proof.
  intros Hs Hmore.
  destruct (Z.le_gt_cases INT_MAX max_retries) as [Hmax | Hmax];
    [now apply retry_attempt_print_overflow |].
  unfold retry_attempt. do 2 forward_M.
  rewrite (persistently_critical_status s (temperature s) Hs).
  cbn [system_status_eqb orb].
  destruct (Z.ltb_spec 13 max_retries) as [_ | Hge]; [| exfalso; lia].
  reflexivity.
Qed.

(** The first passes of the retry loop on a persistently critical system:
    each makes and logs one recovery attempt. *)
Lemma retry_loop_persistent (max_retries : Z) (k : nat) :
  forall (i : Z) (s : monitor_system_t) (w : world),
    0 <= i -> i + Z.of_nat k <= 13 -> i + Z.of_nat k <= max_retries ->
    max_retries < INT_MAX ->
    persistently_critical s = true ->
    wf_recovery (recovery_state w) = true ->
    total_errors (recovery_state w) + Z.of_nat k < INT_MAX ->
    successful_recoveries (recovery_state w) + Z.of_nat k < INT_MAX ->
    exists s' w',
      for_loop k i (retry_attempt max_retries) s w = Ok (s', None) w' /\
      persistently_critical s' = true /\
      wf_recovery (recovery_state w') = true /\
      total_errors (recovery_state w')
      = total_errors (recovery_state w) + Z.of_nat k /\
      successful_recoveries (recovery_state w')
      <= successful_recoveries (recovery_state w) + Z.of_nat k.
Proof.
  induction k as [|k IH];
    intros i s w Hi Hlast Hmore Hmax Hs Hwf Htotal Hsucc; simpl for_loop.
  - exists s, w. split; [reflexivity |].
    repeat apply conj; try assumption; cbn; lia.
  - destruct (retry_attempt_persistent max_retries i s w)
      as (s1 & w1 & Hstep & Hs1 & Hwf1 & Htotal1 & Hsucc1);
      try assumption; try lia.
    rewrite (bind_Ok_intro _ _ _ _ _ Hstep). cbn beta iota.
    destruct (IH (i + 1) s1 w1) as (s' & w' & Hloop & Hs' & Hwf' & Htotal' & Hsucc');
      try assumption; try lia.
    exists s', w'. split; [exact Hloop |].
    repeat apply conj; try assumption; lia.
Qed.

Lemma retry_loop_overflow (max_retries : Z) (j : nat) :
  forall (k : nat) (i : Z) (s : monitor_system_t) (w : world),
    i = 13 - Z.of_nat j -> 0 <= i -> (j < k)%nat -> 13 < max_retries < INT_MAX ->
    persistently_critical s = true ->
    wf_recovery (recovery_state w) = true ->
    total_errors (recovery_state w) + Z.of_nat j < INT_MAX ->
    successful_recoveries (recovery_state w) + Z.of_nat j < INT_MAX ->
    for_loop k i (retry_attempt max_retries) s w = Undefined.
Proof.
  induction j as [|j IH]; intros k i s w Hi Hi0 Hk Hmore Hs Hwf Htotal Hsucc;
    (destruct k as [|k]; [lia |]); simpl.
  - replace i with 13 by lia.
    unfold mbind, M_bind. rewrite retry_attempt_overflow; [reflexivity | | lia].
    exact Hs.
  - destruct (retry_attempt_persistent max_retries i s w)
      as (s' & w' & Hstep & Hs' & Hwf' & Htotal' & Hsucc');
      try assumption; try lia.
    rewrite (bind_Ok_intro _ _ _ _ _ Hstep). cbn beta iota.
    apply IH; try assumption; lia.
Qed.

(** A system that the recoveries do not cure (voltage in range, negative
    current) runs [implement_retry_mechanism] into signed overflow whenever
    more than 13 retries are allowed.  Below [INT_MAX] retries the overflow
    is that of the backoff: the delay of attempt [k] is 500 << k ms, which
    [delay_ms] multiplies by 1000 in [int]; the delays of attempts 0 to 12
    can be slept, thirteen attempts are made and logged, and the delay of
    attempt 13, 500 << 13 = 4096000 ms, cannot. *)
Theorem retry_backoff_overflows (s : monitor_system_t) (max_retries : Z)
    (w : world) :
  persistently_critical s = true -> 13 < max_retries ->
  wf_recovery (recovery_state w) = true ->
  total_errors (recovery_state w) + 13 < INT_MAX ->
  successful_recoveries (recovery_state w) + 13 < INT_MAX ->
  implement_retry_mechanism (Some s) max_retries w = Undefined /\
  (forall attempt w0, 0 <= attempt <= 12 ->
     retry_delay attempt w0 = Ok (RETRY_DELAY_MS * 2 ^ attempt) w0 /\
     delay_ms (RETRY_DELAY_MS * 2 ^ attempt) w0 = Ok tt w0) /\
  (forall w0, retry_delay 13 w0 = Ok 4096000 w0 /\
              delay_ms 4096000 w0 = Undefined) /\
  (max_retries < INT_MAX ->
   exists s13 w13,
     for_loop 13 0 (retry_attempt max_retries) s w = Ok (s13, None) w13 /\
     persistently_critical s13 = true /\
     total_errors (recovery_state w13) = total_errors (recovery_state w) + 13 /\
     retry_attempt max_retries 13 s13 w13 = Undefined).
Proof.
  intros Hs Hmore Hwf Htotal Hsucc. split; [| split; [| split]].
  - destruct (Z.le_gt_cases INT_MAX max_retries) as [Hmax | Hmax].
    + unfold implement_retry_mechanism.
      assert (Hinstance : INT_MAX <= max_retries) by exact Hmax.
      unfold INT_MAX in Hinstance.
      destruct (Z.to_nat (max_retries + 1)) as [|k] eqn:Hk; [lia |].
      simpl. unfold mbind, M_bind. now rewrite retry_attempt_print_overflow.
    + unfold implement_retry_mechanism, mbind, M_bind.
      rewrite (retry_loop_overflow max_retries 13 (Z.to_nat (max_retries + 1))
                 0 s w); try assumption; try reflexivity; lia.
  - intros attempt w0 Hattempt.
    destruct (retry_delay_values attempt w0) as (Hdelay & Hsleep & _); [lia |].
    split; [exact Hdelay | apply Hsleep; lia].
  - intros w0.
    destruct (retry_delay_values 13 w0) as (Hdelay & _ & Hsleep); [lia |].
    split; [exact Hdelay | now apply Hsleep].
  - intros Hmax.
    destruct (retry_loop_persistent max_retries 13 0 s w)
      as (s13 & w13 & Hloop & Hs13 & _ & Htotal13 & _);
      try assumption; try (cbn; lia).
    exists s13, w13. split; [exact Hloop |]. split; [exact Hs13 |].
    split; [exact Htotal13 |]. now apply retry_attempt_overflow.
Qed.

Lemma retry_backoff_overflows_witness :
  persistently_critical (set_current (F32.literal (-1) 10) nominal_system) = true /\
  wf_recovery (recovery_state boot_world) = true /\
  implement_retry_mechanism
    (Some (set_current (F32.literal (-1) 10) nominal_system)) 14 boot_world
  = Undefined /\
  exists s13 w13,
    for_loop 13 0 (retry_attempt 14)
             (set_current (F32.literal (-1) 10) nominal_system) boot_world
    = Ok (s13, None) w13 /\
    total_errors (recovery_state w13) = 13 /\
    retry_attempt 14 13 s13 w13 = Undefined.
Proof.
  split; [reflexivity |]. split; [reflexivity |].
  destruct (retry_backoff_overflows
              (set_current (F32.literal (-1) 10) nominal_system) 14 boot_world)
    as (Hundefined & _ & _ & Hattempts);
    [reflexivity | lia | reflexivity | cbn; unfold INT_MAX; lia
     | cbn; unfold INT_MAX; lia |].
  split; [exact Hundefined |].
  destruct Hattempts as (s13 & w13 & Hloop & _ & Htotal & Hlast);
    [unfold INT_MAX; lia |].
  exists s13, w13. split; [exact Hloop |]. split; [exact Htotal | exact Hlast].
Defined.

(** ** The comprehensive recovery procedure *)

(** A loop that is left by [break] only to establish [Q] keeps [I] until
    then. *)
Lemma for_loop_until_break {St} (body : Z -> St -> M (control Empty_set * St))
    (I Q : St -> world -> Prop) :
  (forall i s w c s' w',
      I s w -> body i s w = Ok (c, s') w' ->
      (c = Next /\ I s' w') \/ (c = Break /\ Q s' w')) ->
  forall n i s w s' r w',
    I s w -> for_loop n i body s w = Ok (s', r) w' -> I s' w' \/ Q s' w'.
Proof.
  intros Hbody. induction n as [|n IH]; intros i s w s' r w' HI H; simpl in H.
  - apply ret_Ok in H as [Heq ->]. injection Heq as -> _. auto.
  - apply bind_Ok in H as ([c s1] & w1 & Hstep & H).
    destruct (Hbody _ _ _ _ _ _ HI Hstep) as [[-> HI1] | [-> HQ1]].
    + eapply IH; eassumption.
    + apply ret_Ok in H as [Heq ->]. injection Heq as -> _. auto.
Qed.

(** The one-shot recovery changes neither the error counter, the active
    flag, the size of the register table nor the recovery state. *)
Lemma attempt_error_recovery_keeps (s : monitor_system_t) (code : error_code_t)
    (b : bool) (r : option monitor_system_t) (w w' : world) :
  attempt_error_recovery (Some s) code w = Ok (b, r) w' ->
  exists s', r = Some s' /\
    error_count s' = error_count s /\ system_active s' = system_active s /\
    num_registers s' = num_registers s /\
    length (registers s') = length (registers s) /\
    recovery_state w' = recovery_state w.
Proof.
  intros H.
  destruct (named_error_code code) eqn:Hnamed.
  - destruct (named_error_code_cases code Hnamed)
      as [-> | [-> | [-> | [-> | [-> | [-> | [-> | [-> | ->]]]]]]]];
      unfold attempt_error_recovery in H; cbn [voltage temperature current
        set_voltage set_temperature set_current] in H;
      rewrite ?voltage_low_check, ?voltage_high_check, ?temperature_high_check,
              ?current_low_check, ?current_high_check in H;
      try (invert_M H; eexists; split; [reflexivity |]; cbn; tauto).
    apply bind_Ok in H as (r1 & w1 & Hupd & H).
    apply ret_Ok in H as [Heq ->]. injection Heq as -> ->.
    pose proof (update_all_registers_world _ _ _ _ Hupd) as (Hrs & _ & _).
    apply update_all_registers_frame in Hupd
      as (s' & -> & _ & _ & _ & He & Ha & Hnum & Hlen & _).
    exists s'. tauto.
  - rewrite (attempt_error_recovery_unnamed s code w Hnamed) in H.
    injection H as <- <- <-. exists s. tauto.
Qed.

(** One pass of the retry phase, entered with the success flag still
    false. *)
Lemma recovery_attempt_step (code : error_code_t) (i : Z)
    (s s' : monitor_system_t) (ok' : bool) (n n' : Z) (c : control Empty_set)
    (w w' : world) :
  recovery_attempt code i (s, false, n) w = Ok (c, (s', ok', n')) w' ->
  (error_count s' = error_count s /\ system_active s' = system_active s /\
   num_registers s' = num_registers s /\
   length (registers s') = length (registers s) /\
   recovery_state w' = recovery_state w) /\
  ((c = Next /\ ok' = false) \/
   (c = Break /\ ok' = true /\
    (derived_status s' = STATUS_NORMAL \/ derived_status s' = STATUS_WARNING))).
Proof.
  unfold recovery_attempt. intros H.
  apply bind_Ok in H as ([basic rec] & w1 & Hrec & H).
  apply attempt_error_recovery_keeps in Hrec
    as (s1 & -> & He & Ha & Hnum & Hlen & Hrs).
  fold (derived_status s1) in H.
  destruct (basic && _) eqn:Hverdict.
  - apply ret_Ok in H as [Heq ->]. injection Heq as <- <- <- <-.
    split; [tauto |]. right. split; [reflexivity |]. split; [reflexivity |].
    apply andb_prop in Hverdict as [_ Hst].
    destruct (derived_status s'); cbn in Hst; try discriminate; auto.
  - invert_M H.
    match goal with
    | Hif : (if ?b then _ else _) _ = Ok _ _ |- _ => destruct b; invert_M Hif
    end;
      (split; [tauto | left; auto]).
Qed.

(** What [comprehensive_error_recovery] leaves behind. *)
Lemma comprehensive_error_recovery_effect (s : monitor_system_t)
    (code : error_code_t) (b : bool) (r : option monitor_system_t)
    (w w' : world) :
  comprehensive_error_recovery (Some s) code w = Ok (b, r) w' ->
  exists s', r = Some s' /\
    (error_count s' = error_count s /\ system_active s' = system_active s /\
     num_registers s' = num_registers s /\
     length (registers s') = length (registers s)) /\
    (b = false -> degradation_level (recovery_state w') = 3) /\
    (b = true ->
     derived_status s' = STATUS_NORMAL \/ derived_status s' = STATUS_WARNING \/
     0 <= degradation_level (recovery_state w') < 3) /\
    total_errors (recovery_state w) + 1 <= total_errors (recovery_state w')
    <= total_errors (recovery_state w) + 2 /\
    (degradation_consistent (recovery_state w) ->
     degradation_consistent (recovery_state w')).
Proof.
  unfold comprehensive_error_recovery. intros H.
  apply bind_Ok in H as (s0 & w0 & Hphase1 & H).
  assert (Hframe0 : (error_count s0 = error_count s /\
                     system_active s0 = system_active s /\
                     num_registers s0 = num_registers s /\
                     length (registers s0) = length (registers s)) /\
                    recovery_state w0 = recovery_state w).
  { destruct code as [|p|p]; [| do 4 (try destruct p as [p|p|]) |];
      invert_M Hphase1; cbn; tauto. }
  clear Hphase1. destruct Hframe0 as [Hframe0 Hrs0].
  apply bind_Ok in H as ([[[s1 ok1] n1] r1] & w1 & Hloop & H).
  cbn [loop_state fst] in H.
  pose (frame := fun (st : monitor_system_t * bool * Z) (w1 : world) =>
                   (error_count st.1.1 = error_count s /\
                    system_active st.1.1 = system_active s /\
                    num_registers st.1.1 = num_registers s /\
                    length (registers st.1.1) = length (registers s)) /\
                   recovery_state w1 = recovery_state w).
  apply (for_loop_until_break (recovery_attempt code)
           (fun st w1 => frame st w1 /\ st.1.2 = false)
           (fun st w1 => frame st w1 /\ st.1.2 = true /\
                         (derived_status st.1.1 = STATUS_NORMAL \/
                          derived_status st.1.1 = STATUS_WARNING)))
    in Hloop.
  2: { intros i [[s2 ok2] n2] w2 c [[s3 ok3] n3] w3 [Hframe2 Hok2] Hstep.
       cbn in Hok2. subst ok2.
       apply recovery_attempt_step in Hstep as [Hstep Hc].
       unfold frame in *. cbn [fst snd] in *.
       assert (Hframe3 : (error_count s3 = error_count s /\
                          system_active s3 = system_active s /\
                          num_registers s3 = num_registers s /\
                          length (registers s3) = length (registers s)) /\
                         recovery_state w3 = recovery_state w)
         by (repeat apply conj; intuition congruence).
       destruct Hc as [[-> ->] | (-> & -> & Hst)]; [left | right]; tauto. }
  2: { unfold frame. cbn [fst snd]. rewrite Hrs0. tauto. }
  unfold frame in Hloop. cbn [fst snd] in Hloop.
  apply bind_Ok in H as (ok2 & w2 & Hphase3 & H).
  destruct (get_error_message code) as [msg|]; [| discriminate H].
  apply bind_Ok in H as (u & w3 & Hlog & H).
  apply ret_Ok in H as [Heq ->]. injection Heq as -> ->.
  apply log_recovery_error_effect in Hlog
    as (_ & _ & _ & Htotal & _ & Hlevel & Hmode & _).
  exists s1. split; [reflexivity |].
  unfold degradation_consistent. rewrite Hlevel, Hmode, Htotal.
  destruct Hloop as [[[Hframe1 Hrs1] ->] | [[Hframe1 Hrs1] [-> Hst]]];
    cbn [negb] in Hphase3.
  - (* no attempt succeeded: degrade *)
    apply bind_Ok in Hphase3 as (u1 & w4 & Hdeg & Hphase3).
    apply bind_Ok in Hphase3 as (rs & w5 & Hget & Hphase3).
    apply get_recovery_state_Ok in Hget as [-> ->].
    assert (Hok2 : ok2 = (degradation_level (recovery_state w4) <? 3) /\ w2 = w4).
    { destruct (degradation_level (recovery_state w4) <? 3);
        apply ret_Ok in Hphase3 as [-> ->]; auto. }
    destruct Hok2 as [-> ->].
    destruct u1.
    pose proof (graceful_degradation_effect _ _ _ _ Hdeg)
      as (h & _ & Hlevel4 & Hsame & Hdiff).
    assert (Hrange : 0 <= degradation_level_for h <= 3).
    { unfold degradation_level_for.
      destruct (h >=? 80); [lia |]. destruct (h >=? 60); [lia |].
      destruct (h >=? 30); lia. }
    split; [exact Hframe1 |].
    destruct (Z.ltb_spec (degradation_level (recovery_state w4)) 3) as [Hlt | Hge].
    + split; [discriminate |]. split; [intros _; right; right; lia |].
      destruct (Z.eq_dec (degradation_level (recovery_state w1))
                         (degradation_level_for h)) as [Heq | Hne].
      * rewrite (Hsame Heq), Hrs1. split; [lia | auto].
      * destruct (Hdiff Hne) as (Hmode4 & Htotal4 & _).
        rewrite Htotal4, Hmode4, Hlevel4, Hrs1. split; [lia | auto].
    + split; [intros _; lia |]. split; [discriminate |].
      destruct (Z.eq_dec (degradation_level (recovery_state w1))
                         (degradation_level_for h)) as [Heq | Hne].
      * rewrite (Hsame Heq), Hrs1. split; [lia | auto].
      * destruct (Hdiff Hne) as (Hmode4 & Htotal4 & _).
        rewrite Htotal4, Hmode4, Hlevel4, Hrs1. split; [lia | auto].
  - (* an attempt succeeded *)
    apply ret_Ok in Hphase3 as [-> ->].
    split; [exact Hframe1 |]. split; [discriminate |].
    split; [intros _; tauto |]. rewrite Hrs1. split; [lia | auto].
Qed.

(** [comprehensive_error_recovery] leaves the error counter, the active
    flag and the size of the register table alone.  It reports failure only
    at degradation level 3; when it reports success, either the status of
    the readings it leaves is NORMAL or WARNING, or the degradation level is
    below 3.  It books one error for itself, and one more when it changes
    the degradation level. *)
Theorem comprehensive_recovery_verdict (s : monitor_system_t)
    (code : error_code_t) (b : bool) (r : option monitor_system_t)
    (w w' : world) :
  comprehensive_error_recovery (Some s) code w = Ok (b, r) w' ->
  exists s', r = Some s' /\
    error_count s' = error_count s /\ system_active s' = system_active s /\
    num_registers s' = num_registers s /\
    (b = false -> degradation_level (recovery_state w') = 3) /\
    (b = true ->
     derived_status s' = STATUS_NORMAL \/ derived_status s' = STATUS_WARNING \/
     0 <= degradation_level (recovery_state w') < 3) /\
    total_errors (recovery_state w) + 1 <= total_errors (recovery_state w')
    <= total_errors (recovery_state w) + 2.
Proof.
  intros H.
  apply comprehensive_error_recovery_effect in H
    as (s' & -> & (He & Ha & Hnum & _) & Hfalse & Htrue & Htotal & _).
  exists s'. repeat apply conj; try assumption; try reflexivity; lia.
Qed.

Lemma comprehensive_recovery_verdict_witness :
  exists s' w',
    comprehensive_error_recovery
      (Some (set_temperature (F32.literal 900 10) nominal_system))
      ERROR_TEMPERATURE_HIGH boot_world = Ok (true, Some s') w' /\
    derived_status (set_temperature (F32.literal 900 10) nominal_system)
    = STATUS_CRITICAL /\
    derived_status s' = STATUS_WARNING /\
    error_count s' = 0 /\ total_errors (recovery_state w') = 1.
Proof.
  eexists _, _. split; [vm_compute; reflexivity |]. split; [reflexivity |].
  split; [reflexivity |].
  match goal with
  | |- error_count ?s' = _ /\ total_errors (recovery_state ?w') = _ =>
      assert (Hrun : comprehensive_error_recovery
                       (Some (set_temperature (F32.literal 900 10) nominal_system))
                       ERROR_TEMPERATURE_HIGH boot_world = Ok (true, Some s') w')
        by (vm_compute; reflexivity)
  end.
  destruct (comprehensive_recovery_verdict _ _ _ _ _ _ Hrun)
    as (s1 & Heq & He & _).
  injection Heq as <-. split; [exact He | reflexivity].
Defined.

(** The scenario driver leaves [error_count] at 8 whatever it was before,
    so that a counter above 8 goes down; it books between five and ten
    errors in the recovery statistics. *)
Theorem simulate_error_scenarios_sets_error_count (s : monitor_system_t)
    (r : option monitor_system_t) (w w' : world) :
  simulate_error_scenarios (Some s) w = Ok r w' ->
  exists s', r = Some s' /\ error_count s' = 8 /\
    system_active s' = system_active s /\
    num_registers s' = num_registers s /\
    total_errors (recovery_state w) + 5 <= total_errors (recovery_state w')
    <= total_errors (recovery_state w) + 10.
Proof.
  unfold simulate_error_scenarios. intros H.
  apply bind_Ok in H as ([b1 r1] & w1 & H1 & H).
  apply comprehensive_error_recovery_effect in H1
    as (s1 & -> & (He1 & Ha1 & Hn1 & _) & _ & _ & Ht1 & _).
  apply bind_Ok in H as ([b2 r2] & w2 & H2 & H).
  apply comprehensive_error_recovery_effect in H2
    as (s2 & -> & (He2 & Ha2 & Hn2 & _) & _ & _ & Ht2 & _).
  apply bind_Ok in H as ([b3 r3] & w3 & H3 & H).
  apply comprehensive_error_recovery_effect in H3
    as (s3 & -> & (He3 & Ha3 & Hn3 & _) & _ & _ & Ht3 & _).
  apply bind_Ok in H as ([b4 r4] & w4 & H4 & H).
  apply comprehensive_error_recovery_effect in H4
    as (s4 & -> & (He4 & Ha4 & Hn4 & _) & _ & _ & Ht4 & _).
  apply bind_Ok in H as ([b5 r5] & w5 & H5 & H).
  apply comprehensive_error_recovery_effect in H5
    as (s5 & -> & (He5 & Ha5 & Hn5 & _) & _ & _ & Ht5 & _).
  apply ret_Ok in H as [-> ->].
  cbn in *. exists s5. split; [reflexivity |].
  repeat apply conj; try congruence; lia.
Qed.

Lemma simulate_error_scenarios_sets_error_count_witness :
  exists s' w',
    simulate_error_scenarios (Some (set_error_count 9 nominal_system)) boot_world
    = Ok (Some s') w' /\
    error_count (set_error_count 9 nominal_system) = 9 /\
    error_count s' = 8 /\ total_errors (recovery_state w') = 5.
Proof.
  eexists _, _. split; [vm_compute; reflexivity |]. split; [reflexivity |].
  match goal with
  | |- error_count ?s' = _ /\ total_errors (recovery_state ?w') = _ =>
      assert (Hrun : simulate_error_scenarios
                       (Some (set_error_count 9 nominal_system)) boot_world
                     = Ok (Some s') w')
        by (vm_compute; reflexivity)
  end.
  destruct (simulate_error_scenarios_sets_error_count _ _ _ _ Hrun)
    as (s1 & Heq & He & _).
  injection Heq as <-. split; [exact He | reflexivity].
Defined.

(** ** The degraded flag *)

Lemma int_shiftl_1_Ok (attempt z : Z) (w w' : world) :
  int_shiftl_1 attempt w = Ok z w' -> w' = w.
Proof.
  unfold int_shiftl_1. destruct (_ && _); [| discriminate].
  intros H. now apply ret_Ok in H as [_ ->].
Qed.

(** The retry mechanism writes log entries and leaves the degradation level
    and the degraded flag alone. *)
Lemma retry_delay_Ok (attempt d : Z) (w w' : world) :
  retry_delay attempt w = Ok d w' -> w' = w.
Proof.
  unfold retry_delay. intros H.
  apply bind_Ok in H as (shifted & w1 & Hshift & H).
  apply int_shiftl_1_Ok in Hshift as ->.
  now apply int_result_Ok in H as (_ & -> & _).
Qed.

Lemma retry_attempt_keeps_degradation (max_retries attempt : Z)
    (s s' : monitor_system_t) (c : control bool) (w w' : world) :
  retry_attempt max_retries attempt s w = Ok (c, s') w' ->
  degradation_level (recovery_state w') = degradation_level (recovery_state w) /\
  degraded_mode (recovery_state w') = degraded_mode (recovery_state w).
Proof.
  unfold retry_attempt. intros H. do 2 printed_sum H.
  destruct (_ || _).
  - destruct (attempt <? max_retries); [| invert_M H; tauto].
    apply bind_Ok in H as (x2 & w2 & H2 & H). apply retry_delay_Ok in H2 as ->.
    apply bind_Ok in H as (x3 & w3 & H3 & H). apply delay_ms_Ok in H3 as ->.
    apply bind_Ok in H as ([ok rec] & w4 & Hrec & H).
    apply attempt_error_recovery_keeps in Hrec as (s1 & -> & _ & _ & _ & _ & Hrs).
    apply bind_Ok in H as (x5 & w5 & H5 & H).
    apply int_result_Ok in H5 as (_ & -> & _).
    apply bind_Ok in H as (x6 & w6 & Hlog & H).
    apply log_recovery_error_Ok in Hlog as (Hlevel & Hmode & _).
    apply ret_Ok in H as [_ ->]. rewrite Hlevel, Hmode, Hrs. tauto.
  - apply bind_Ok in H as (u & w1 & Hlog & H).
    apply ret_Ok in H as [_ ->].
    destruct (attempt >? 0).
    + apply log_recovery_error_Ok in Hlog as (Hlevel & Hmode & _). tauto.
    + apply ret_Ok in Hlog as [_ ->]. tauto.
Qed.

Lemma implement_retry_mechanism_keeps_degradation (s : monitor_system_t)
    (max_retries : Z) (b : bool) (r : option monitor_system_t) (w w' : world) :
  implement_retry_mechanism (Some s) max_retries w = Ok (b, r) w' ->
  degradation_level (recovery_state w') = degradation_level (recovery_state w) /\
  degraded_mode (recovery_state w') = degraded_mode (recovery_state w).
Proof.
  unfold implement_retry_mechanism. intros H.
  apply bind_Ok in H as ([s1 r1] & w1 & Hloop & H).
  apply (for_loop_invariant _
           (fun _ w1 =>
              degradation_level (recovery_state w1)
              = degradation_level (recovery_state w) /\
              degraded_mode (recovery_state w1) = degraded_mode (recovery_state w)))
    in Hloop; [| | tauto].
  - destruct r1 as [b1|].
    + apply ret_Ok in H as [_ ->]. exact Hloop.
    + printed_sum H. apply bind_Ok in H as (u & w2 & Hlog & H).
      apply ret_Ok in H as [_ ->].
      apply log_recovery_error_Ok in Hlog as (Hlevel & Hmode & _).
      rewrite Hlevel, Hmode. exact Hloop.
  - intros i s2 w2 c s3 w3 [Hlevel Hmode] Hstep.
    apply retry_attempt_keeps_degradation in Hstep as [Hlevel' Hmode'].
    split; congruence.
Qed.

(** The degraded flag says whether the degradation level is above 0:
    [init_recovery_system] establishes this, and [log_recovery_error],
    [graceful_degradation], [implement_retry_mechanism] and
    [comprehensive_error_recovery], the functions that write the recovery
    state, all keep it. *)
Theorem degraded_flag_tracks_level (s : monitor_system_t) (w w' : world) :
  (exists w0,
      init_recovery_system (Some s) w = Ok true w0 /\
      degradation_consistent (recovery_state w0)) /\
  (degradation_consistent (recovery_state w) ->
   (forall code desc n ok u,
       log_recovery_error code desc n ok w = Ok u w' ->
       degradation_consistent (recovery_state w')) /\
   (forall u,
       graceful_degradation (Some s) w = Ok u w' ->
       degradation_consistent (recovery_state w')) /\
   (forall max_retries b r,
       implement_retry_mechanism (Some s) max_retries w = Ok (b, r) w' ->
       degradation_consistent (recovery_state w')) /\
   (forall code b r,
       comprehensive_error_recovery (Some s) code w = Ok (b, r) w' ->
       degradation_consistent (recovery_state w'))).
Proof.
  split.
  - destruct (init_recovery_system_wf s w) as (w0 & Hinit & _ & Hlevel & Hmode).
    exists w0. split; [exact Hinit |].
    unfold degradation_consistent. now rewrite Hlevel, Hmode.
  - unfold degradation_consistent. intros Hw. repeat apply conj.
    + intros code desc n ok u H.
      apply log_recovery_error_Ok in H as (Hlevel & Hmode & _). congruence.
    + intros u H.
      apply graceful_degradation_effect in H as (h & _ & Hlevel & Hsame & Hdiff).
      destruct (Z.eq_dec (degradation_level (recovery_state w))
                         (degradation_level_for h)) as [Heq | Hne].
      * now rewrite (Hsame Heq).
      * destruct (Hdiff Hne) as (Hmode & _). congruence.
    + intros max_retries b r H.
      apply implement_retry_mechanism_keeps_degradation in H as [Hlevel Hmode].
      congruence.
    + intros code b r H.
      apply comprehensive_error_recovery_effect in H
        as (s' & _ & _ & _ & _ & _ & Hkeep).
      exact (Hkeep Hw).
Qed.

Lemma degraded_flag_tracks_level_witness :
  degradation_consistent (recovery_state boot_world) /\
  exists w',
    graceful_degradation (Some overheated_system) boot_world = Ok tt w' /\
    degradation_consistent (recovery_state w').
Proof.
  assert (Hboot : degradation_consistent (recovery_state boot_world))
    by reflexivity.
  split; [exact Hboot |].
  eexists. split; [vm_compute; reflexivity |].
  match goal with
  | |- degradation_consistent (recovery_state ?w') =>
      destruct (proj2 (degraded_flag_tracks_level overheated_system boot_world w')
                  Hboot) as (_ & Hdeg & _);
      apply (Hdeg tt); vm_compute; reflexivity
  end.
Defined.

(** ** The shape of the struct across operations *)

Lemma simulate_hardware_failure_keeps (s : monitor_system_t)
    (error_type : error_code_t) (b : bool) (r : option monitor_system_t)
    (w w' : world) :
  simulate_hardware_failure (Some s) error_type w = Ok (b, r) w' ->
  exists s', r = Some s' /\ system_active s' = system_active s /\
    num_registers s' = num_registers s /\ registers s' = registers s.
Proof.
  unfold simulate_hardware_failure. intros H.
  destruct error_type as [|p|p];
    [| do 3 (try destruct p as [p|p|]) |];
    cbn in H; invert_M H;
    eexists; (split; [reflexivity |]); cbn; auto.
Qed.

Lemma init_monitor_system_keeps (s : monitor_system_t)
    (r : option monitor_system_t) (w w' : world) :
  init_monitor_system (Some s) w = Ok r w' ->
  exists s', r = Some s' /\ num_registers s' = 4 /\
    length (registers s') = length (registers s).
Proof.
  unfold init_monitor_system. intros H.
  apply bind_Ok in H as ([s1 r1] & w1 & Hloop & H).
  apply ret_Ok in H as [-> _]. exists s1. split; [reflexivity |].
  apply (for_loop_invariant _
           (fun s1 _ => num_registers s1 = 4 /\
                        length (registers s1) = length (registers s)))
    in Hloop; [exact Hloop | | cbn; tauto].
  intros i s2 w2 c s3 w3 [Hnum Hlen] Hstep.
  unfold init_register in Hstep. invert_M Hstep. cbn.
  rewrite length_insert. tauto.
Qed.

Lemma retry_attempt_keeps (max_retries attempt : Z) (s s' : monitor_system_t)
    (c : control bool) (w w' : world) :
  retry_attempt max_retries attempt s w = Ok (c, s') w' ->
  system_active s' = system_active s /\ num_registers s' = num_registers s /\
  length (registers s') = length (registers s).
Proof.
  unfold retry_attempt. intros H. do 2 printed_sum H.
  destruct (_ || _).
  - destruct (attempt <? max_retries); [| invert_M H; tauto].
    apply bind_Ok in H as (x2 & w2 & _ & H).
    apply bind_Ok in H as (x3 & w3 & _ & H).
    apply bind_Ok in H as ([ok rec] & w4 & Hrec & H).
    apply attempt_error_recovery_keeps in Hrec as (s1 & -> & _ & Ha & Hn & Hl & _).
    apply bind_Ok in H as (x5 & w5 & _ & H).
    apply bind_Ok in H as (x6 & w6 & _ & H).
    apply ret_Ok in H as [Heq _]. injection Heq as _ <-. tauto.
  - apply bind_Ok in H as (x1 & w1 & _ & H).
    apply ret_Ok in H as [Heq _]. injection Heq as _ <-. tauto.
Qed.

Lemma implement_retry_mechanism_keeps (s : monitor_system_t) (max_retries : Z)
    (b : bool) (r : option monitor_system_t) (w w' : world) :
  implement_retry_mechanism (Some s) max_retries w = Ok (b, r) w' ->
  exists s', r = Some s' /\ system_active s' = system_active s /\
    num_registers s' = num_registers s /\
    length (registers s') = length (registers s).
Proof.
  unfold implement_retry_mechanism. intros H.
  apply bind_Ok in H as ([s1 r1] & w1 & Hloop & H).
  apply (for_loop_invariant _
           (fun s1 _ => system_active s1 = system_active s /\
                        num_registers s1 = num_registers s /\
                        length (registers s1) = length (registers s)))
    in Hloop; [| | tauto].
  - destruct r1 as [b1|].
    + apply ret_Ok in H as [Heq _]. injection Heq as _ ->. eauto.
    + printed_sum H. apply bind_Ok in H as (x & w2 & _ & H).
      apply ret_Ok in H as [Heq _]. injection Heq as _ ->. eauto.
  - intros i s2 w2 c s3 w3 (Ha & Hn & Hl) Hstep.
    apply retry_attempt_keeps in Hstep as (Ha' & Hn' & Hl').
    repeat apply conj; congruence.
Qed.

(** What every operation keeps of the struct: the table keeps its length,
    and every operation but the initialisation keeps [num_registers] and
    cannot turn an inactive system active. *)
Lemma run_operation_keeps (op : operation) (s : monitor_system_t)
    (r : option monitor_system_t) (w w' : world) :
  run_operation op (Some s) w = Ok r w' ->
  exists s', r = Some s' /\
    length (registers s') = length (registers s) /\
    (if is_init op then num_registers s' = 4
     else num_registers s' = num_registers s /\
          (system_active s = false -> system_active s' = false)).
Proof.
  intros H. destruct op; cbn [run_operation is_init] in H |- *;
    try (apply ret_Ok in H as [-> _];
         eexists; split; [reflexivity | cbn; tauto]);
    try (apply inspect_then_return in H as ->; exists s; tauto).
  - (* scan_all_registers *)
    apply bind_Ok in H as ([n r1] & w1 & Hscan & H).
    apply ret_Ok in H as [-> _].
    apply scan_all_registers_frame in Hscan as (s' & -> & Hframe & _).
    destruct Hframe as (_ & _ & _ & _ & Ha & Hn & Hl).
    exists s'. rewrite Ha. tauto.
  - (* continuous_monitoring_loop *)
    unfold continuous_monitoring_loop in H.
    destruct (duration_seconds <=? 0).
    { apply ret_Ok in H as [-> _]. exists s. tauto. }
    apply bind_Ok in H as (start_time & w1 & _ & H).
    apply bind_Ok in H as ([s' n'] & w2 & Hloop & H).
    apply ret_Ok in H as [-> _].
    apply monitoring_passes_keep in Hloop as [(_ & _ & _ & Ha & Hn & Hl) _].
    exists s'. rewrite Ha. tauto.
  - (* update_all_registers *)
    apply update_all_registers_frame in H
      as (s' & -> & _ & _ & _ & _ & Ha & Hn & Hl & _).
    exists s'. rewrite Ha. tauto.
  - (* simulate_hardware_failure *)
    apply bind_Ok in H as ([b r1] & w1 & Hsim & H).
    apply ret_Ok in H as [-> _].
    apply simulate_hardware_failure_keeps in Hsim as (s' & -> & Ha & Hn & Hregs).
    exists s'. rewrite Ha, Hregs. tauto.
  - (* attempt_error_recovery *)
    apply bind_Ok in H as ([b r1] & w1 & Hrec & H).
    apply ret_Ok in H as [-> _].
    apply attempt_error_recovery_keeps in Hrec as (s' & -> & _ & Ha & Hn & Hl & _).
    exists s'. rewrite Ha. tauto.
  - (* emergency_shutdown *)
    unfold emergency_shutdown in H.
    apply bind_Ok in H as (x & w1 & _ & H).
    apply ret_Ok in H as [-> _]. eexists. split; [reflexivity |]. cbn. tauto.
  - (* init_monitor_system *)
    apply init_monitor_system_keeps in H as (s' & -> & Hn & Hl). eauto.
  - (* implement_retry_mechanism *)
    apply bind_Ok in H as ([b r1] & w1 & Hretry & H).
    apply ret_Ok in H as [-> _].
    apply implement_retry_mechanism_keeps in Hretry as (s' & -> & Ha & Hn & Hl).
    exists s'. rewrite Ha. tauto.
Qed.

(** Along any sequence of operations on one struct the register table
    keeps its length and stays in bounds.  Along a sequence without
    [init_monitor_system], moreover, the error counter never goes down,
    [num_registers] stays what it was, and a system that is inactive stays
    inactive: only a new initialisation re-activates it. *)
Theorem operations_keep_the_struct_in_shape (ops : list operation) :
  forall (s : monitor_system_t) (r : option monitor_system_t) (w w' : world),
    run_operations ops (Some s) w = Ok r w' ->
    exists s', r = Some s' /\
      length (registers s') = length (registers s) /\
      (registers_in_bounds s = true -> registers_in_bounds s' = true) /\
      (forallb (fun op => negb (is_init op)) ops = true ->
       error_count s <= error_count s' /\
       num_registers s' = num_registers s /\
       (system_active s = false -> system_active s' = false)).
Proof.
  induction ops as [|op ops IH]; intros s r w w' H; simpl in H.
  - apply ret_Ok in H as [-> _]. exists s.
    split; [reflexivity |]. split; [reflexivity |]. split; [auto |].
    intros _. split; [lia | auto].
  - apply bind_Ok in H as (r1 & w1 & Hop & H).
    pose proof (run_operation_frame _ _ _ _ _ Hop) as (s1 & Heq & Hcount).
    apply run_operation_keeps in Hop as (s1' & -> & Hl1 & Hshape1).
    injection Heq as <-.
    apply IH in H as (s' & -> & Hl & Hb & Hrest).
    exists s'. split; [reflexivity |]. split; [congruence |]. split.
    + intros Hb0. apply Hb. unfold registers_in_bounds, MAX_REGISTERS in *.
      rewrite Hl1. destruct (is_init op).
      * rewrite Hshape1. apply andb_true_intro. split; [lia | reflexivity].
      * destruct Hshape1 as [-> _]. exact Hb0.
    + cbn [forallb]. intros Hops. apply andb_prop in Hops as [Hop Hops].
      destruct (Hrest Hops) as (He & Hn & Ha).
      destruct (is_init op) eqn:Hinit; [discriminate Hop |].
      destruct Hshape1 as [Hn1 Ha1].
      repeat apply conj; [| congruence | auto].
      destruct op; try discriminate Hinit; cbn in Hcount; lia.
Qed.

Lemma operations_keep_the_struct_in_shape_witness :
  exists s' w',
    run_operations [Op_simulate_hardware_failure ERROR_VOLTAGE_LOW;
                    Op_emergency_shutdown;
                    Op_attempt_error_recovery ERROR_VOLTAGE_LOW;
                    Op_update_all_registers]
                   (Some nominal_system) boot_world = Ok (Some s') w' /\
    error_count nominal_system <= error_count s' /\
    system_active s' = false /\ status s' = STATUS_NORMAL.
Proof.
  eexists _, _. split; [vm_compute; reflexivity |].
  match goal with
  | |- _ <= error_count ?s' /\ _ =>
      destruct (operations_keep_the_struct_in_shape
                  [Op_simulate_hardware_failure ERROR_VOLTAGE_LOW;
                   Op_emergency_shutdown;
                   Op_attempt_error_recovery ERROR_VOLTAGE_LOW;
                   Op_update_all_registers]
                  nominal_system (Some s') boot_world _ eq_refl)
        as (s1 & Heq & _ & _ & Hrest)
  end.
  injection Heq as <-.
  destruct (Hrest eq_refl) as (He & _ & _).
  split; [exact He |]. split; reflexivity.
Defined.

(** ** Error messages *)

Lemma get_error_message_unnamed (code : error_code_t) :
  named_error_code code = false ->
  get_error_message code = Some "Unknown error"%string.
Proof.
  intros Hnamed.
  destruct (unnamed_error_code_cases code Hnamed) as [[p ->] | [p [-> Hp]]];
    [reflexivity |].
  do 4 (try (destruct p as [p|p|]; try reflexivity; try lia)).
Qed.

(** The message identifies the code: a named code shares its message with
    no other integer, named or not, and in particular no named code is
    reported as "Unknown error". *)
Theorem error_messages_tell_codes_apart (c1 c2 : error_code_t) :
  named_error_code c1 = true ->
  get_error_message c1 = get_error_message c2 ->
  c1 = c2 /\ get_error_message c1 <> Some "Unknown error"%string.
Proof.
  intros H1 Heq.
  destruct (named_error_code c2) eqn:H2.
  - destruct (named_error_code_cases c1 H1)
      as [-> | [-> | [-> | [-> | [-> | [-> | [-> | [-> | ->]]]]]]]];
      destruct (named_error_code_cases c2 H2)
        as [-> | [-> | [-> | [-> | [-> | [-> | [-> | [-> | ->]]]]]]]];
      try discriminate Heq; (split; [reflexivity | discriminate]).
  - rewrite (get_error_message_unnamed c2 H2) in Heq.
    destruct (named_error_code_cases c1 H1)
      as [-> | [-> | [-> | [-> | [-> | [-> | [-> | [-> | ->]]]]]]]];
      discriminate Heq.
Qed.

Lemma error_messages_tell_codes_apart_witness :
  named_error_code ERROR_TIMEOUT = true /\
  get_error_message ERROR_TIMEOUT = Some "Operation timeout"%string /\
  get_error_message ERROR_TIMEOUT <> Some "Unknown error"%string.
Proof.
  split; [reflexivity |]. split; [reflexivity |].
  exact (proj2 (error_messages_tell_codes_apart ERROR_TIMEOUT ERROR_TIMEOUT
                  eq_refl eq_refl)).
Defined.

(** * The chip array *)

(** ** Initialisation of the chips *)

(** A loop whose passes are all defined and none of which leaves the loop
    makes all its passes and keeps the invariant. *)
Lemma for_loop_total {St R} (body : Z -> St -> M (control R * St))
    (I : Z -> St -> world -> Prop) (hi : Z) :
  (forall i s w, i < hi -> I i s w ->
                 exists s' w', body i s w = Ok (Next, s') w' /\ I (i + 1) s' w') ->
  forall n i s w,
    I i s w -> i + Z.of_nat n <= hi ->
    exists s' w', for_loop n i body s w = Ok (s', None) w' /\
                  I (i + Z.of_nat n) s' w'.
Proof.
  intros Hbody. induction n as [|n IH]; intros i s w HI Hhi; simpl.
  - exists s, w. split; [reflexivity |].
    now replace (i + Z.of_nat 0) with i by lia.
  - destruct (Hbody i s w) as (s1 & w1 & Hstep & HI1); [lia | assumption |].
    rewrite (bind_Ok_intro _ _ _ _ _ Hstep). cbn beta iota.
    replace (i + Z.of_nat (S n)) with (i + 1 + Z.of_nat n) by lia.
    apply IH; [assumption | lia].
Qed.

Lemma customise_register_step (chip reg : Z) (m : monitor_system_t) (w : world)
    (r : register_info_t) :
  0 <= chip < MAX_CHIPS ->
  0 <= reg < Z.of_nat (length (registers m)) ->
  registers m !! Z.to_nat reg = Some r ->
  customise_register chip reg m w
  = Ok (Next,
        set_registers
          (<[Z.to_nat reg := mk_register_info (wrap32 (address r + chip * 4096))
                               (value r) (expected_min r) (expected_max r)
                               (is_valid r) (chip_register_name chip reg)]>
             (registers m)) m) w.
Proof.
  unfold MAX_CHIPS. intros Hchip Hreg Hr. unfold customise_register, array_get.
  destruct (Z.ltb_spec reg 0); [exfalso; lia |]. rewrite Hr.
  rewrite ret_bind. forward_M. forward_M. reflexivity.
Qed.

Lemma init_chip_exact (chip : Z) (chips : list chip_system_t)
    (c : chip_system_t) (w : world) :
  0 <= chip < MAX_CHIPS ->
  chips !! Z.to_nat chip = Some c ->
  (4 <= length (registers (monitor c)))%nat ->
  init_chip chip chips w
  = Ok (Next, <[Z.to_nat chip := initialised_chip chip c]> chips) w.
Proof.
  unfold MAX_CHIPS. intros Hchip Hc Hlen.
  assert (Hbound : 0 <= chip < Z.of_nat (length chips))
    by (apply lookup_lt_Some in Hc; lia).
  unfold init_chip, array_get.
  destruct (Z.ltb_spec chip 0); [exfalso; lia |]. rewrite Hc.
  rewrite ret_bind.
  assert (Hcases : chip = 0 \/ chip = 1 \/ chip = 2 \/ chip = 3 \/
                   chip = 4 \/ chip = 5 \/ chip = 6 \/ chip = 7) by lia.
  rewrite (Z.rem_mod_nonneg chip 3) by lia.
  assert (Hpriority : int_result (chip mod 3 + 1) w = Ok (chip mod 3 + 1) w).
  { apply int_result_intro. unfold INT_MIN, INT_MAX.
    pose proof (Z.mod_pos_bound chip 3). lia. }
  rewrite (bind_Ok_intro _ _ _ _ _ Hpriority). cbn beta. clear Hpriority.
  set (tail := drop 4 (registers (monitor c))).
  assert (Hstart : init_monitor_system (Some (monitor c)) w
                   = Ok (Some (set_registers
                                 (take 4 (registers nominal_system) ++ tail)
                                 nominal_system)) w)
    by (apply init_monitor_system_exact, Hlen).
  repeat (destruct Hcases as [-> | Hcases]); try subst chip;
    (rewrite (bind_Ok_intro _ _ _ _ _ Hstart); cbn beta iota;
     change (Z.to_nat (num_registers
                         (set_registers
                            (take 4 (registers nominal_system) ++ tail)
                            nominal_system))) with 4%nat;
     cbn [for_loop];
     do 4 (rewrite ?bind_assoc;
           erewrite bind_Ok_intro
             by (apply customise_register_step;
                 [unfold MAX_CHIPS; lia
                 | repeat (cbn [registers set_registers]; rewrite ?length_insert);
                   rewrite length_app; cbn [length take registers nominal_system];
                   lia
                 | reflexivity]);
           cbn beta iota);
     rewrite ret_bind; cbn beta iota;
     rewrite (bind_Ok_intro _ _ _ _ _ (array_set_intro chips _ _ w Hbound));
     reflexivity).
Qed.

Lemma initialised_chip_table (chip : Z) (c : chip_system_t) :
  Z.of_nat (length (registers (monitor c))) = MAX_REGISTERS ->
  Z.of_nat (length (registers (monitor (initialised_chip chip c))))
  = MAX_REGISTERS.
Proof.
  unfold MAX_REGISTERS. intros H. cbn [initialised_chip monitor registers
    set_registers]. rewrite length_app, length_drop. cbn [length]. lia.
Qed.

Lemma init_chips_exact (w : world) (k : nat) :
  forall (i : nat) (chips : list chip_system_t),
    (i + k <= length chips)%nat -> Z.of_nat (length chips) <= MAX_CHIPS ->
    chips_have_tables chips ->
    exists chips',
      for_loop k (Z.of_nat i) init_chip chips w = Ok (chips', None) w /\
      length chips' = length chips /\
      chips_have_tables chips' /\
      (forall j c, (i <= j < i + k)%nat -> chips !! j = Some c ->
                   chips' !! j = Some (initialised_chip (Z.of_nat j) c)) /\
      (forall j, ~ (i <= j < i + k)%nat -> chips' !! j = chips !! j).
Proof.
  induction k as [|k IH]; intros i chips Hk Hmax Htables; simpl.
  - exists chips. split; [reflexivity |]. split; [reflexivity |].
    split; [exact Htables |]. split; [intros; lia | reflexivity].
  - destruct (lookup_lt_is_Some_2 chips i) as [c Hc]; [lia |].
    assert (Htable : Z.of_nat (length (registers (monitor c))) = MAX_REGISTERS)
      by exact (Forall_lookup_1 _ _ _ _ Htables Hc).
    assert (Hstep : init_chip (Z.of_nat i) chips w
                    = Ok (Next, <[i := initialised_chip (Z.of_nat i) c]> chips) w).
    { rewrite <- (Nat2Z.id i) at 2. apply init_chip_exact.
      - unfold MAX_CHIPS in *. lia.
      - now rewrite Nat2Z.id.
      - unfold MAX_REGISTERS in Htable. lia. }
    rewrite (bind_Ok_intro _ _ _ _ _ Hstep). cbn beta iota.
    replace (Z.of_nat i + 1) with (Z.of_nat (S i)) by lia.
    destruct (IH (S i) (<[i := initialised_chip (Z.of_nat i) c]> chips))
      as (chips' & Hloop & Hlen & Htables' & Hin & Hout).
    { rewrite length_insert. lia. }
    { rewrite length_insert. exact Hmax. }
    { apply Forall_insert; [exact Htables |].
      now apply initialised_chip_table. }
    exists chips'. split; [exact Hloop |].
    split; [now rewrite Hlen, length_insert |]. split; [exact Htables' |].
    split.
    + intros j cj Hj Hcj. destruct (Nat.eq_dec j i) as [-> | Hne].
      * rewrite Hout by lia. rewrite list_lookup_insert_eq by lia. congruence.
      * apply Hin; [lia |]. now rewrite list_lookup_insert_ne by lia.
    + intros j Hj. rewrite Hout by lia. now rewrite list_lookup_insert_ne by lia.
Qed.

(** [init_multi_chip_system] rejects a chip count outside 1..8 without
    touching the array.  On a count in range it returns true and stores the
    count; chip [j] below the count gets id [j], the active flag, priority
    [j mod 3 + 1] and the nominal monitor with its four registers moved to
    0x40000000 + 0x1000 * j and renamed, whatever the slot held before (the
    register slots from index 4 on apart); the chips from the count on are
    untouched. *)
Theorem init_multi_chip_system_postcondition (num_chips : Z)
    (mc : multi_chip_t) (w : world) :
  Z.of_nat (length (chip_systems mc)) = MAX_CHIPS ->
  chips_have_tables (chip_systems mc) ->
  (num_chips <= 0 \/ MAX_CHIPS < num_chips ->
   init_multi_chip_system num_chips mc w = Ok (false, mc) w) /\
  (1 <= num_chips <= MAX_CHIPS ->
   exists mc',
     init_multi_chip_system num_chips mc w = Ok (true, mc') w /\
     active_chip_count mc' = num_chips /\
     length (chip_systems mc') = length (chip_systems mc) /\
     chips_have_tables (chip_systems mc') /\
     (forall j c, (j < Z.to_nat num_chips)%nat ->
                  chip_systems mc !! j = Some c ->
                  chip_systems mc' !! j = Some (initialised_chip (Z.of_nat j) c)) /\
     (forall j, (Z.to_nat num_chips <= j)%nat ->
                chip_systems mc' !! j = chip_systems mc !! j)).
Proof.
  intros Hlen Htables. unfold init_multi_chip_system. split.
  - intros Hbad.
    destruct (Z.leb_spec num_chips 0); [reflexivity |].
    destruct (Z.gtb_spec num_chips MAX_CHIPS); [reflexivity | exfalso; lia].
  - intros Hgood.
    destruct (Z.leb_spec num_chips 0); [exfalso; lia |].
    destruct (Z.gtb_spec num_chips MAX_CHIPS); [exfalso; lia |].
    cbn [orb].
    destruct (init_chips_exact w (Z.to_nat num_chips) 0 (chip_systems mc))
      as (chips' & Hloop & Hlen' & Htables' & Hin & Hout);
      [lia | lia | exact Htables |].
    change (Z.of_nat 0) with 0 in Hloop.
    rewrite (bind_Ok_intro _ _ _ _ _ Hloop). cbn.
    eexists. split; [reflexivity |]. cbn.
    repeat apply conj; try assumption; try reflexivity.
    + intros j c Hj. apply Hin. lia.
    + intros j Hj. apply Hout. lia.
Qed.

Lemma init_multi_chip_system_postcondition_witness :
  Z.of_nat (length (chip_systems zeroed_chips)) = MAX_CHIPS /\
  chips_have_tables (chip_systems zeroed_chips) /\
  exists mc',
    init_multi_chip_system 4 zeroed_chips boot_world = Ok (true, mc') boot_world /\
    chip_systems mc' !! 3%nat = Some (initialised_chip 3 zeroed_chip) /\
    priority_level (initialised_chip 3 zeroed_chip) = 1 /\
    chip_systems mc' !! 4%nat = Some zeroed_chip.
Proof.
  assert (Htables : chips_have_tables (chip_systems zeroed_chips))
    by (repeat constructor).
  split; [reflexivity |]. split; [exact Htables |].
  destruct (proj2 (init_multi_chip_system_postcondition 4 zeroed_chips boot_world
                     eq_refl Htables))
    as (mc' & Hinit & _ & _ & _ & Hin & Hout); [unfold MAX_CHIPS; lia |].
  exists mc'. split; [exact Hinit |].
  split; [apply (Hin 3%nat zeroed_chip); [cbn; lia | reflexivity] |].
  split; [reflexivity |].
  rewrite (Hout 4%nat) by (cbn; lia). reflexivity.
Defined.

(** ** The scan over the chips *)

Lemma array_get_lookup {A} (a : list A) (i : Z) (x : A) (w : world) :
  0 <= i -> a !! Z.to_nat i = Some x -> array_get a i w = Ok x w.
Proof.
  intros Hi Hx. unfold array_get.
  destruct (Z.ltb_spec i 0); [exfalso; lia |]. now rewrite Hx.
Qed.

Lemma read_register_exact (addr : Z) (w : world) :
  read_register addr w
  = Ok (next_read w) (set_counter (wrap32 (counter w + 1)) w).
Proof.
  destruct (read_register_intro addr w) as [v Hv].
  destruct (read_register_value _ _ _ _ Hv) as (-> & _ & _). exact Hv.
Qed.

Lemma accepted_read_valid (r : register_info_t) (w : world) :
  accepts_simulated_reads r ->
  validate_register (address r) (next_read w) (expected_min r) (expected_max r)
  = true.
Proof.
  intros [Hmin Hmax]. unfold next_read.
  assert (0 <= wrap32 (counter w + 1) mod 16 < 16) by (apply Z.mod_pos_bound; lia).
  unfold validate_register.
  destruct (Z.ltb_spec (305419896 + 16 * (wrap32 (counter w + 1) mod 16))
                       (expected_min r)); [lia |].
  destruct (Z.gtb_spec (305419896 + 16 * (wrap32 (counter w + 1) mod 16))
                       (expected_max r)); [lia | reflexivity].
Qed.

Lemma reads_trans (j k : Z) (w w1 w2 : world) :
  reads j w w1 -> reads k w1 w2 -> reads (j + k) w w2.
Proof.
  unfold reads, wrap32. intros (Hr & Hs & Hc & Hj) (Hr' & Hs' & Hc' & Hk).
  repeat apply conj; try congruence.
  rewrite Hk.
  rewrite <- Z.add_mod_idemp_l by (unfold UINT32_MODULUS; lia).
  rewrite Hj.
  rewrite Z.add_mod_idemp_l by (unfold UINT32_MODULUS; lia).
  f_equal. lia.
Qed.

(** One pass of the inner loop on a register that accepts the value read. *)
Lemma scan_chip_register_accepted (chip reg : Z) (chips : list chip_system_t)
    (tv ts : Z) (c : chip_system_t) (r : register_info_t) (w : world) :
  0 <= chip -> chips !! Z.to_nat chip = Some c ->
  0 <= reg -> registers (monitor c) !! Z.to_nat reg = Some r ->
  accepts_simulated_reads r ->
  0 <= tv < INT_MAX -> 0 <= ts < INT_MAX ->
  scan_chip_register chip reg (chips, tv, ts) w
  = Ok (Next,
        (<[Z.to_nat chip :=
             set_monitor
               (set_registers
                  (<[Z.to_nat reg := refreshed (next_read w) r]>
                     (registers (monitor c))) (monitor c)) c]> chips,
         tv + 1, ts + 1))
       (set_counter (wrap32 (counter w + 1)) w).
Proof.
  intros Hchip Hc Hreg Hr Hacc Htv Hts.
  assert (Hbc : 0 <= chip < Z.of_nat (length chips))
    by (apply lookup_lt_Some in Hc; lia).
  assert (Hbr : 0 <= reg < Z.of_nat (length (registers (monitor c))))
    by (apply lookup_lt_Some in Hr; lia).
  unfold scan_chip_register.
  forward_M.
  rewrite (bind_Ok_intro _ _ _ _ _ (array_get_lookup _ _ _ _ Hchip Hc)). cbn beta.
  rewrite (bind_Ok_intro _ _ _ _ _ (array_get_lookup _ _ _ _ Hreg Hr)). cbn beta.
  rewrite (bind_Ok_intro _ _ _ _ _ (read_register_exact _ _)). cbn beta zeta.
  cbn [address expected_min expected_max set_value].
  unfold refreshed.
  rewrite (accepted_read_valid r w Hacc).
  rewrite (bind_Ok_intro _ _ _ _ _ (array_set_intro _ _ _ _ Hbr)). cbn beta iota.
  forward_M.
  rewrite (bind_Ok_intro _ _ _ _ _ (array_set_intro _ _ _ _ Hbc)).
  reflexivity.
Qed.

Lemma registers_refreshed_step (c0 c : chip_system_t) (reg : Z)
    (r r' : register_info_t) :
  0 <= reg ->
  chip_id c = chip_id c0 /\ is_active c = is_active c0 /\
  priority_level c = priority_level c0 /\
  registers_only (monitor c0) (monitor c) /\
  Forall2 refreshes (take (Z.to_nat reg) (registers (monitor c0)))
                    (take (Z.to_nat reg) (registers (monitor c))) /\
  drop (Z.to_nat reg) (registers (monitor c))
  = drop (Z.to_nat reg) (registers (monitor c0)) ->
  registers (monitor c) !! Z.to_nat reg = Some r -> refreshes r r' ->
  let c' := set_monitor (set_registers (<[Z.to_nat reg := r']>
                                          (registers (monitor c))) (monitor c)) c in
  chip_id c' = chip_id c0 /\ is_active c' = is_active c0 /\
  priority_level c' = priority_level c0 /\
  registers_only (monitor c0) (monitor c') /\
  Forall2 refreshes (take (Z.to_nat (reg + 1)) (registers (monitor c0)))
                    (take (Z.to_nat (reg + 1)) (registers (monitor c'))) /\
  drop (Z.to_nat (reg + 1)) (registers (monitor c'))
  = drop (Z.to_nat (reg + 1)) (registers (monitor c0)).
Proof.
  intros Hreg (Hid & Hact & Hprio & Honly & Hdone & Hrest) Hr Hrr c'.
  destruct (refresh_step _ _ _ _ _ Hdone Hrest Hr Hrr) as [Hdone' Hrest'].
  rewrite (to_nat_succ reg Hreg). subst c'. cbn.
  split; [exact Hid |]. split; [exact Hact |]. split; [exact Hprio |].
  split; [eapply registers_only_trans; [exact Honly | apply registers_only_set] |].
  split; assumption.
Qed.

(** The inner loop on a chip whose registers all accept the values read:
    every register is counted, none is booked as an error. *)
Lemma scan_chip_registers_clean (chip : Z) (chips0 : list chip_system_t)
    (c0 : chip_system_t) (tv0 ts0 : Z) (w0 : world) :
  0 <= chip -> chips0 !! Z.to_nat chip = Some c0 -> scans_clean c0 ->
  0 <= tv0 <= 1000 -> 0 <= ts0 <= 1000 ->
  exists c w,
    for_loop (Z.to_nat (num_registers (monitor c0))) 0
             (scan_chip_register chip) (chips0, tv0, ts0) w0
    = Ok ((<[Z.to_nat chip := c]> chips0,
           tv0 + Z.max 0 (num_registers (monitor c0)),
           ts0 + Z.max 0 (num_registers (monitor c0))), None) w /\
    registers_refreshed c0 c /\
    reads (Z.max 0 (num_registers (monitor c0))) w0 w.
Proof.
  intros Hchip Hc0 (Hlen & Hnum & Hacc) Htv Hts. unfold MAX_REGISTERS in *.
  pose (I := fun (reg : Z) (st : list chip_system_t * Z * Z) (w : world) =>
               0 <= reg /\ st.1.2 = tv0 + reg /\ st.2 = ts0 + reg /\
               reads reg w0 w /\
               exists c, st.1.1 = <[Z.to_nat chip := c]> chips0 /\
                 chip_id c = chip_id c0 /\ is_active c = is_active c0 /\
                 priority_level c = priority_level c0 /\
                 registers_only (monitor c0) (monitor c) /\
                 Forall2 refreshes
                   (take (Z.to_nat reg) (registers (monitor c0)))
                   (take (Z.to_nat reg) (registers (monitor c))) /\
                 drop (Z.to_nat reg) (registers (monitor c))
                 = drop (Z.to_nat reg) (registers (monitor c0))).
  destruct (for_loop_total (scan_chip_register chip) I
              (Z.max 0 (num_registers (monitor c0)))) with
    (n := Z.to_nat (num_registers (monitor c0))) (i := 0)
    (s := (chips0, tv0, ts0)) (w := w0)
    as ([[chips1 tv1] ts1] & w1 & Hloop & Hend).
  - intros reg [[chips tv] ts] w Hhi
      (Hreg & Htv1 & Hts1 & Hreads & c & Hchips & Hkept). cbn in Htv1, Hts1, Hchips.
    subst chips tv ts.
    assert (Hsize : length (registers (monitor c)) = length (registers (monitor c0)))
      by (destruct Hkept as (_ & _ & _ & Honly & _); apply Honly).
    destruct (lookup_lt_is_Some_2 (registers (monitor c)) (Z.to_nat reg))
      as [r Hr]; [lia |].
    assert (Hr0 : registers (monitor c0) !! Z.to_nat reg = Some r).
    { destruct Hkept as (_ & _ & _ & _ & _ & Hrest).
      rewrite <- (Nat.add_0_r (Z.to_nat reg)), <- lookup_drop, <- Hrest,
        lookup_drop, Nat.add_0_r. exact Hr. }
    assert (Haccr : accepts_simulated_reads r).
    { apply (Forall_lookup_1 _ _ (Z.to_nat reg) _ Hacc).
      unfold visited_registers. rewrite lookup_take_lt by lia. exact Hr0. }
    assert (Hbc : (Z.to_nat chip < length chips0)%nat)
      by (eapply lookup_lt_Some; eassumption).
    eexists _, _. split.
    + apply (scan_chip_register_accepted chip reg _ _ _ c r); try lia.
      * now apply list_lookup_insert_eq.
      * exact Hr.
      * exact Haccr.
      * unfold INT_MAX. lia.
      * unfold INT_MAX. lia.
    + unfold I. cbn [fst snd].
      split; [lia |]. split; [lia |]. split; [lia |].
      split; [apply reads_succ, Hreads |].
      eexists. split; [apply list_insert_insert_eq |].
      apply (registers_refreshed_step c0 c reg r); auto.
      apply next_read_refreshes.
  - unfold I. cbn [fst snd].
    split; [lia |]. split; [lia |]. split; [lia |]. split; [apply reads_zero |].
    exists c0. split; [symmetry; now apply list_insert_id |].
    split; [reflexivity |]. split; [reflexivity |]. split; [reflexivity |].
    split; [apply registers_only_refl |]. split; [constructor | reflexivity].
  - lia.
  - destruct Hend as (_ & Htv1 & Hts1 & Hreads & c & Hchips & Hid & Hact & Hprio
                      & Honly & Hdone & Hrest).
    cbn in Htv1, Hts1, Hchips. subst.
    replace (0 + Z.of_nat (Z.to_nat (num_registers (monitor c0))))
      with (Z.max 0 (num_registers (monitor c0))) in * by lia.
    replace (Z.to_nat (Z.max 0 (num_registers (monitor c0))))
      with (Z.to_nat (num_registers (monitor c0))) in * by lia.
    exists c, w1. split; [exact Hloop |]. split; [| exact Hreads].
    assert (Hnum' : num_registers (monitor c) = num_registers (monitor c0))
      by apply Honly.
    unfold registers_refreshed, visited_registers. rewrite Hnum'.
    split; [exact Hid |]. split; [exact Hact |]. split; [exact Hprio |].
    split; [exact Honly |]. split; assumption.
Qed.

(** One pass of the outer loop: an inactive chip is skipped, an active chip
    whose registers accept the values read is scanned to the end. *)
Lemma scan_chip_clean (chip : Z) (chips0 : list chip_system_t)
    (c0 : chip_system_t) (tv0 ts0 : Z) (w0 : world) :
  0 <= chip -> chips0 !! Z.to_nat chip = Some c0 ->
  (is_active c0 = true -> scans_clean c0) ->
  0 <= tv0 <= 1000 -> 0 <= ts0 <= 1000 ->
  exists c w,
    scan_chip chip (chips0, tv0, ts0) w0
    = Ok (Next, (<[Z.to_nat chip := c]> chips0,
                 tv0 + scanned_registers c0, ts0 + scanned_registers c0)) w /\
    chip_scanned c0 c /\ reads (scanned_registers c0) w0 w.
Proof.
  intros Hchip Hc0 Hclean Htv Hts.
  unfold scan_chip, scanned_registers, chip_scanned. cbn [fst].
  rewrite (bind_Ok_intro _ _ _ _ _ (array_get_lookup _ _ _ _ Hchip Hc0)).
  cbn beta.
  destruct (is_active c0) eqn:Hact; cbn [negb].
  - destruct (scan_chip_registers_clean chip chips0 c0 tv0 ts0 w0 Hchip Hc0
                (Hclean eq_refl) Htv Hts) as (c & w & Hloop & Hc & Hreads).
    rewrite (bind_Ok_intro _ _ _ _ _ Hloop). cbn beta iota. cbn [fst].
    assert (Hlookup : <[Z.to_nat chip := c]> chips0 !! Z.to_nat chip = Some c)
      by (apply list_lookup_insert_eq; eapply lookup_lt_Some; eassumption).
    rewrite (bind_Ok_intro _ _ _ _ _ (array_get_lookup _ _ _ _ Hchip Hlookup)).
    cbn beta.
    destruct (count_valid_registers_defined (monitor c) w) as (n & w' & Hcount).
    { destruct (Hclean eq_refl) as (Hlen & Hnum & _).
      destruct Hc as (_ & _ & _ & Honly & _).
      destruct Honly as (_ & _ & _ & _ & _ & _ & Hnum' & Hlen').
      unfold registers_in_bounds. rewrite Hlen', Hnum'.
      apply andb_true_intro. split; [now apply Z.eqb_eq | now apply Z.leb_le]. }
    pose proof (count_valid_registers_exact _ _ _ _ Hcount) as [-> _].
    rewrite (bind_Ok_intro _ _ _ _ _ Hcount).
    exists c, w. split; [reflexivity |]. split; assumption.
  - exists c0, w0. rewrite list_insert_id by exact Hc0. rewrite !Z.add_0_r.
    split; [reflexivity |]. split; [reflexivity | apply reads_zero].
Qed.

Lemma active_registers_cons (c : chip_system_t) (l : list chip_system_t) :
  active_registers (c :: l) = scanned_registers c + active_registers l.
Proof. reflexivity. Qed.

Lemma scan_chips_clean (k : nat) :
  forall (i : nat) (chips : list chip_system_t) (tv ts : Z) (w : world),
    (i + k <= length chips)%nat -> Z.of_nat (length chips) <= MAX_CHIPS ->
    Forall (fun c => is_active c = true -> scans_clean c) (take k (drop i chips)) ->
    0 <= tv <= 16 * Z.of_nat i -> 0 <= ts <= 16 * Z.of_nat i ->
    exists chips' w',
      for_loop k (Z.of_nat i) scan_chip (chips, tv, ts) w
      = Ok ((chips', tv + active_registers (take k (drop i chips)),
             ts + active_registers (take k (drop i chips))), None) w' /\
      reads (active_registers (take k (drop i chips))) w w' /\
      length chips' = length chips /\
      (forall j c, (i <= j < i + k)%nat -> chips !! j = Some c ->
                   exists c', chips' !! j = Some c' /\ chip_scanned c c') /\
      (forall j, ~ (i <= j < i + k)%nat -> chips' !! j = chips !! j).
Proof.
  unfold MAX_CHIPS.
  induction k as [|k IH]; intros i chips tv ts w Hk Hmax Hclean Htv Hts.
  - exists chips, w. cbn. rewrite !Z.add_0_r.
    split; [reflexivity |]. split; [apply reads_zero |].
    split; [reflexivity |]. split; [intros; lia | reflexivity].
  - destruct (lookup_lt_is_Some_2 chips i) as [c Hc]; [lia |].
    rewrite (drop_S _ _ _ Hc) in *. cbn [take] in *.
    apply Forall_cons in Hclean as [Hcleanc Hclean].
    rewrite active_registers_cons.
    assert (Hsr : 0 <= scanned_registers c <= 16).
    { unfold scanned_registers. destruct (is_active c); [| lia].
      destruct (Hcleanc eq_refl) as (_ & Hnum & _). unfold MAX_REGISTERS in Hnum.
      lia. }
    destruct (scan_chip_clean (Z.of_nat i) chips c tv ts w)
      as (c1 & w1 & Hstep & Hc1 & Hreads1);
      [lia | now rewrite Nat2Z.id | exact Hcleanc | lia | lia |].
    rewrite Nat2Z.id in Hstep.
    destruct (IH (S i) (<[i := c1]> chips) (tv + scanned_registers c)
                 (ts + scanned_registers c) w1)
      as (chips' & w' & Hloop & Hreads & Hlen & Hin & Hout).
    { rewrite length_insert. lia. }
    { rewrite length_insert. exact Hmax. }
    { rewrite drop_insert_lt by lia. exact Hclean. }
    { lia. }
    { lia. }
    rewrite drop_insert_lt in Hloop, Hreads by lia.
    exists chips', w'. split.
    { cbn [for_loop]. rewrite (bind_Ok_intro _ _ _ _ _ Hstep). cbn beta iota.
      replace (Z.of_nat i + 1) with (Z.of_nat (S i)) by lia.
      rewrite Hloop, !Z.add_assoc. reflexivity. }
    split; [eapply reads_trans; eassumption |].
    split; [now rewrite Hlen, length_insert |].
    split.
    + intros j cj Hj Hcj. destruct (Nat.eq_dec j i) as [-> | Hne].
      * exists c1. rewrite Hout by lia.
        rewrite list_lookup_insert_eq by lia. split; [reflexivity |]. congruence.
      * apply Hin; [lia |]. now rewrite list_lookup_insert_ne by lia.
    + intros j Hj. rewrite Hout by lia. now rewrite list_lookup_insert_ne by lia.
Qed.

(** When every active chip below [active_chip_count] has registers whose
    expected ranges contain all the values the simulated read gives,
    [scan_all_chips_registers] runs to its end without the early return: it
    returns the number of registers of the active chips, reads a register
    that many times, books no error, leaves inactive chips and the chips
    from the count on untouched, and refreshes the visited registers of the
    active chips and nothing else. *)
Theorem scan_all_chips_counts_active_registers (mc : multi_chip_t) (w : world) :
  Z.of_nat (length (chip_systems mc)) = MAX_CHIPS ->
  active_chip_count mc <= MAX_CHIPS ->
  Forall (fun c => is_active c = true -> scans_clean c) (visited_chips mc) ->
  exists mc' w',
    scan_all_chips_registers mc w
    = Ok (active_registers (visited_chips mc), mc') w' /\
    reads (active_registers (visited_chips mc)) w w' /\
    active_chip_count mc' = active_chip_count mc /\
    length (chip_systems mc') = length (chip_systems mc) /\
    (forall j c, (j < Z.to_nat (active_chip_count mc))%nat ->
                 chip_systems mc !! j = Some c ->
                 exists c', chip_systems mc' !! j = Some c' /\ chip_scanned c c') /\
    (forall j, (Z.to_nat (active_chip_count mc) <= j)%nat ->
               chip_systems mc' !! j = chip_systems mc !! j).
Proof.
  intros Hlen Hcount Hclean. unfold visited_chips in *.
  destruct (scan_chips_clean (Z.to_nat (active_chip_count mc)) 0%nat
              (chip_systems mc) 0 0 w)
    as (chips' & w' & Hloop & Hreads & Hlen' & Hin & Hout);
    [lia | lia | exact Hclean | lia | lia |].
  rewrite drop_0 in Hloop, Hreads. change (Z.of_nat 0) with 0 in Hloop.
  unfold scan_all_chips_registers.
  rewrite (bind_Ok_intro _ _ _ _ _ Hloop). cbn.
  eexists _, _. split; [reflexivity |]. cbn.
  split; [exact Hreads |]. split; [reflexivity |]. split; [exact Hlen' |].
  split.
  - intros j c Hj. apply Hin. lia.
  - intros j Hj. apply Hout. lia.
Qed.

Lemma scan_all_chips_counts_active_registers_witness :
  init_multi_chip_system 3 zeroed_chips boot_world
  = Ok (true, three_chips) boot_world /\
  exists mc' w',
    scan_all_chips_registers three_chips boot_world = Ok (12, mc') w' /\
    reads 12 boot_world w'.
Proof.
  split; [vm_compute; reflexivity |].
  destruct (scan_all_chips_counts_active_registers three_chips boot_world)
    as (mc' & w' & Hscan & Hreads & _).
  - reflexivity.
  - unfold MAX_CHIPS. cbn. lia.
  - assert (Hchip : forall j, scans_clean (initialised_chip j zeroed_chip)).
    { intros j. split; [reflexivity |]. split; [cbn; unfold MAX_REGISTERS; lia |].
      change (visited_registers (monitor (initialised_chip j zeroed_chip)))
        with [chip_register j 0; chip_register j 1; chip_register j 2;
              chip_register j 3].
      repeat (apply Forall_cons; split;
              [unfold accepts_simulated_reads; cbn; lia |]).
      constructor. }
    change (visited_chips three_chips)
      with [initialised_chip 0 zeroed_chip; initialised_chip 1 zeroed_chip;
            initialised_chip 2 zeroed_chip].
    repeat (apply Forall_cons; split; [intros _; apply Hchip |]).
    constructor.
  - exists mc', w'. split; [exact Hscan | exact Hreads].
Defined.

(** ** Monitoring by priority *)

(** A property kept by every pass below [hi] is kept by a loop that stays
    below [hi]. *)
Lemma for_loop_invariant_below {St R} (body : Z -> St -> M (control R * St))
    (P : St -> world -> Prop) (hi : Z) :
  (forall i s w c s' w',
      i < hi -> P s w -> body i s w = Ok (c, s') w' -> P s' w') ->
  forall n i s w s' r w',
    i + Z.of_nat n <= hi -> P s w ->
    for_loop n i body s w = Ok (s', r) w' -> P s' w'.
Proof.
  intros Hbody. induction n as [|n IH]; intros i s w s' r w' Hhi HP H; simpl in H.
  - apply ret_Ok in H as [Heq ->]. now injection Heq as -> _.
  - apply bind_Ok in H as ([c s1] & w1 & Hstep & H).
    assert (HP1 : P s1 w1) by (eapply Hbody; [| exact HP | exact Hstep]; lia).
    destruct c as [| |r0].
    + eapply (IH (i + 1)); [lia | exact HP1 | exact H].
    + apply ret_Ok in H as [Heq ->]. now injection Heq as -> _.
    + apply ret_Ok in H as [Heq ->]. now injection Heq as -> _.
Qed.

Lemma inactive_chips_cons (c : chip_system_t) (l : list chip_system_t) :
  inactive_chips (c :: l) = bool_to_Z (negb (is_active c)) + inactive_chips l.
Proof. reflexivity. Qed.

Lemma inactive_chips_insert (chips : list chip_system_t) (i : nat)
    (c c' : chip_system_t) :
  chips !! i = Some c ->
  inactive_chips (<[i := c']> chips)
  = inactive_chips chips - bool_to_Z (negb (is_active c))
    + bool_to_Z (negb (is_active c')).
Proof.
  revert i. induction chips as [|x l IH]; intros [|i] H; try discriminate.
  - injection H as ->.
    change (<[0%nat := c']> (c :: l)) with (c' :: l).
    rewrite !inactive_chips_cons. lia.
  - cbn in H. specialize (IH i H).
    change (<[S i := c']> (x :: l)) with (x :: <[i := c']> l).
    rewrite !inactive_chips_cons, IH. lia.
Qed.

Lemma chip_kept_refl (c : chip_system_t) : chip_kept c c.
Proof. unfold chip_kept. tauto. Qed.

Lemma chip_kept_trans (c1 c2 c3 : chip_system_t) :
  chip_kept c1 c2 -> chip_kept c2 c3 -> chip_kept c1 c3.
Proof. unfold chip_kept. intuition congruence. Qed.

Lemma chips_kept_trans (l1 l2 l3 : list chip_system_t) :
  Forall2 chip_kept l1 l2 -> Forall2 chip_kept l2 l3 -> Forall2 chip_kept l1 l3.
Proof.
  intros H. revert l3.
  induction H as [|x y l k Hxy _ IH]; intros l3 H';
    inversion H' as [|y' z k' m Hyz Hrest]; subst; constructor;
    [eapply chip_kept_trans; eassumption | apply IH, Hrest].
Qed.

Lemma monitored_refl (mc : multi_chip_t) : monitored mc mc.
Proof.
  unfold monitored. split; [reflexivity |]. split; [lia |].
  split; [| reflexivity].
  apply Forall2_same_length_lookup_2; [reflexivity |].
  intros i x y Hx Hy. rewrite Hx in Hy. injection Hy as <-. apply chip_kept_refl.
Qed.

Lemma monitored_trans (mc1 mc2 mc3 : multi_chip_t) :
  monitored mc1 mc2 -> monitored mc2 mc3 -> monitored mc1 mc3.
Proof.
  unfold monitored.
  intros (Hbook & Hle & Hkept & Hrest) (Hbook' & Hle' & Hkept' & Hrest').
  split; [lia |]. split; [lia |]. split.
  - eapply chips_kept_trans; eassumption.
  - intros j Hj. rewrite Hrest' by lia. apply Hrest, Hj.
Qed.

(** One chip below the counter is replaced; the counter goes down by one
    exactly when the chip is switched off. *)
Lemma monitored_insert (mc : multi_chip_t) (i : nat) (c c' : chip_system_t)
    (n' : Z) :
  chip_systems mc !! i = Some c -> Z.of_nat i < active_chip_count mc ->
  chip_kept c c' ->
  n' + bool_to_Z (negb (is_active c'))
  = active_chip_count mc + bool_to_Z (negb (is_active c)) ->
  n' <= active_chip_count mc ->
  monitored mc (mk_multi_chip (<[i := c']> (chip_systems mc)) n').
Proof.
  intros Hc Hi Hkept Hbook Hle. unfold monitored.
  cbn [chip_systems active_chip_count].
  rewrite (inactive_chips_insert _ _ c c' Hc).
  split; [lia |]. split; [exact Hle |]. split.
  - apply Forall2_same_length_lookup_2; [now rewrite length_insert |].
    intros j x y Hx Hy. destruct (Nat.eq_dec j i) as [-> | Hne].
    + rewrite list_lookup_insert_eq in Hy by (eapply lookup_lt_Some; eassumption).
      rewrite Hc in Hx. injection Hx as <-. injection Hy as <-. exact Hkept.
    + rewrite list_lookup_insert_ne in Hy by lia.
      rewrite Hx in Hy. injection Hy as <-. apply chip_kept_refl.
  - intros j Hj. apply list_lookup_insert_ne. lia.
Qed.

Lemma updated_chip_kept (c : chip_system_t) (r : option monitor_system_t)
    (w w' : world) :
  update_all_registers (Some (monitor c)) w = Ok r w' ->
  exists m, r = Some m /\ chip_kept c (set_monitor m c) /\
            chip_kept c (set_is_active false (set_monitor m c)).
Proof.
  intros H. apply update_all_registers_frame in H
    as (m & -> & Hv & Ht & Hc & He & Ha & Hn & Hl & _).
  exists m. split; [reflexivity |]. unfold chip_kept. cbn.
  split; repeat apply conj; try assumption; try reflexivity; try tauto;
    discriminate.
Qed.

Lemma high_priority_chip_monitored (chip : Z) (mc mc' : multi_chip_t)
    (c : control Empty_set) (w w' : world) :
  high_priority_chip chip mc w = Ok (c, mc') w' -> monitored mc mc'.
Proof.
  unfold high_priority_chip. intros H.
  destruct (Z.geb_spec chip (active_chip_count mc)) as [Hge | Hlt].
  { invert_M H. apply monitored_refl. }
  apply bind_Ok in H as (c0 & w1 & Hget & H).
  apply array_get_Ok in Hget as (-> & Hchip & Hc0).
  destruct (is_active c0) eqn:Hact; cbn [negb orb] in H;
    [| invert_M H; apply monitored_refl].
  destruct (negb (priority_level c0 =? 1)); [invert_M H; apply monitored_refl |].
  apply bind_Ok in H as (r & w2 & Hupdate & H).
  apply updated_chip_kept in Hupdate as (m & -> & Hkept & Hkept_off).
  destruct (check_critical_conditions (Some m)).
  - invert_M H. apply (monitored_insert mc _ c0); try assumption; try lia.
    cbn. rewrite Hact. cbn. lia.
  - invert_M H. apply (monitored_insert mc _ c0); try assumption; try lia.
    cbn. reflexivity.
Qed.

Lemma priority_chip_monitored (level chip : Z) (mc mc' : multi_chip_t)
    (c : control Empty_set) (w w' : world) :
  chip < active_chip_count mc ->
  priority_chip level chip mc w = Ok (c, mc') w' ->
  monitored mc mc' /\ active_chip_count mc' = active_chip_count mc.
Proof.
  unfold priority_chip. intros Hlt H.
  apply bind_Ok in H as (c0 & w1 & Hget & H).
  apply array_get_Ok in Hget as (-> & Hchip & Hc0).
  destruct (negb (is_active c0) || negb (priority_level c0 =? level));
    [invert_M H; split; [apply monitored_refl | reflexivity] |].
  apply bind_Ok in H as (r & w2 & Hupdate & H).
  apply updated_chip_kept in Hupdate as (m & -> & Hkept & _).
  invert_M H. split; [| reflexivity].
  apply (monitored_insert mc _ c0); try assumption; try lia. cbn. reflexivity.
Qed.

Lemma priority_loop_monitored (level : Z) (mc mc' : multi_chip_t)
    (r : option Empty_set) (w w' : world) :
  for_loop (Z.to_nat (active_chip_count mc)) 0 (priority_chip level) mc w
  = Ok (mc', r) w' ->
  monitored mc mc'.
Proof.
  intros H.
  apply (for_loop_invariant_below (priority_chip level)
           (fun mc1 _ => monitored mc mc1 /\
                         active_chip_count mc1 = active_chip_count mc)
           (Z.max 0 (active_chip_count mc))) in H.
  - apply H.
  - intros i mc1 w1 c mc2 w2 Hi [Hmon Hcount] Hstep.
    assert (Hi0 : 0 <= i).
    { unfold priority_chip in Hstep.
      apply bind_Ok in Hstep as (c0 & w3 & Hget & _).
      now apply array_get_Ok in Hget as (_ & Hi0 & _). }
    apply priority_chip_monitored in Hstep as [Hmon' Hcount']; [| lia].
    split; [eapply monitored_trans; eassumption | congruence].
  - lia.
  - split; [apply monitored_refl | reflexivity].
Qed.

Lemma high_priority_loop_monitored (n : nat) (mc mc' : multi_chip_t)
    (r : option Empty_set) (w w' : world) :
  for_loop n 0 high_priority_chip mc w = Ok (mc', r) w' -> monitored mc mc'.
Proof.
  intros H.
  apply (for_loop_invariant high_priority_chip (fun mc1 _ => monitored mc mc1))
    in H; [exact H | | apply monitored_refl].
  intros i mc1 w1 c mc2 w2 Hmon Hstep.
  apply high_priority_chip_monitored in Hstep.
  eapply monitored_trans; eassumption.
Qed.

Lemma priority_iteration_monitored (start d : Z) (mc mc' : multi_chip_t)
    (it it' : Z) (c : control Empty_set) (w w' : world) :
  priority_iteration start d (mc, it) w = Ok (c, (mc', it')) w' ->
  monitored mc mc'.
Proof.
  unfold priority_iteration. intros H.
  apply bind_Ok in H as (now & w1 & _ & H).
  destruct (negb (now - start <? d)); [invert_M H; apply monitored_refl |].
  apply bind_Ok in H as (it1 & w2 & _ & H).
  apply bind_Ok in H as ([mc1 r1] & w3 & Hhigh & H).
  apply high_priority_loop_monitored in Hhigh. cbn [loop_state fst] in H.
  apply bind_Ok in H as (mc2 & w4 & Hmedium & H).
  assert (Hmon2 : monitored mc1 mc2).
  { destruct (Z.rem it1 2 =? 0).
    - apply bind_Ok in Hmedium as ([mc2' r2] & w5 & Hloop & Hret).
      apply ret_Ok in Hret as [-> _]. eapply priority_loop_monitored, Hloop.
    - apply ret_Ok in Hmedium as [-> _]. apply monitored_refl. }
  apply bind_Ok in H as (mc3 & w5 & Hlow & H).
  assert (Hmon3 : monitored mc2 mc3).
  { destruct (Z.rem it1 3 =? 0).
    - apply bind_Ok in Hlow as ([mc3' r3] & w6 & Hloop & Hret).
      apply ret_Ok in Hret as [-> _]. eapply priority_loop_monitored, Hloop.
    - apply ret_Ok in Hlow as [-> _]. apply monitored_refl. }
  assert (Hmon : monitored mc mc3)
    by (eapply monitored_trans; [eapply monitored_trans |]; eassumption).
  destruct (active_chip_count mc3 =? 0); invert_M H; exact Hmon.
Qed.

(** Whenever [priority_based_monitoring] returns, the counter has gone down
    by exactly the number of chips that were switched off, whichever chips
    these are; no chip was switched on; every chip has its id, priority,
    readings, error count and table size; and the chips from the old
    counter on are as they were.  So after a chip in the middle is switched
    off, the loops, which run over the indices below the counter, leave out
    the last chip, not the one that failed. *)
Theorem priority_monitoring_books_deactivations (fuel : nat)
    (duration_seconds : Z) (mc mc' : multi_chip_t) (w w' : world) :
  priority_based_monitoring fuel duration_seconds mc w = Ok mc' w' ->
  active_chip_count mc' + inactive_chips (chip_systems mc')
  = active_chip_count mc + inactive_chips (chip_systems mc) /\
  active_chip_count mc' <= active_chip_count mc /\
  Forall2 chip_kept (chip_systems mc) (chip_systems mc') /\
  (forall j, (Z.to_nat (active_chip_count mc) <= j)%nat ->
             chip_systems mc' !! j = chip_systems mc !! j).
Proof.
  unfold priority_based_monitoring. intros H.
  apply bind_Ok in H as (start & w1 & _ & H).
  apply bind_Ok in H as ([mc1 it1] & w2 & Hloop & H).
  apply ret_Ok in H as [-> ->].
  apply (while_loop_invariant _ _
           (fun (st : multi_chip_t * Z) _ => monitored mc st.1)) in Hloop;
    [exact Hloop | | apply monitored_refl].
  intros [mc2 it2] w3 c [mc3 it3] w4 Hmon Hstep.
  apply priority_iteration_monitored in Hstep.
  eapply monitored_trans; eassumption.
Qed.

Lemma priority_monitoring_books_deactivations_witness :
  exists mc' w',
    priority_based_monitoring 10 4 two_chips boot_world = Ok mc' w' /\
    time_calls w' = 5%nat /\
    is_active <$> chip_systems mc' !! 0%nat = Some false /\
    chip_systems mc' !! 1%nat = Some healthy_chip /\
    active_chip_count mc' = 1 /\
    inactive_chips (chip_systems mc') = inactive_chips (chip_systems two_chips) + 1.
Proof.
  eexists _, _. split; [vm_compute; reflexivity |].
  split; [reflexivity |]. split; [reflexivity |]. split; [reflexivity |].
  match goal with
  | |- active_chip_count ?mc' = _ /\ _ =>
      assert (Hrun : exists w', priority_based_monitoring 10 4 two_chips boot_world
                                = Ok mc' w')
        by (eexists; vm_compute; reflexivity)
  end.
  destruct Hrun as [w' Hrun].
  destruct (priority_monitoring_books_deactivations _ _ _ _ _ _ Hrun)
    as (Hbook & _).
  split; [reflexivity |].
  change (active_chip_count two_chips) with 2 in Hbook.
  match type of Hbook with
  | active_chip_count ?mc' + _ = _ =>
      change (active_chip_count mc') with 1 in Hbook
  end.
  lia.
Defined.
